(** * ChurchMolFS: the Church DNA-storage codec and its MolFS interface

    A shallow embedding of [church_algorithm_encoder.py],
    [church_algorithm_decoder.py] and the block reconstruction of
    [church_interface.py], with the properties of the codec stated and
    proved over it.

    Conventions of the embedding:
    - a Python bit string (a [str] over '0' and '1') is a [list bool],
      most significant bit first;
    - a DNA string is a [list ascii];
    - a Python [int] is a [Z], a length or position a [nat];
    - a byte string is a [list Z] with every element in [0, 256);
    - a [dict] is a [gmap], a [set] a [gset];
    - [random.choice] reads the next element of a sequence of outcomes
      [rnd : nat -> bool], the position in that sequence being threaded
      through the calls. *)

From Stdlib Require Import ZArith Ascii Lia.
From stdpp Require Import base numbers option list sorting gmap.

Local Open Scope Z_scope.

(** ** Python integer/bit-string conversions *)

Module PyBits.

(** [int(s, 2)] on a string of binary digits.  Python raises ValueError on
    the empty string, which no caller passes: the encoder pads its payload
    to at least 96 characters and the decoder slices exactly 19, 96 and 32
    symbols. *)
Definition int2 (s : list bool) : Z :=
  fold_left (fun acc b => 2 * acc + Z.b2z b) s 0.

Fixpoint pos_digits (p : positive) (acc : list bool) : list bool :=
  match p with
  | xH => true :: acc
  | xO p' => pos_digits p' (false :: acc)
  | xI p' => pos_digits p' (true :: acc)
  end.

(** [f"{n:b}"]: the binary digits of a non-negative integer without leading
    zeros ("0" for zero).  Python prints a sign for a negative number; no
    caller formats one (addresses start at 1 and grow, a CRC is unsigned). *)
Definition bin (n : Z) : list bool :=
  match n with
  | Z0 => [false]
  | Zpos p => pos_digits p []
  | Zneg p => pos_digits p []
  end.

(** [f"{n:0{width}b}"]: left-padded with zeros up to [width]; a number that
    needs more digits is printed in full, the width being a minimum. *)
Definition format_b (width : nat) (n : Z) : list bool :=
  let d := bin n in
  replicate (width - length d)%nat false ++ d.

(** [s.ljust(width, '0')] on a bit string. *)
Definition ljust (width : nat) (s : list bool) : list bool :=
  s ++ replicate (width - length s)%nat false.

(** [n.to_bytes(len, byteorder='big')], for [0 <= n < 256^len] (Python
    raises OverflowError otherwise; every caller sizes [len] from the bit
    length of [n]). *)
Fixpoint to_bytes (len : nat) (n : Z) : list Z :=
  match len with
  | O => []
  | S k => Z.land (Z.shiftr n (8 * Z.of_nat k)) 255 :: to_bytes k n
  end.

(** [''.join(f"{byte:08b}" for byte in data)] *)
Definition bytes_to_bits (data : list Z) : list bool :=
  concat (map (format_b 8) data).

End PyBits.

(** ** zlib.crc32

    The checksum of the zlib library: CRC-32 (IEEE 802.3), reflected
    polynomial 0xEDB88320, initial value and final xor 0xFFFFFFFF, computed
    bit by bit. *)

Module Zlib.

Definition poly : Z := 0xEDB88320.

Definition crc32_shift (c : Z) : Z :=
  if Z.testbit c 0 then Z.lxor (Z.shiftr c 1) poly else Z.shiftr c 1.

Definition crc32_update (c b : Z) : Z :=
  Nat.iter 8 crc32_shift (Z.lxor c b).

Definition crc32_raw (init : Z) (data : list Z) : Z :=
  fold_left crc32_update data init.

Definition crc32 (data : list Z) : Z :=
  Z.lxor (crc32_raw 0xFFFFFFFF data) 0xFFFFFFFF.

End Zlib.

(** ** Exceptions *)

Inductive exn : Type :=
  | ValueError
  | ZeroDivisionError
  | KeyError
  | FileNotFoundError.

Inductive result (A : Type) : Type :=
  | Ok (a : A)
  | Raise (e : exn).
Arguments Ok {A} a.
Arguments Raise {A} e.

Definition bind {A B : Type} (r : result A) (k : A -> result B) : result B :=
  match r with
  | Ok a => k a
  | Raise e => Raise e
  end.

Notation "'try' x <- r ; k" := (bind r (fun x => k))
  (at level 10, x name, r at level 100, k at level 200).

(** ** church_algorithm_encoder.py *)

Module Encoder.
Import PyBits.

Local Open Scope char_scope.

(** [BIT_TO_BASE = {'0': ['A', 'C'], '1': ['G', 'T']}] *)
Definition BIT_TO_BASE (bit : bool) : list ascii :=
  if bit then ["G"; "T"] else ["A"; "C"].

Definition DEFAULT_FORWARD_PRIMER : list ascii :=
  ["C";"T";"A";"C";"A";"C";"G";"A";"C";"G";"C";"T";"C";"T";"T";"C";"C";"G";"A";"T";"C";"T"].
Definition DEFAULT_REVERSE_PRIMER : list ascii :=
  ["A";"G";"A";"T";"C";"G";"G";"A";"A";"G";"A";"G";"C";"G";"G";"T";"T";"C";"A";"G";"C";"A"].

Definition HOMOPOLYMER_LIMIT : nat := 3.

(** [l[-n:]] for [n > 0]: the last [n] elements, the whole list when it is
    shorter. *)
Definition last_n {A : Type} (n : nat) (l : list A) : list A :=
  drop (length l - n)%nat l.

(** [synonyms = {'A': 'C', 'C': 'A', 'G': 'T', 'T': 'G'}]; a lookup of
    another character raises KeyError in Python, which no caller triggers:
    the base always comes out of [BIT_TO_BASE]. *)
Definition synonyms (base : ascii) : ascii :=
  match base with
  | "A" => "C"
  | "C" => "A"
  | "G" => "T"
  | "T" => "G"
  | _ => base
  end.

Definition avoid_homopolymer (last_bases : list ascii) (base : ascii) : ascii :=
  if (HOMOPOLYMER_LIMIT <=? length last_bases)%nat
     && forallb (fun b => Ascii.eqb b base) (last_n HOMOPOLYMER_LIMIT last_bases)
  then synonyms base
  else base.

(** [random.choice] on a two-element list, given the outcome drawn. *)
Definition random_choice (outcome : bool) (l : list ascii) : ascii :=
  nth (if outcome then 1%nat else 0%nat) l "A".

(** [read_binary_file], on the content of the file: the bit stream and the
    size in bytes. *)
Definition read_binary_file (binary_data : list Z) : list bool * nat :=
  let file_size := length binary_data in
  (bytes_to_bits binary_data, file_size).

Section Randomised.

(** The outcomes of the successive calls of [random.choice]. *)
Variable rnd : nat -> bool.

(** [encode_bits_to_dna]: [pos] is the number of draws made so far; the call
    makes [length bits] draws.  The Python function updates [last_bases] in
    place; every caller hands it a copy, so the window is passed by value. *)
Fixpoint encode_bits_to_dna (pos : nat) (bits : list bool)
    (last_bases : list ascii) : list ascii :=
  match bits with
  | [] => []
  | bit :: bits' =>
      let base := random_choice (rnd pos) (BIT_TO_BASE bit) in
      let base := avoid_homopolymer last_bases base in
      let last_bases := last_bases ++ [base] in
      let last_bases :=
        if (HOMOPOLYMER_LIMIT <? length last_bases)%nat
        then tail last_bases else last_bases in
      base :: encode_bits_to_dna (S pos) bits' last_bases
  end.

(** [calculate_crc32_checksum]. *)
Definition calculate_crc32_checksum (data_bits : list bool) : list bool :=
  let byte_data := to_bytes ((length data_bits + 7) / 8) (int2 data_bits) in
  let checksum := Zlib.crc32 byte_data in
  format_b 32 checksum.

(** One element of the list returned by [bits_to_dna_with_crc32]:
    [(address_bits, data_bits, crc32_checksum_bits, complete_oligo)]. *)
Record oligo_details : Type := OligoDetails {
  address_bits : list bool;
  data_bits : list bool;
  crc32_checksum_bits : list bool;
  complete_oligo : list ascii
}.

(** [range(0, stop, step)] for [step > 0]. *)
Definition py_range (stop step : nat) : list nat :=
  (fun k => k * step)%nat <$> seq 0 ((stop + step - 1) / step).

(** [bits[a:b]] *)
Definition slice {A : Type} (a b : nat) (l : list A) : list A :=
  take (b - a)%nat (drop a l).

Section Segments.
Variables (bits : list bool) (forward_primer reverse_primer : list ascii).
Variables (segment_length : nat) (max_address : Z).

(** The body of the [for i in range(...)] loop of [bits_to_dna_with_crc32],
    with the loop state [address] and the position in the random draws.
    [last_bases] is the empty list throughout: the loop only ever passes
    copies of it. *)
Fixpoint segment_loop (idxs : list nat) (address : Z) (pos : nat)
    : list oligo_details * nat :=
  match idxs with
  | [] => ([], pos)
  | i :: idxs' =>
      if bool_decide (address > max_address) then ([], pos)
      else
        let last_bases : list ascii := [] in
        let address_bits := format_b 19 address in
        let address_dna := encode_bits_to_dna pos address_bits last_bases in
        let pos := (pos + length address_bits)%nat in
        let data_bits :=
          ljust 96 (slice i (i + segment_length * 8) bits) in
        let crc32_checksum_bits := calculate_crc32_checksum data_bits in
        let data_dna := encode_bits_to_dna pos data_bits last_bases in
        let pos := (pos + length data_bits)%nat in
        let crc32_dna :=
          encode_bits_to_dna pos crc32_checksum_bits last_bases in
        let pos := (pos + length crc32_checksum_bits)%nat in
        let core_oligo := address_dna ++ data_dna ++ crc32_dna in
        let complete_oligo := core_oligo in
        let complete_oligo :=
          if bool_decide (forward_primer <> [])
          then forward_primer ++ complete_oligo else complete_oligo in
        let complete_oligo :=
          if bool_decide (reverse_primer <> [])
          then complete_oligo ++ reverse_primer else complete_oligo in
        let '(rest, pos) := segment_loop idxs' (address + 1) pos in
        (OligoDetails address_bits data_bits crc32_checksum_bits
           complete_oligo :: rest, pos)
  end.

(** [bits_to_dna_with_crc32]; the input validation is vacuous on a
    [list bool].  A zero [segment_length] makes [range] raise. *)
Definition bits_to_dna_with_crc32 (pos : nat)
    : result (list oligo_details * nat) :=
  if (segment_length =? 0)%nat then Raise ValueError
  else Ok (segment_loop (py_range (length bits) (segment_length * 8)) 1 pos).

End Segments.

(** One row of the CSV file written by [save_to_csv_with_blocks] and read
    back by the decoder.  A cell that the reader may find absent (the column
    is not in the header, or the cell is the empty string) is an [option]. *)
Record csv_row : Type := CsvRow {
  col_block_index : option Z;
  col_address : list bool;
  col_data_bits : list bool;
  col_crc32 : list bool;
  col_oligo : list ascii;
  col_block_size : option Z;
  col_actual_block_size : option Z;
  col_total_file_size : option Z
}.

Section Blocks.
Variables (bits : list bool) (forward_primer reverse_primer : list ascii).
Variables (block_size_bytes total_data_size : nat).

Definition bytes_per_oligo : nat := 12.

(** The [for block_index in range(num_blocks)] loop of
    [encode_file_to_dna], producing the rows that
    [save_to_csv_with_blocks] writes. *)
Fixpoint block_loop (block_indices : list nat) (pos : nat)
    : result (list csv_row * nat) :=
  match block_indices with
  | [] => Ok ([], pos)
  | block_index :: rest =>
      let oligos_per_block :=
        ((block_size_bytes + bytes_per_oligo - 1) / bytes_per_oligo)%nat in
      let start_bit := (block_index * block_size_bytes * 8)%nat in
      let end_bit :=
        ((start_bit + block_size_bytes * 8) `min` length bits)%nat in
      let block_bits := slice start_bit end_bit bits in
      let actual_block_bytes := ((length block_bits + 7) / 8)%nat in
      let actual_oligos_needed :=
        ((actual_block_bytes + bytes_per_oligo - 1) / bytes_per_oligo)%nat in
      let max_address_for_block :=
        (oligos_per_block `min` actual_oligos_needed)%nat in
      try encoded_block <-
        bits_to_dna_with_crc32 block_bits forward_primer reverse_primer
          bytes_per_oligo (Z.of_nat max_address_for_block) pos;
      let '(block_oligos, pos) := encoded_block in
      let rows :=
        (fun o => CsvRow (Some (Z.of_nat block_index)) (address_bits o)
                    (data_bits o) (crc32_checksum_bits o) (complete_oligo o)
                    (Some (Z.of_nat block_size_bytes))
                    (Some (Z.of_nat actual_block_bytes))
                    (Some (Z.of_nat total_data_size))) <$> block_oligos in
      try encoded_rest <- block_loop rest pos;
      let '(rows', pos) := encoded_rest in
      Ok (rows ++ rows', pos)
  end.

End Blocks.

(** What [encode_file_to_dna] leaves behind: the CSV rows, and the returned
    [(number of oligos, input size, number of blocks)]. *)
Record encoded : Type := Encoded {
  csv_rows : list csv_row;
  num_oligos : nat;
  input_size : nat;
  num_blocks : nat
}.

(** [encode_file_to_dna], on the content [binary_data] of the input file. *)
Definition encode_file_to_dna (binary_data : list Z)
    (forward_primer reverse_primer : option (list ascii))
    (check_file_size : bool) (max_file_size : nat) (block_size_bytes : nat)
    : result encoded :=
  let forward_primer := default DEFAULT_FORWARD_PRIMER forward_primer in
  let reverse_primer := default DEFAULT_REVERSE_PRIMER reverse_primer in
  if bool_decide (forward_primer <> []) && negb (length forward_primer =? 22)%nat
  then Raise ValueError
  else if bool_decide (reverse_primer <> []) && negb (length reverse_primer =? 22)%nat
  then Raise ValueError
  else
    let file_size := length binary_data in
    if check_file_size && (max_file_size <? file_size)%nat then Raise ValueError
    else
      let bits := bytes_to_bits binary_data in
      let total_data_size := length binary_data in
      let total_bytes := (length bits / 8)%nat in
      if (block_size_bytes =? 0)%nat then Raise ZeroDivisionError
      else
        let num_blocks :=
          ((total_bytes + block_size_bytes - 1) / block_size_bytes)%nat in
        try all_blocks <-
          block_loop bits forward_primer reverse_primer block_size_bytes
            total_data_size (seq 0 num_blocks) 0;
        let all_oligos_with_details := fst all_blocks in
        Ok (Encoded all_oligos_with_details (length all_oligos_with_details)
              total_data_size num_blocks).

End Randomised.

End Encoder.

(** ** church_algorithm_decoder.py *)

Module Decoder.
Import PyBits.
Export Encoder(csv_row, CsvRow, col_block_index, col_address, col_data_bits,
  col_crc32, col_oligo, col_block_size, col_actual_block_size,
  col_total_file_size, slice).

Local Open Scope char_scope.

(** [BASE_TO_BIT = {'A': '0', 'C': '0', 'G': '1', 'T': '1'}]; [None] is the
    KeyError of a lookup outside the alphabet. *)
Definition BASE_TO_BIT (base : ascii) : option bool :=
  match base with
  | "A" => Some false
  | "C" => Some false
  | "G" => Some true
  | "T" => Some true
  | _ => None
  end.

Definition decode_dna_to_bits (dna_sequence : list ascii) : option (list bool) :=
  mapM BASE_TO_BIT dna_sequence.

Definition verify_crc32_checksum (data_bits checksum_bits : list bool) : bool :=
  let byte_data := to_bytes ((length data_bits + 7) / 8) (int2 data_bits) in
  let calculated_checksum := Zlib.crc32 byte_data in
  let calculated_checksum_bits := format_b 32 calculated_checksum in
  bool_decide (calculated_checksum_bits = checksum_bits).

(** The first half of [extract_oligo_parts]: [core_sequence] once the
    primers that are given and found have been removed.  A primer that is
    [None] or empty is not looked for; both are the empty list here. *)
Definition core_sequence (oligo forward_primer reverse_primer : list ascii)
    : list ascii :=
  let core_sequence := oligo in
  let core_sequence :=
    if bool_decide (forward_primer <> [])
       && bool_decide (forward_primer `prefix_of` oligo)
    then drop (length forward_primer) core_sequence else core_sequence in
  if bool_decide (reverse_primer <> [])
     && bool_decide (reverse_primer `suffix_of` core_sequence)
  then take (length core_sequence - length reverse_primer)%nat core_sequence
  else core_sequence.

(** [extract_oligo_parts]; [None] stands for the returned
    [(None, None, None)]. *)
Definition extract_oligo_parts (oligo forward_primer reverse_primer : list ascii)
    : option (list ascii * list ascii * list ascii) :=
  let core_sequence := core_sequence oligo forward_primer reverse_primer in
  if (19 + 96 <=? length core_sequence)%nat then
    Some (take 19 core_sequence,
          slice 19 (19 + 96) core_sequence,
          drop (19 + 96) core_sequence)
  else None.

(** Whitespace in the sense of [str.strip()], for the characters an [ascii]
    can hold. *)
Definition is_space (c : ascii) : bool :=
  let n := nat_of_ascii c in
  ((9 <=? n) && (n <=? 13) || (28 <=? n) && (n <=? 32)
   || (n =? 133) || (n =? 160))%nat.

Fixpoint lstrip (s : list ascii) : list ascii :=
  match s with
  | c :: s' => if is_space c then lstrip s' else s
  | [] => []
  end.

Definition strip (s : list ascii) : list ascii :=
  reverse (lstrip (reverse (lstrip s))).

Record crc_stats : Type := CrcStats {
  valid : nat;
  invalid : nat;
  missing : nat
}.

Record block_info : Type := BlockInfo {
  block_size_bytes : Z;
  block_count : nat;
  total_file_size : Z;
  actual_block_sizes : gmap Z Z;
  stats : crc_stats
}.

(** The messages collected in [errors]. *)
Inductive error : Type :=
  | FailedToExtract (row_num : nat)
  | ChecksumFailed (row_num : nat)
  | ErrorProcessing (row_num : nat).

(** The variables the row loop of [decode_oligos_from_csv] updates. *)
Record state : Type := State {
  decoded_blocks : gmap (Z * Z) (list bool);
  errors : list error;
  info : block_info;
  block_indices : gset Z
}.

Definition initial : state :=
  State ∅ [] (BlockInfo 0 0 0 ∅ (CrcStats 0 0 0)) ∅.

Definition add_error (e : error) (st : state) : state :=
  State (decoded_blocks st) (errors st ++ [e]) (info st) (block_indices st).

Definition set_stats (s : crc_stats) (st : state) : state :=
  let i := info st in
  State (decoded_blocks st) (errors st)
    (BlockInfo (block_size_bytes i) (block_count i) (total_file_size i)
       (actual_block_sizes i) s)
    (block_indices st).

Definition store (key : Z * Z) (bits : list bool) (st : state) : state :=
  State (<[key := bits]> (decoded_blocks st)) (errors st) (info st)
    (block_indices st).

(** The part of the loop body that reads the block columns of a row. *)
Definition read_block_columns (row : csv_row) (st : state) : Z * state :=
  let block_index := default 0 (col_block_index row) in
  let i := info st in
  let size := default (block_size_bytes i) (col_block_size row) in
  let actual :=
    match col_actual_block_size row with
    | Some a => <[block_index := a]> (actual_block_sizes i)
    | None => actual_block_sizes i
    end in
  let total := default (total_file_size i) (col_total_file_size row) in
  (block_index,
   State (decoded_blocks st) (errors st)
     (BlockInfo size (block_count i) total actual (stats i))
     ({[block_index]} ∪ block_indices st)).

Section Rows.
Variables forward_primer reverse_primer : list ascii.

(** The body of [for row_num, row in enumerate(reader, 2)], including its
    [try]/[except]: an exception (here the KeyError of a symbol outside the
    alphabet) is recorded and the loop goes on. *)
Definition process_row (st : state) (row_num : nat) (row : csv_row) : state :=
  let oligo := strip (col_oligo row) in
  let '(block_index, st) := read_block_columns row st in
  match extract_oligo_parts oligo forward_primer reverse_primer with
  | None => add_error (FailedToExtract row_num) st
  | Some (address_dna, data_dna, crc32_dna) =>
      match decode_dna_to_bits address_dna, decode_dna_to_bits data_dna with
      | Some address_bits, Some data_bits =>
          if (32 <=? length crc32_dna)%nat then
            match decode_dna_to_bits (take 32 crc32_dna) with
            | Some crc32_bits =>
                let s := stats (info st) in
                if verify_crc32_checksum data_bits crc32_bits then
                  let st := set_stats (CrcStats (S (valid s)) (invalid s) (missing s)) st in
                  store (block_index, int2 address_bits) data_bits st
                else
                  let st := set_stats (CrcStats (valid s) (S (invalid s)) (missing s)) st in
                  add_error (ChecksumFailed row_num) st
            | None => add_error (ErrorProcessing row_num) st
            end
          else
            let s := stats (info st) in
            let st := set_stats (CrcStats (valid s) (invalid s) (S (missing s))) st in
            store (block_index, int2 address_bits) data_bits st
      | _, _ => add_error (ErrorProcessing row_num) st
      end
  end.

Fixpoint row_loop (st : state) (row_num : nat) (rows : list csv_row) : state :=
  match rows with
  | [] => st
  | row :: rows' => row_loop (process_row st row_num row) (S row_num) rows'
  end.

End Rows.

(** Python compares the keys [(block_index, address)] as tuples. *)
Definition key_le (k1 k2 : Z * Z) : Prop :=
  k1.1 < k2.1 \/ (k1.1 = k2.1 /\ k1.2 <= k2.2).

Global Instance key_le_dec : RelDecision key_le.
Proof. intros k1 k2. unfold key_le. apply _. Defined.

(** [sorted(decoded_blocks.keys())] *)
Definition sorted_keys (decoded : gmap (Z * Z) (list bool)) : list (Z * Z) :=
  merge_sort key_le (elements (dom decoded)).

(** The bit stream that [decode_oligos_from_csv] reassembles. *)
Definition reassemble (decoded : gmap (Z * Z) (list bool)) (total_file_size : Z)
    : list bool :=
  let reconstructed_bitstream :=
    concat ((fun key => decoded !!! key) <$> sorted_keys decoded) in
  if bool_decide (total_file_size > 0)
  then take (Z.to_nat (total_file_size * 8)) reconstructed_bitstream
  else reconstructed_bitstream.

(** What [decode_oligos_from_csv] returns and does: the returned
    [(decoded_blocks, block_info)], the errors it prints, and the bytes it
    writes to [output_file], if it writes. *)
Record decoded : Type := Decoded {
  result_blocks : gmap (Z * Z) (list bool);
  result_info : block_info;
  result_errors : list error;
  written : option (list Z)
}.

Definition decode_oligos_from_csv (rows : list csv_row)
    (forward_primer reverse_primer : list ascii) (output_file : bool) : decoded :=
  let st := row_loop forward_primer reverse_primer initial 2 rows in
  let i := info st in
  let block_info :=
    BlockInfo (block_size_bytes i) (size (block_indices st)) (total_file_size i)
      (actual_block_sizes i) (stats i) in
  let decoded_blocks := decoded_blocks st in
  let output :=
    if output_file && negb (bool_decide (decoded_blocks = ∅)) then
      let reconstructed_bitstream :=
        reassemble decoded_blocks (total_file_size block_info) in
      let bit_length := length reconstructed_bitstream in
      let byte_length := (bit_length / 8)%nat in
      if (0 <? byte_length)%nat then
        Some (to_bytes byte_length
                (int2 (take (byte_length * 8) reconstructed_bitstream)))
      else None
    else None in
  Decoded decoded_blocks block_info (errors st) output.

(** The sequence lines of a FASTQ file given as its lines: the lines whose
    number, from 1, is 2 modulo 4, each stripped.  [line_count] is the
    number of lines read so far. *)
Fixpoint fastq_sequences (line_count : nat) (lines : list (list ascii))
    : list (list ascii) :=
  match lines with
  | [] => []
  | line :: rest =>
      let line_count := S line_count in
      if (line_count mod 4 =? 2)%nat
      then strip line :: fastq_sequences line_count rest
      else fastq_sequences line_count rest
  end.

Section Sequences.
Variables forward_primer reverse_primer : list ascii.

(** The body of [for seq in sequences] of [decode_oligos_from_fastq], on the
    segment map and the checksum statistics: a sequence that cannot be
    processed is skipped without a trace, and every segment goes to
    block 0. *)
Definition process_sequence (st : gmap (Z * Z) (list bool) * crc_stats)
    (seq : list ascii) : gmap (Z * Z) (list bool) * crc_stats :=
  let '(decoded_blocks, s) := st in
  match extract_oligo_parts seq forward_primer reverse_primer with
  | None => st
  | Some (address_dna, data_dna, crc32_dna) =>
      match decode_dna_to_bits address_dna, decode_dna_to_bits data_dna with
      | Some address_bits, Some data_bits =>
          let block_index := 0 in
          if (32 <=? length crc32_dna)%nat then
            match decode_dna_to_bits (take 32 crc32_dna) with
            | Some crc32_bits =>
                if verify_crc32_checksum data_bits crc32_bits then
                  (<[(block_index, int2 address_bits) := data_bits]> decoded_blocks,
                   CrcStats (S (valid s)) (invalid s) (missing s))
                else (decoded_blocks, CrcStats (valid s) (S (invalid s)) (missing s))
            | None => st
            end
          else
            (<[(block_index, int2 address_bits) := data_bits]> decoded_blocks,
             CrcStats (valid s) (invalid s) (S (missing s)))
      | _, _ => st
      end
  end.

End Sequences.

(** [decode_oligos_from_fastq], on the lines of the FASTQ file.  The
    function keeps no list of errors; the total file size is estimated from
    what was decoded, and the output is not trimmed. *)
Definition decode_oligos_from_fastq (fastq_file : list (list ascii))
    (forward_primer reverse_primer : list ascii) (output_file : bool) : decoded :=
  let sequences := fastq_sequences 0 fastq_file in
  let '(decoded_blocks, s) :=
    foldl (process_sequence forward_primer reverse_primer)
      (∅, CrcStats 0 0 0) sequences in
  let block_indices : gset Z := list_to_set (fst <$> elements (dom decoded_blocks)) in
  let total_file_size :=
    if bool_decide (decoded_blocks = ∅) then 0
    else Z.of_nat (sum_list (length <$> (map_to_list decoded_blocks).*2) / 8) in
  let block_info := BlockInfo 0 (size block_indices) total_file_size ∅ s in
  let output :=
    if output_file && negb (bool_decide (decoded_blocks = ∅)) then
      let reconstructed_bitstream :=
        concat ((fun key => decoded_blocks !!! key) <$> sorted_keys decoded_blocks) in
      let bit_length := length reconstructed_bitstream in
      let byte_length := (bit_length / 8)%nat in
      if (0 <? byte_length)%nat then
        Some (to_bytes byte_length
                (int2 (take (byte_length * 8) reconstructed_bitstream)))
      else None
    else None in
  Decoded decoded_blocks block_info [] output.

(** [bitstream_to_bytes]: the whole bytes of a bit stream. *)
Definition bitstream_to_bytes (bitstream : list bool) : list Z :=
  let bit_length := length bitstream in
  let byte_length := (bit_length / 8)%nat in
  if (byte_length =? 0)%nat then []
  else to_bytes byte_length (int2 (take (byte_length * 8) bitstream)).

End Decoder.

(** ** church_interface.py: decoding and reconstruction of [MolFSDev] *)

Module Interface.
Import Decoder.

(** The fields of a [MolFSDev] object that decoding and reconstruction use.
    [temp_dir] holds the files [block_<n>.bin] of the object's temporary
    directory, under the number [n] in their name. *)
Record MolFSDev : Type := Dev {
  Pool : Z;
  Block : Z;
  ValidDecode : bool;
  dev_block_size_bytes : Z;
  primer_registry : gmap (Z * Z) (list ascii * list ascii);
  temp_dir : gmap Z (list Z)
}.

Definition get_primers (self : MolFSDev) (pool block : Z)
    : list ascii * list ascii :=
  match primer_registry self !! (pool, block) with
  | Some primers => primers
  | None => (Encoder.DEFAULT_FORWARD_PRIMER, Encoder.DEFAULT_REVERSE_PRIMER)
  end.

(** [decode] on a CSV file with the given rows; [out_file] is the number of
    the temporary file to write.  Returns the updated object and the
    [(success, block_info)] pair, [None] standing for the empty dict. *)
Definition decode (self : MolFSDev) (in_file : list csv_row) (out_file : Z)
    : MolFSDev * (bool * option block_info) :=
  let '(forward_primer, reverse_primer) :=
    get_primers self (Pool self) (Block self) in
  let d := decode_oligos_from_csv in_file forward_primer reverse_primer true in
  let temp_dir :=
    match written d with
    | Some byte_data => <[out_file := byte_data]> (temp_dir self)
    | None => temp_dir self
    end in
  if negb (bool_decide (result_blocks d = ∅)) then
    let size :=
      if bool_decide (block_size_bytes (result_info d) > 0)
      then block_size_bytes (result_info d) else dev_block_size_bytes self in
    (Dev (Pool self) (Block self) true size (primer_registry self) temp_dir,
     (true, Some (result_info d)))
  else
    (Dev (Pool self) (Block self) false (dev_block_size_bytes self)
       (primer_registry self) temp_dir,
     (false, None)).

(** A block file handed to [reconstruct_file]: the pool and block numbers
    read off its name [pool<X>_block<Y>.csv] (both -1 when the name does not
    have that form) and its rows. *)
Record block_file : Type := BlockFile {
  file_pool : Z;
  file_block : Z;
  file_rows : list csv_row
}.

(** An entry of [blocks_by_index]: [{"file": ..., "info": ...}]. *)
Record block_entry : Type := BlockEntry {
  entry_file : Z;
  entry_info : block_info
}.

Record file_info : Type := FileInfo {
  total_blocks : nat;
  total_bytes : nat;
  pools_used : gset Z
}.

(** The loop [for csv_file in block_files] of [reconstruct_file]. *)
Fixpoint collect (self : MolFSDev) (blocks_by_index : gmap Z block_entry)
    (pools : gset Z) (block_files : list block_file)
    : MolFSDev * gmap Z block_entry * gset Z :=
  match block_files with
  | [] => (self, blocks_by_index, pools)
  | csv_file :: rest =>
      let pool_idx := file_pool csv_file in
      let block_idx := file_block csv_file in
      let self :=
        Dev pool_idx block_idx (ValidDecode self) (dev_block_size_bytes self)
          (primer_registry self) (temp_dir self) in
      let temp_out_file := block_idx in
      let '(self, (success, block_info)) :=
        decode self (file_rows csv_file) temp_out_file in
      match success, block_info with
      | true, Some block_info =>
          let pools := {[pool_idx]} ∪ pools in
          match blocks_by_index !! block_idx with
          | Some existing_block =>
              if (valid (stats (entry_info existing_block))
                  <? valid (stats block_info))%nat
              then collect self
                     (<[block_idx := BlockEntry temp_out_file block_info]>
                        blocks_by_index) pools rest
              else collect self blocks_by_index pools rest
          | None =>
              collect self
                (<[block_idx := BlockEntry temp_out_file block_info]>
                   blocks_by_index) pools rest
          end
      | _, _ => collect self blocks_by_index pools rest
      end
  end.

(** [max(blocks_by_index.keys()) if blocks_by_index else -1] *)
Definition max_block_idx (blocks_by_index : gmap Z block_entry) : Z :=
  match elements (dom blocks_by_index) with
  | [] => -1
  | k :: ks => foldr Z.max k ks
  end.

(** The loop that copies the block files into the output file, which is
    open for writing: [out] is what has been written so far.  Opening a
    block file that does not exist raises, leaving [out] behind. *)
Fixpoint combine (temp_dir : gmap Z (list Z)) (blocks_by_index : gmap Z block_entry)
    (idxs : list Z) (out : list Z) : list Z * option exn :=
  match idxs with
  | [] => (out, None)
  | block_idx :: rest =>
      match blocks_by_index !! block_idx with
      | Some block_data =>
          match temp_dir !! entry_file block_data with
          | Some data => combine temp_dir blocks_by_index rest (out ++ data)
          | None => (out, Some FileNotFoundError)
          end
      | None => (out, Some KeyError)
      end
  end.

(** How [reconstruct_file] ends. *)
Inductive outcome : Type :=
  (** returned [(True, file_info)]; [output] is the content of the output
      file *)
  | Reconstructed (info : file_info) (output : list Z)
  (** returned [(False, file_info)] after printing the indices it has and
      the range it expected; the output file was not opened *)
  | MissingBlocks (info : file_info) (have : list Z) (expected_max : Z)
  (** an exception escaped while the output file was being written *)
  | Crashed (e : exn) (partial_output : list Z).

Definition reconstruct_file (self : MolFSDev) (block_files : list block_file)
    : MolFSDev * outcome :=
  let '(self, blocks_by_index, pools) := collect self ∅ ∅ block_files in
  let total := size blocks_by_index in
  let max_block_idx := max_block_idx blocks_by_index in
  if bool_decide (max_block_idx >= 0)
     && forallb (fun i => bool_decide (is_Some (blocks_by_index !! i)))
          (seqZ 0 (max_block_idx + 1))
  then
    match combine (temp_dir self) blocks_by_index (seqZ 0 (max_block_idx + 1)) [] with
    | (out, None) => (self, Reconstructed (FileInfo total (length out) pools) out)
    | (out, Some e) => (self, Crashed e out)
    end
  else
    (self,
     MissingBlocks (FileInfo total 0 pools)
       (merge_sort Z.le (elements (dom blocks_by_index))) max_block_idx).

(** The content of the output file after the call, when the call touched
    it. *)
Definition output_written (o : outcome) : option (list Z) :=
  match o with
  | Reconstructed _ out => Some out
  | MissingBlocks _ _ _ => None
  | Crashed _ out => Some out
  end.

Definition succeeded (o : outcome) : bool :=
  match o with Reconstructed _ _ => true | _ => false end.

(** The block indices named in the message printed on failure. *)
Definition reported_indices (o : outcome) : list Z :=
  match o with
  | MissingBlocks _ have _ => have
  | _ => []
  end.

(** *** Configuration *)

Definition set_block_size (self : MolFSDev) (size_bytes : Z) : MolFSDev :=
  Dev (Pool self) (Block self) (ValidDecode self) size_bytes
    (primer_registry self) (temp_dir self).

Definition register_primers (self : MolFSDev) (pool block : Z)
    (forward_primer reverse_primer : list ascii) : MolFSDev :=
  let key := (pool, block) in
  Dev (Pool self) (Block self) (ValidDecode self) (dev_block_size_bytes self)
    (<[key := (forward_primer, reverse_primer)]> (primer_registry self))
    (temp_dir self).

Definition getPrimerPair (self : MolFSDev) (cPool cBlock : Z)
    : list ascii * list ascii :=
  get_primers self cPool cBlock.

(** *** Encoding

    The block size is a number of bytes: where a method reads
    [self.block_size_bytes] as a length, the embedding takes it as a natural
    number.  [set_block_size] accepts a negative size, for which the code
    reads the whole file ([f.read] of a negative length) and divides by a
    negative number; the definitions below do not follow the code there
    (they treat such a size as 0), and every statement about them assumes a
    size of 0 or more. *)

(** The block information returned by [encode_block]:
    [{"block_index": ..., "pool": ..., "block_size": ..., "num_oligos": ...}]. *)
Record block_result : Type := BlockResult {
  info_block_index : Z;
  info_pool : Z;
  info_block_size : nat;
  info_num_oligos : nat
}.

(** [encode_block], on the content [in_file] of the input file, with the
    outcomes [rnd] of the random choices of this call.  Returns the updated
    object, the [(success, block_info)] pair ([None] for the empty dict) and
    the rows written to [out_file], if the file is written.  The temporary
    file [temp_block_<n>.bin] is removed before the method returns. *)
Definition encode_block (rnd : nat -> bool) (self : MolFSDev) (in_file : list Z)
    (block_index : Z) (start_offset : nat) (block_length : option nat)
    : MolFSDev * (bool * option block_result) * option (list csv_row) :=
  let block_length :=
    default (Z.to_nat (dev_block_size_bytes self)) block_length in
  let block_data := take block_length (drop start_offset in_file) in
  let self :=
    Dev (Pool self) block_index (ValidDecode self) (dev_block_size_bytes self)
      (primer_registry self) (temp_dir self) in
  let '(forward_primer, reverse_primer) :=
    get_primers self (Pool self) (Block self) in
  match Encoder.encode_file_to_dna rnd block_data (Some forward_primer)
          (Some reverse_primer) false (100 * 1024) block_length with
  | Ok e =>
      (self,
       (true,
        Some (BlockResult block_index (Pool self) (length block_data)
                (Encoder.num_oligos e))),
       Some (Encoder.csv_rows e))
  | Raise _ => (self, (false, None), None)
  end.

(** [encode], the legacy method: returns [(success, number of blocks)]. *)
Definition encode (rnd : nat -> bool) (self : MolFSDev) (in_file : list Z)
    : MolFSDev * (bool * Z) * option (list csv_row) :=
  let '(self, (success, block_info), out_file) :=
    encode_block rnd self in_file 0 0 None in
  if success then (self, (true, 1), out_file) else (self, (false, 0), out_file).

Section EncodeFile.

(** The outcomes of the random choices: [rnds n] is the sequence used by
    the call number [n] of [encode_block]. *)
Variable rnds : nat -> nat -> bool.
Variable in_file : list Z.

(** The loop [for pool_idx in target_pools] of [encode_file].  The value
    kept in [block_distribution] under [(pool_idx, block_idx)] is the content
    of the file [pool<pool_idx>_block<block_idx>.csv] together with the block
    information. *)
Fixpoint encode_pools (self : MolFSDev) (call : nat) (block_idx : nat)
    (start_offset block_length : nat) (target_pools : list Z)
    (block_distribution : gmap (Z * Z) (list csv_row * block_result))
    : MolFSDev * nat * gmap (Z * Z) (list csv_row * block_result) :=
  match target_pools with
  | [] => (self, call, block_distribution)
  | pool_idx :: rest =>
      let self :=
        Dev pool_idx (Block self) (ValidDecode self) (dev_block_size_bytes self)
          (primer_registry self) (temp_dir self) in
      let '(self, (success, block_info), out_file) :=
        encode_block (rnds call) self in_file (Z.of_nat block_idx) start_offset
          (Some block_length) in
      let block_distribution :=
        match success, block_info, out_file with
        | true, Some block_info, Some rows =>
            <[(pool_idx, Z.of_nat block_idx) := (rows, block_info)]>
              block_distribution
        | _, _, _ => block_distribution
        end in
      encode_pools self (S call) block_idx start_offset block_length rest
        block_distribution
  end.

(** The loop [for block_idx in range(total_blocks)] of [encode_file]. *)
Fixpoint encode_blocks (self : MolFSDev) (call : nat)
    (block_size_bytes total_blocks : nat)
    (distribution_strategy : Z -> Z -> list Z) (block_idxs : list nat)
    (block_distribution : gmap (Z * Z) (list csv_row * block_result))
    : MolFSDev * gmap (Z * Z) (list csv_row * block_result) :=
  match block_idxs with
  | [] => (self, block_distribution)
  | block_idx :: rest =>
      let file_size := length in_file in
      let start_offset := (block_idx * block_size_bytes)%nat in
      let block_length := (block_size_bytes `min` (file_size - start_offset))%nat in
      let target_pools :=
        distribution_strategy (Z.of_nat block_idx) (Z.of_nat total_blocks) in
      let '(self, call, block_distribution) :=
        encode_pools self call block_idx start_offset block_length target_pools
          block_distribution in
      encode_blocks self call block_size_bytes total_blocks
        distribution_strategy rest block_distribution
  end.

(** [encode_file]: the division by a zero block size is not caught. *)
Definition encode_file (self : MolFSDev)
    (distribution_strategy : option (Z -> Z -> list Z))
    : result (MolFSDev * gmap (Z * Z) (list csv_row * block_result)) :=
  let file_size := length in_file in
  let block_size_bytes := Z.to_nat (dev_block_size_bytes self) in
  if (block_size_bytes =? 0)%nat then Raise ZeroDivisionError
  else
    let total_blocks :=
      ((file_size + block_size_bytes - 1) / block_size_bytes)%nat in
    let distribution_strategy :=
      default (fun block_idx total => [block_idx `mod` 3 + 1])
        distribution_strategy in
    Ok (encode_blocks self 0 block_size_bytes total_blocks
          distribution_strategy (seq 0 total_blocks) ∅).

End EncodeFile.

(** *** Classification of sequences *)

(** [s[:-n]]: [s] without its last [n] elements; for [n = 0] this is the
    slice [s[:0]], which is empty. *)
Definition drop_end {A : Type} (n : nat) (s : list A) : list A :=
  if (n =? 0)%nat then [] else take (length s - n) s.

Definition FilterSequence (self : MolFSDev) (sequence : list ascii) : list ascii :=
  let '(forward_primer, reverse_primer) :=
    get_primers self (Pool self) (Block self) in
  let sequence :=
    if bool_decide (forward_primer <> [])
       && bool_decide (forward_primer `prefix_of` sequence)
    then drop (length forward_primer) sequence else sequence in
  let sequence :=
    if bool_decide (reverse_primer <> [])
       && bool_decide (reverse_primer `suffix_of` sequence)
    then drop_end (length reverse_primer) sequence else sequence in
  sequence.

(** The loop of [ClassifySequence] over [self.primer_registry.items()],
    which Python runs through in the order in which the keys were first
    registered: [items] is that list. *)
Fixpoint classify_registered
    (items : list ((Z * Z) * (list ascii * list ascii)))
    (sequence : list ascii) : option (Z * Z * list ascii) :=
  match items with
  | [] => None
  | ((pool, block), (forward_primer, reverse_primer)) :: rest =>
      if bool_decide (forward_primer `prefix_of` sequence) then
        let oSeq := drop (length forward_primer) sequence in
        let oSeq :=
          if bool_decide (reverse_primer `suffix_of` oSeq)
          then drop_end (length reverse_primer) oSeq else oSeq in
        Some (pool, block, oSeq)
      else classify_registered rest sequence
  end.

(** [ClassifySequence]; [items] is [self.primer_registry.items()]. *)
Definition ClassifySequence (self : MolFSDev)
    (items : list ((Z * Z) * (list ascii * list ascii)))
    (sequence : list ascii) : MolFSDev * (Z * Z * list ascii) :=
  match classify_registered items sequence with
  | Some (cPool, cBlock, oSeq) =>
      (Dev cPool cBlock (ValidDecode self) (dev_block_size_bytes self)
         (primer_registry self) (temp_dir self),
       (cPool, cBlock, oSeq))
  | None =>
      let oSeq := sequence in
      let oSeq :=
        if bool_decide (Encoder.DEFAULT_FORWARD_PRIMER `prefix_of` sequence) then
          let oSeq := drop (length Encoder.DEFAULT_FORWARD_PRIMER) sequence in
          if bool_decide (Encoder.DEFAULT_REVERSE_PRIMER `suffix_of` oSeq)
          then drop_end (length Encoder.DEFAULT_REVERSE_PRIMER) oSeq else oSeq
        else oSeq in
      (self, (-1, -1, oSeq))
  end.

(** [ClassifyByAddress]: [(address_int, address_bits, filtered_sequence)];
    a symbol outside the alphabet among the first 19 raises KeyError. *)
Definition ClassifyByAddress (self : MolFSDev) (sequence : list ascii)
    : result (Z * list bool * list ascii) :=
  let '(forward_primer, reverse_primer) :=
    get_primers self (Pool self) (Block self) in
  let core_sequence := sequence in
  let core_sequence :=
    if bool_decide (forward_primer <> [])
       && bool_decide (forward_primer `prefix_of` sequence)
    then drop (length forward_primer) core_sequence else core_sequence in
  let core_sequence :=
    if bool_decide (reverse_primer <> [])
       && bool_decide (reverse_primer `suffix_of` core_sequence)
    then drop_end (length reverse_primer) core_sequence else core_sequence in
  if (19 <=? length core_sequence)%nat then
    let address_dna := take 19 core_sequence in
    match decode_dna_to_bits address_dna with
    | Some address_bits =>
        let address_int := PyBits.int2 address_bits in
        Ok (address_int, address_bits, core_sequence)
    | None => Raise KeyError
    end
  else Ok (-1, [], core_sequence).

End Interface.

(** ** Vocabulary of the properties *)

Module Spec.
Import PyBits Encoder Decoder.

(** A run of [n] identical consecutive symbols somewhere in [dna]. *)
Definition homopolymer_run (n : nat) (dna : list ascii) : Prop :=
  exists (before : list ascii) (base : ascii) (after : list ascii),
    dna = before ++ replicate n base ++ after.

(** The same for [n = 4], as a test. *)
Fixpoint has_run4 (dna : list ascii) : bool :=
  match dna with
  | a :: rest =>
      match rest with
      | b :: c :: d :: _ =>
          (Ascii.eqb a b && Ascii.eqb b c && Ascii.eqb c d) || has_run4 rest
      | _ => false
      end
  | [] => false
  end.

(** [oligo] is the text of one segment: the flanks around an address
    region, a payload region and a checksum region, each of them an output
    of [encode_bits_to_dna] started on an empty window. *)
Definition framed (rnd : nat -> bool) (forward_primer reverse_primer : list ascii)
    (address_bits data_bits crc32_bits : list bool) (oligo : list ascii) : Prop :=
  exists p1 p2 p3 : nat,
    oligo = forward_primer
            ++ (encode_bits_to_dna rnd p1 address_bits []
                ++ encode_bits_to_dna rnd p2 data_bits []
                ++ encode_bits_to_dna rnd p3 crc32_bits [])
            ++ reverse_primer.

(** The segment with index [j] (from 0) of a bit string cut every [step]
    bits: its address and its payload. *)
Definition segment_address (j : nat) : Z := Z.of_nat (S j).

Definition segment_payload (bits : list bool) (step j : nat) : list bool :=
  ljust 96 (slice (j * step) (j * step + step) bits).

(** An element of the list returned by [bits_to_dna_with_crc32] is the
    segment with index [j]. *)
Definition is_segment (rnd : nat -> bool) (bits : list bool)
    (forward_primer reverse_primer : list ascii) (segment_length : nat)
    (j : nat) (o : oligo_details) : Prop :=
  address_bits o = format_b 19 (segment_address j)
  /\ data_bits o = segment_payload bits (segment_length * 8) j
  /\ crc32_checksum_bits o = calculate_crc32_checksum (data_bits o)
  /\ framed rnd forward_primer reverse_primer (address_bits o) (data_bits o)
       (crc32_checksum_bits o) (complete_oligo o).

(** The bits of block [k] of a file cut into blocks of [block_size_bytes]
    bytes, and its size in bytes. *)
Definition block_bits (bits : list bool) (block_size_bytes k : nat) : list bool :=
  slice (k * block_size_bytes * 8)
    ((k * block_size_bytes * 8 + block_size_bytes * 8) `min` length bits) bits.

Definition block_bytes (bits : list bool) (block_size_bytes k : nat) : nat :=
  ((length (block_bits bits block_size_bytes k) + 7) / 8)%nat.

(** The number of 12-byte segments of a block of [actual_bytes] bytes. *)
Definition segments_of (actual_bytes : nat) : nat := ((actual_bytes + 11) / 12)%nat.

(** A row of the CSV file is segment [j] of block [k]. *)
Definition is_row (rnd : nat -> bool) (bits : list bool)
    (forward_primer reverse_primer : list ascii)
    (block_size_bytes total_data_size : nat) (k j : nat) (row : csv_row) : Prop :=
  col_block_index row = Some (Z.of_nat k)
  /\ col_address row = format_b 19 (segment_address j)
  /\ col_data_bits row = segment_payload (block_bits bits block_size_bytes k) 96 j
  /\ col_crc32 row = calculate_crc32_checksum (col_data_bits row)
  /\ framed rnd forward_primer reverse_primer (col_address row)
       (col_data_bits row) (col_crc32 row) (col_oligo row)
  /\ col_block_size row = Some (Z.of_nat block_size_bytes)
  /\ col_actual_block_size row
     = Some (Z.of_nat (block_bytes bits block_size_bytes k))
  /\ col_total_file_size row = Some (Z.of_nat total_data_size).

(** The (block, segment) indices of the rows of a file, in file order. *)
Definition block_layout (bits : list bool) (block_size_bytes k : nat)
    : list (nat * nat) :=
  (fun j => (k, j)) <$> seq 0 (segments_of (block_bytes bits block_size_bytes k)).

Definition file_layout (bits : list bool) (block_size_bytes : nat)
    (blocks : list nat) : list (nat * nat) :=
  concat (block_layout bits block_size_bytes <$> blocks).

(** The bit fields that the decoder recovers from a row: the address and
    payload bits and the symbols of the checksum region; [None] when the
    oligo is too short to unframe or holds a symbol outside the alphabet in
    its address or payload region. *)
Definition row_fields (forward_primer reverse_primer : list ascii)
    (row : csv_row) : option (list bool * list bool * list ascii) :=
  match extract_oligo_parts (strip (col_oligo row)) forward_primer
          reverse_primer with
  | Some (address_dna, data_dna, crc32_dna) =>
      match decode_dna_to_bits address_dna, decode_dna_to_bits data_dna with
      | Some address_bits, Some data_bits =>
          Some (address_bits, data_bits, crc32_dna)
      | _, _ => None
      end
  | None => None
  end.

(** The class of a record in a batch decode: [Valid] when the checksum
    recomputed from the payload equals the decoded checksum field, [Invalid]
    when it differs, [Missing] when the checksum region has fewer than 32
    symbols, [NoSegment] when no segment could be read from the record. *)
Inductive verdict : Type := NoSegment | Valid | Invalid | Missing.

Global Instance verdict_eq_dec : EqDecision verdict.
Proof. solve_decision. Defined.

Definition checksum_verdict (forward_primer reverse_primer : list ascii)
    (row : csv_row) : verdict :=
  match row_fields forward_primer reverse_primer row with
  | Some (address_bits, data_bits, crc32_dna) =>
      if (32 <=? length crc32_dna)%nat then
        match decode_dna_to_bits (take 32 crc32_dna) with
        | Some crc32_bits =>
            if bool_decide (calculate_crc32_checksum data_bits = crc32_bits)
            then Valid else Invalid
        | None => NoSegment
        end
      else Missing
  | None => NoSegment
  end.

(** What a record contributes to the decoded segment map: its payload under
    the key (block index, address), when it is valid or lacks a checksum. *)
Definition contribution (forward_primer reverse_primer : list ascii)
    (row : csv_row) : option ((Z * Z) * list bool) :=
  match checksum_verdict forward_primer reverse_primer row,
        row_fields forward_primer reverse_primer row with
  | (Valid | Missing), Some (address_bits, data_bits, _) =>
      Some ((default 0 (col_block_index row), int2 address_bits), data_bits)
  | _, _ => None
  end.

Definition contribute (forward_primer reverse_primer : list ascii)
    (m : gmap (Z * Z) (list bool)) (row : csv_row) : gmap (Z * Z) (list bool) :=
  match contribution forward_primer reverse_primer row with
  | Some (key, data_bits) => <[key := data_bits]> m
  | None => m
  end.

(** The number of records of a class. *)
Definition count (forward_primer reverse_primer : list ascii) (v : verdict)
    (rows : list csv_row) : nat :=
  length (filter (fun row => checksum_verdict forward_primer reverse_primer row = v)
            rows).

Definition tally (v : verdict) (s : crc_stats) : crc_stats :=
  match v with
  | NoSegment => s
  | Valid => CrcStats (S (valid s)) (invalid s) (missing s)
  | Invalid => CrcStats (valid s) (S (invalid s)) (missing s)
  | Missing => CrcStats (valid s) (invalid s) (S (missing s))
  end.

(** Chunk [k] of a list cut every [w] elements, and a bit string padded
    with zeros up to a whole number of 96-bit payloads. *)
Definition chunk {A : Type} (w : nat) (l : list A) (k : nat) : list A :=
  take w (drop (k * w) l).

Definition padded (bits : list bool) : list bool :=
  bits ++ replicate (96 * ((length bits + 95) / 96) - length bits)%nat false.

(** The key and the payload that the decoder stores for an entry of the
    layout. *)
Definition layout_key (kj : nat * nat) : Z * Z :=
  (Z.of_nat kj.1, segment_address kj.2).

Definition layout_payload (bits : list bool) (block_size_bytes : nat)
    (kj : nat * nat) : list bool :=
  segment_payload (block_bits bits block_size_bytes kj.1) 96 kj.2.

Definition layout_entry (bits : list bool) (block_size_bytes : nat)
    (kj : nat * nat) : (Z * Z) * list bool :=
  (layout_key kj, layout_payload bits block_size_bytes kj).

(** The strict version of the order on keys. *)
Definition key_lt (k1 k2 : Z * Z) : Prop :=
  (k1.1 < k2.1)%Z \/ (k1.1 = k2.1 /\ (k1.2 < k2.2)%Z).

(** The addresses decoded for block [k], in increasing order. *)
Definition decoded_addresses (decoded : gmap (Z * Z) (list bool)) (k : Z)
    : list Z :=
  snd <$> filter (fun key => key.1 = k) (sorted_keys decoded).

(** The image in the CRC register of each single-bit error pattern of a
    12-byte message. *)
Definition single_bit_syndromes : list Z :=
  (fun i => Zlib.crc32_raw 0 (to_bytes 12 (2 ^ Z.of_nat (95 - i))))
    <$> seq 0 96.

(** The size of a block of 524288 segments, one more than the 19-bit
    address field can number. *)
Definition overflow_size : nat := Z.to_nat 6291456.

(** The size of a block of 524289 segments, more than a 19-bit address
    field can tell apart. *)
Definition oversize : nat := Z.to_nat 6291468.

(** The primers do not begin, respectively end, with a character that
    [str.strip()] removes. *)
Definition clean_primers (forward_primer reverse_primer : list ascii) : Prop :=
  (forall c, head forward_primer = Some c -> is_space c = false)
  /\ (forall c, last reverse_primer = Some c -> is_space c = false).

End Spec.

(** ** Sample data for the reconstruction properties *)

Module Samples.
Import PyBits Encoder Decoder Interface.

Local Open Scope char_scope.

(** A fresh [MolFSDev] object: no primers registered, an empty temporary
    directory. *)
Definition fresh_dev : MolFSDev := Dev 0 0 false 5120 ∅ ∅.

(** The 36 bytes 1, 2, ..., 36: one block of three segments. *)
Definition sample_bytes : list Z := seqZ 1 36.

(** The rows of the CSV file that [encode_file_to_dna] writes for
    [sample_bytes] as a single block with the default primers, the first
    synonym being drawn every time. *)
Definition copy_a : list csv_row :=
  match encode_file_to_dna (fun _ => false) sample_bytes None None false 0 36 with
  | Ok e => csv_rows e
  | Raise _ => []
  end.

(** The temporary file of every collected block exists under the number of
    the block. *)
Definition files_present (self : MolFSDev) (blocks_by_index : gmap Z block_entry)
    : Prop :=
  forall i entry, blocks_by_index !! i = Some entry ->
    entry_file entry = i /\ is_Some (temp_dir self !! i).

(** A read error that turns a symbol into one of the other bit class. *)
Definition misread (base : ascii) : ascii :=
  match base with
  | "A" => "G"
  | "C" => "T"
  | "G" => "A"
  | "T" => "C"
  | _ => base
  end.

(** The row with symbol 60 of its oligo, a payload symbol, misread. *)
Definition damage (row : csv_row) : csv_row :=
  CsvRow (col_block_index row) (col_address row) (col_data_bits row)
    (col_crc32 row) (alter misread 60%nat (col_oligo row))
    (col_block_size row) (col_actual_block_size row) (col_total_file_size row).

(** A second copy of the same block in which only the first segment
    survived. *)
Definition copy_b : list csv_row :=
  match copy_a with
  | row :: rows => row :: (damage <$> rows)
  | [] => []
  end.

End Samples.

(** ** Further vocabulary *)

Module Terms.
Import PyBits Encoder Decoder Interface Spec.

Local Open Scope nat_scope.

(** The image in the CRC register of the error pattern [e] of a 12-byte
    message. *)
Definition syndrome (e : Z) : Z := Zlib.crc32_raw 0 (to_bytes 12 e).

(** No two, respectively three, of the first 96 elements of [l] cancel
    out. *)
Definition pairs_detected (l : list Z) : bool :=
  forallb (fun i =>
    forallb (fun j => negb (Z.lxor (nth i l 0%Z) (nth j l 0%Z) =? 0)%Z)
      (seq (S i) (95 - i)))
    (seq 0 96).

Definition triples_detected (l : list Z) : bool :=
  forallb (fun i =>
    forallb (fun j =>
      forallb (fun k =>
        negb (Z.lxor (Z.lxor (nth i l 0%Z) (nth j l 0%Z)) (nth k l 0%Z) =? 0)%Z)
        (seq (S j) (95 - j)))
      (seq (S i) (95 - i)))
    (seq 0 96).

(** The row in which symbol [p] of the core of the oligo, counted after the
    forward primer, has been read as [base]. *)
Definition misread_at (forward_primer : list ascii) (p : nat) (base : ascii)
    (row : csv_row) : csv_row :=
  CsvRow (col_block_index row) (col_address row) (col_data_bits row)
    (col_crc32 row)
    (<[length forward_primer + p := base]> (col_oligo row))
    (col_block_size row) (col_actual_block_size row)
    (col_total_file_size row).

(** A row of a CSV file that has the DNA Oligo column and none of the block
    columns (the columns that the decoder does not read are left empty). *)
Definition bare_row (oligo : list ascii) : csv_row :=
  CsvRow None [] [] [] oligo None None None.

(** A primer pair that [encode_file_to_dna] accepts and that [str.strip()]
    leaves alone. *)
Definition good_primers (primers : list ascii * list ascii) : Prop :=
  (primers.1 = [] \/ length primers.1 = 22)
  /\ (primers.2 = [] \/ length primers.2 = 22)
  /\ clean_primers primers.1 primers.2.

(** A primer pair that [encode_file_to_dna] refuses: a primer that is
    neither empty nor 22 symbols long. *)
Definition bad_primers (primers : list ascii * list ascii) : Prop :=
  (primers.1 <> [] /\ length primers.1 <> 22)
  \/ (primers.2 <> [] /\ length primers.2 <> 22).

(** Block [k] of a file cut into blocks of [block_size_bytes] bytes. *)
Definition file_block_data (in_file : list Z) (block_size_bytes k : nat)
    : list Z :=
  take block_size_bytes (drop (k * block_size_bytes) in_file).

(** The block file [f] decodes, with the primers that [dev] has for its
    pool and block, to one of the [total] blocks of the file: the block of
    its index. *)
Definition decodes_to_block (dev : MolFSDev) (in_file : list Z)
    (block_size_bytes total : nat) (f : block_file) : Prop :=
  exists k,
    file_block f = Z.of_nat k /\ k < total
    /\ let primers := get_primers dev (file_pool f) (file_block f) in
       let d :=
         decode_oligos_from_csv (file_rows f) primers.1 primers.2 true in
       written d = Some (file_block_data in_file block_size_bytes k)
       /\ result_blocks d <> ∅.

(** Every block collected so far has its bytes in the temporary file of
    its index. *)
Definition stored (in_file : list Z) (block_size_bytes total : nat)
    (self : MolFSDev) (blocks_by_index : gmap Z block_entry) : Prop :=
  forall i entry, blocks_by_index !! i = Some entry ->
    entry_file entry = i
    /\ exists k,
         i = Z.of_nat k /\ k < total
         /\ temp_dir self !! i
            = Some (file_block_data in_file block_size_bytes k).

(** Every file of [block_distribution] decodes to the block of its index. *)
Definition distribution_decodes (dev : MolFSDev) (in_file : list Z)
    (block_size_bytes total : nat)
    (block_distribution : gmap (Z * Z) (list csv_row * block_result)) : Prop :=
  forall pool block rows info,
    block_distribution !! (pool, block) = Some (rows, info) ->
    decodes_to_block dev in_file block_size_bytes total
      (BlockFile pool block rows).

(** The pools that [encode_file] writes a block to: those of the strategy
    given, or of the round-robin over three pools. *)
Definition target_pools (distribution_strategy : option (Z -> Z -> list Z))
    (block_idx total : Z) : list Z :=
  default (fun block_idx total => [block_idx `mod` 3 + 1]%Z)
    distribution_strategy block_idx total.

End Terms.

(** * Properties *)

(** ** Facts about the integer and bit-string conversions *)

Module PyBitsFacts.
Import PyBits.

Lemma int2_fold (s : list bool) (acc : Z) :
  fold_left (fun acc b => 2 * acc + Z.b2z b) s acc
  = acc * 2 ^ Z.of_nat (length s) + int2 s.
Proof.
  unfold int2. revert acc.
  induction s as [|b s IH]; intros acc.
  - simpl. lia.
  - cbn [fold_left length]. rewrite IH, (IH (2 * 0 + Z.b2z b)).
    rewrite Nat2Z.inj_succ, Z.pow_succ_r by lia. lia.
Qed.

Lemma int2_nil : int2 [] = 0.
Proof. reflexivity. Qed.

Lemma int2_cons (b : bool) (s : list bool) :
  int2 (b :: s) = Z.b2z b * 2 ^ Z.of_nat (length s) + int2 s.
Proof.
  unfold int2 at 1. cbn [fold_left]. rewrite int2_fold. lia.
Qed.

Lemma int2_app (s1 s2 : list bool) :
  int2 (s1 ++ s2) = int2 s1 * 2 ^ Z.of_nat (length s2) + int2 s2.
Proof.
  unfold int2 at 1. rewrite fold_left_app.
  fold (int2 s1). apply int2_fold.
Qed.

Lemma int2_range (s : list bool) : 0 <= int2 s < 2 ^ Z.of_nat (length s).
Proof.
  induction s as [|b s IH].
  - rewrite int2_nil. simpl. lia.
  - rewrite int2_cons. cbn [length].
    rewrite Nat2Z.inj_succ, Z.pow_succ_r by lia.
    destruct b; simpl Z.b2z; lia.
Qed.

Lemma int2_replicate_false (n : nat) : int2 (replicate n false) = 0.
Proof.
  induction n as [|n IH]; [done|].
  cbn [replicate]. rewrite int2_cons, IH. simpl. lia.
Qed.

Lemma int2_pos_digits (p : positive) (acc : list bool) :
  int2 (pos_digits p acc) = Zpos p * 2 ^ Z.of_nat (length acc) + int2 acc.
Proof.
  revert acc. induction p as [p IH|p IH|]; intros acc; cbn [pos_digits].
  - rewrite IH, int2_cons. cbn [length].
    rewrite Nat2Z.inj_succ, Z.pow_succ_r by lia. simpl Z.b2z. lia.
  - rewrite IH, int2_cons. cbn [length].
    rewrite Nat2Z.inj_succ, Z.pow_succ_r by lia. simpl Z.b2z. lia.
  - rewrite int2_cons. simpl Z.b2z. lia.
Qed.

Lemma int2_bin (n : Z) : 0 <= n -> int2 (bin n) = n.
Proof.
  destruct n as [|p|p]; intros Hn; [done| |lia].
  unfold bin. rewrite int2_pos_digits, int2_nil. cbn [length].
  change (Z.of_nat 0) with 0. lia.
Qed.

Lemma int2_format_b (width : nat) (n : Z) : 0 <= n -> int2 (format_b width n) = n.
Proof.
  intros Hn. unfold format_b.
  rewrite int2_app, int2_replicate_false, int2_bin by done. lia.
Qed.

Lemma pos_digits_lower (p : positive) (acc : list bool) :
  2 ^ Z.of_nat (length (pos_digits p acc) - 1) <= int2 (pos_digits p acc).
Proof.
  revert acc. induction p as [p IH|p IH|]; intros acc; cbn [pos_digits].
  - apply IH.
  - apply IH.
  - rewrite int2_cons. cbn [length]. simpl Z.b2z.
    replace (S (length acc) - 1)%nat with (length acc) by lia.
    pose proof (int2_range acc). lia.
Qed.

Lemma length_bin_le (width : nat) (n : Z) :
  0 <= n < 2 ^ Z.of_nat width -> (0 < width)%nat -> (length (bin n) <= width)%nat.
Proof.
  intros [Hn Hlt] Hw. destruct n as [|p|p]; [simpl; lia| |lia].
  pose proof (pos_digits_lower p []) as Hlow.
  pose proof (int2_bin (Z.pos p) Hn) as Hval. unfold bin in *.
  rewrite Hval in Hlow.
  assert (Hpow : 2 ^ Z.of_nat (length (pos_digits p []) - 1) < 2 ^ Z.of_nat width)
    by lia.
  apply Z.pow_lt_mono_r_iff in Hpow; lia.
Qed.

Lemma length_format_b (width : nat) (n : Z) :
  0 <= n < 2 ^ Z.of_nat width -> (0 < width)%nat ->
  length (format_b width n) = width.
Proof.
  intros Hn Hw. pose proof (length_bin_le width n Hn Hw).
  unfold format_b. rewrite length_app, length_replicate. lia.
Qed.

Lemma length_format_b_ge (width : nat) (n : Z) :
  (width <= length (format_b width n))%nat.
Proof. unfold format_b. rewrite length_app, length_replicate. lia. Qed.

Lemma length_bin_gt (width : nat) (n : Z) :
  2 ^ Z.of_nat width <= n -> (width < length (bin n))%nat.
Proof.
  intros Hn. assert (0 <= n) as Hn0 by lia.
  pose proof (int2_range (bin n)) as Hr. rewrite int2_bin in Hr by done.
  assert (Hpow : 2 ^ Z.of_nat width < 2 ^ Z.of_nat (length (bin n))) by lia.
  apply Z.pow_lt_mono_r_iff in Hpow; lia.
Qed.

Lemma format_b_inj (width : nat) (n m : Z) :
  0 <= n -> 0 <= m -> format_b width n = format_b width m -> n = m.
Proof.
  intros Hn Hm Heq.
  rewrite <- (int2_format_b width n), <- (int2_format_b width m) by done.
  by rewrite Heq.
Qed.

Lemma length_ljust (width : nat) (s : list bool) :
  length (ljust width s) = (length s `max` width)%nat.
Proof. unfold ljust. rewrite length_app, length_replicate. lia. Qed.

Lemma length_to_bytes (len : nat) (n : Z) : length (to_bytes len n) = len.
Proof. induction len as [|len IH]; cbn [to_bytes length]; congruence. Qed.

(** [to_bytes len] only reads the low [8 * len] bits. *)
Lemma to_bytes_ext (len : nat) (n m : Z) :
  (forall i, 0 <= i < 8 * Z.of_nat len -> Z.testbit n i = Z.testbit m i) ->
  to_bytes len n = to_bytes len m.
Proof.
  induction len as [|len IH]; intros Hbits; [done|].
  cbn [to_bytes]. f_equal.
  - apply Z.bits_inj'. intros i Hi.
    rewrite !Z.land_spec, !Z.shiftr_spec by done.
    destruct (decide (i < 8)) as [Hlt|Hge].
    + rewrite Hbits by lia. done.
    + change 255 with (Z.ones 8).
      rewrite Z.ones_spec_high by lia. by rewrite !andb_false_r.
  - apply IH. intros i Hi. apply Hbits. lia.
Qed.

Lemma to_bytes_cons (len : nat) (b r : Z) :
  0 <= b < 256 -> 0 <= r < 2 ^ (8 * Z.of_nat len) ->
  to_bytes (S len) (b * 2 ^ (8 * Z.of_nat len) + r) = b :: to_bytes len r.
Proof.
  intros Hb Hr. cbn [to_bytes]. f_equal.
  - rewrite Z.shiftr_div_pow2 by lia.
    rewrite Z.div_add_l, Z.div_small by lia.
    change 255 with (Z.ones 8). rewrite Z.land_ones by lia.
    rewrite Z.add_0_r. apply Z.mod_small. lia.
  - apply to_bytes_ext. intros i Hi.
    rewrite <- (Z.mod_pow2_bits_low _ (8 * Z.of_nat len)) by lia.
    rewrite Z.add_comm, Z.mod_add by lia.
    rewrite Z.mod_pow2_bits_low by lia. done.
Qed.

Lemma length_bytes_to_bits (data : list Z) :
  Forall (fun b => 0 <= b < 256) data ->
  length (bytes_to_bits data) = (8 * length data)%nat.
Proof.
  unfold bytes_to_bits. induction 1 as [|b data Hb _ IH]; [done|].
  cbn [map concat length]. rewrite length_app, IH.
  rewrite (length_format_b 8 b) by (simpl; lia). lia.
Qed.

(** Reading a file as bits and writing the bits back as bytes. *)
Lemma to_bytes_bytes_to_bits (data : list Z) :
  Forall (fun b => 0 <= b < 256) data ->
  to_bytes (length data) (int2 (bytes_to_bits data)) = data.
Proof.
  induction 1 as [|b data Hb Hdata IH]; [done|].
  change (bytes_to_bits (b :: data)) with (format_b 8 b ++ bytes_to_bits data).
  rewrite int2_app, int2_format_b by lia.
  rewrite length_bytes_to_bits by done.
  cbn [length].
  replace (Z.of_nat (8 * length data)) with (8 * Z.of_nat (length data)) by lia.
  rewrite to_bytes_cons, IH; [done|done|].
  pose proof (int2_range (bytes_to_bits data)) as Hr.
  rewrite length_bytes_to_bits in Hr by done.
  replace (Z.of_nat (8 * length data)) with (8 * Z.of_nat (length data)) in Hr by lia.
  done.
Qed.

End PyBitsFacts.

(** ** Facts about CRC-32: it is affine over GF(2) and stays within 32 bits *)

Module ZlibFacts.
Import PyBits PyBitsFacts Zlib.

Lemma lxor_range (n a b : Z) :
  0 <= n -> 0 <= a < 2 ^ n -> 0 <= b < 2 ^ n -> 0 <= Z.lxor a b < 2 ^ n.
Proof.
  intros Hn Ha Hb. split; [apply Z.lxor_nonneg; lia|].
  destruct (decide (Z.lxor a b = 0)) as [->|Hne]; [lia|].
  assert (0 < Z.lxor a b) by (pose proof (proj2 (Z.lxor_nonneg a b)); lia).
  apply Z.log2_lt_pow2; [done|].
  pose proof (Z.log2_lxor a b ltac:(lia) ltac:(lia)) as Hlog.
  destruct (decide (a = 0)) as [->|Ha0], (decide (b = 0)) as [->|Hb0].
  - by rewrite Z.lxor_0_l in Hne.
  - rewrite Z.lxor_0_l. apply Z.log2_lt_pow2; lia.
  - rewrite Z.lxor_0_r. apply Z.log2_lt_pow2; lia.
  - assert (Z.log2 a < n) by (apply Z.log2_lt_pow2; lia).
    assert (Z.log2 b < n) by (apply Z.log2_lt_pow2; lia). lia.
Qed.

Lemma crc32_shift_range (c : Z) :
  0 <= c < 2 ^ 32 -> 0 <= crc32_shift c < 2 ^ 32.
Proof.
  intros Hc. unfold crc32_shift.
  assert (0 <= Z.shiftr c 1 < 2 ^ 32).
  { rewrite Z.shiftr_div_pow2 by lia. change (2 ^ 1) with 2.
    split; [apply Z.div_pos; lia|].
    apply Z.div_lt_upper_bound; lia. }
  destruct (Z.testbit c 0); [|done].
  apply lxor_range; [lia|done|]. unfold poly. lia.
Qed.

Lemma crc32_update_range (c b : Z) :
  0 <= c < 2 ^ 32 -> 0 <= b < 256 -> 0 <= crc32_update c b < 2 ^ 32.
Proof.
  intros Hc Hb. unfold crc32_update.
  assert (0 <= Z.lxor c b < 2 ^ 32) as Hx by (apply lxor_range; lia).
  generalize dependent (Z.lxor c b). intros x Hx.
  cbv [Nat.iter nat_rect]. do 8 apply crc32_shift_range. exact Hx.
Qed.

Lemma crc32_raw_range (init : Z) (data : list Z) :
  0 <= init < 2 ^ 32 -> Forall (fun b => 0 <= b < 256) data ->
  0 <= crc32_raw init data < 2 ^ 32.
Proof.
  intros Hinit Hdata. revert init Hinit.
  induction Hdata as [|b data Hb _ IH]; intros init Hinit; [done|].
  apply IH. by apply crc32_update_range.
Qed.

Lemma crc32_range (data : list Z) :
  Forall (fun b => 0 <= b < 256) data -> 0 <= crc32 data < 2 ^ 32.
Proof.
  intros Hdata. unfold crc32. apply lxor_range; [lia| |lia].
  apply crc32_raw_range; [lia|done].
Qed.

Lemma to_bytes_range (len : nat) (n : Z) :
  Forall (fun b => 0 <= b < 256) (to_bytes len n).
Proof.
  induction len as [|len IH]; cbn [to_bytes]; constructor; [|done].
  change 255 with (Z.ones 8). rewrite Z.land_ones by lia.
  apply Z.mod_pos_bound. lia.
Qed.

(** Linearity of one shift step, of one byte step and of the whole
    register update with respect to bitwise xor. *)
Lemma crc32_shift_lxor (x y : Z) :
  crc32_shift (Z.lxor x y) = Z.lxor (crc32_shift x) (crc32_shift y).
Proof.
  unfold crc32_shift. rewrite Z.lxor_spec, Z.shiftr_lxor.
  destruct (Z.testbit x 0), (Z.testbit y 0); cbn [xorb];
    apply Z.bits_inj'; intros i _; rewrite ?Z.lxor_spec;
    destruct (Z.testbit (Z.shiftr x 1) i), (Z.testbit (Z.shiftr y 1) i),
      (Z.testbit poly i); reflexivity.
Qed.

Lemma crc32_update_lxor (c1 c2 b1 b2 : Z) :
  crc32_update (Z.lxor c1 c2) (Z.lxor b1 b2)
  = Z.lxor (crc32_update c1 b1) (crc32_update c2 b2).
Proof.
  unfold crc32_update.
  replace (Z.lxor (Z.lxor c1 c2) (Z.lxor b1 b2))
    with (Z.lxor (Z.lxor c1 b1) (Z.lxor c2 b2)).
  - generalize (Z.lxor c1 b1) (Z.lxor c2 b2). intros x y.
    cbv [Nat.iter nat_rect]. by rewrite !crc32_shift_lxor.
  - apply Z.bits_inj'; intros i _; rewrite ?Z.lxor_spec.
    destruct (Z.testbit c1 i), (Z.testbit c2 i), (Z.testbit b1 i),
      (Z.testbit b2 i); reflexivity.
Qed.

Lemma crc32_raw_lxor (i1 i2 : Z) (d1 d2 : list Z) :
  length d1 = length d2 ->
  crc32_raw (Z.lxor i1 i2) (zip_with Z.lxor d1 d2)
  = Z.lxor (crc32_raw i1 d1) (crc32_raw i2 d2).
Proof.
  revert i1 i2 d2. induction d1 as [|b1 d1 IH]; intros i1 i2 [|b2 d2] Hlen;
    try done.
  cbn [zip_with]. unfold crc32_raw in *. cbn [fold_left].
  rewrite crc32_update_lxor. apply IH. by injection Hlen.
Qed.

(** The checksum of a message and of the message with an error pattern
    xor-ed in differ by the register image of the pattern alone. *)
Lemma crc32_lxor (d e : list Z) :
  length d = length e ->
  crc32 (zip_with Z.lxor d e) = Z.lxor (crc32 d) (crc32_raw 0 e).
Proof.
  intros Hlen. unfold crc32.
  rewrite <- (Z.lxor_0_r 0xFFFFFFFF) at 1.
  rewrite crc32_raw_lxor by done.
  apply Z.bits_inj'; intros i _; rewrite ?Z.lxor_spec.
  destruct (Z.testbit (crc32_raw 4294967295 d) i),
    (Z.testbit (crc32_raw 0 e) i), (Z.testbit 4294967295 i); reflexivity.
Qed.

Lemma to_bytes_lxor (len : nat) (n m : Z) :
  to_bytes len (Z.lxor n m) = zip_with Z.lxor (to_bytes len n) (to_bytes len m).
Proof.
  induction len as [|len IH]; [done|].
  cbn [to_bytes zip_with]. rewrite IH. f_equal.
  apply Z.bits_inj'; intros i Hi.
  rewrite ?Z.land_spec, ?Z.lxor_spec, ?Z.land_spec, ?Z.shiftr_spec, ?Z.lxor_spec
    by done.
  destruct (Z.testbit 255 i); [rewrite !andb_true_r|rewrite !andb_false_r]; done.
Qed.

End ZlibFacts.

(** ** Checksum soundness *)

Module ChecksumFacts.
Import PyBits PyBitsFacts Zlib ZlibFacts Encoder Decoder Spec.

(** Bit [k] of [int(s, 2)] is the [k]-th character of [s] counted from the
    right. *)
Lemma int2_testbit (s : list bool) (k : nat) :
  Z.testbit (int2 s) (Z.of_nat k) = default false (reverse s !! k).
Proof.
  revert k. induction s as [|b s IH] using rev_ind; intros k.
  - rewrite int2_nil, Z.bits_0. by destruct k.
  - rewrite reverse_snoc, int2_app, int2_cons, int2_nil. cbn [length].
    change (2 ^ Z.of_nat 1) with 2. change (2 ^ Z.of_nat 0) with 1.
    replace (int2 s * 2 + (Z.b2z b * 1 + 0)) with (2 * int2 s + Z.b2z b) by lia.
    destruct k as [|k].
    + by rewrite Z.testbit_0_r.
    + rewrite Nat2Z.inj_succ, Z.testbit_succ_r by lia. apply IH.
Qed.

(** Flipping character [i] of a bit string flips one bit of its value. *)
Lemma int2_flip (s : list bool) (i : nat) :
  (i < length s)%nat ->
  int2 (alter negb i s) = Z.lxor (int2 s) (2 ^ Z.of_nat (length s - 1 - i)).
Proof.
  intros Hi. apply Z.bits_inj'. intros n Hn.
  rewrite <- (Z2Nat.id n Hn). generalize (Z.to_nat n). clear n Hn. intros k.
  rewrite Z.lxor_spec, !int2_testbit, Z.pow2_bits_eqb by lia.
  destruct (decide (k < length s)%nat) as [Hk|Hk].
  - rewrite !reverse_lookup by (rewrite ?length_alter; lia).
    rewrite length_alter.
    destruct (decide (k = length s - 1 - i)%nat) as [->|Hne].
    + replace (length s - S (length s - 1 - i))%nat with i by lia.
      rewrite list_lookup_alter_eq, Z.eqb_refl.
      destruct (lookup_lt_is_Some_2 s i Hi) as [b ->]. simpl. by destruct b.
    + rewrite list_lookup_alter_ne by lia.
      replace (Z.of_nat (length s - 1 - i) =? Z.of_nat k) with false
        by (symmetry; apply Z.eqb_neq; lia).
      by rewrite xorb_false_r.
  - rewrite !lookup_ge_None_2 by (rewrite ?length_reverse, ?length_alter; lia).
    replace (Z.of_nat (length s - 1 - i) =? Z.of_nat k) with false
      by (symmetry; apply Z.eqb_neq; lia).
    done.
Qed.

Lemma single_bit_syndromes_nonzero : Forall (fun s => s <> 0) single_bit_syndromes.
Proof.
  apply Forall_forall. intros s Hs.
  assert (Hall : forallb (fun s => negb (s =? 0)) single_bit_syndromes = true)
    by (vm_compute; reflexivity).
  rewrite forallb_forall in Hall.
  apply list_elem_of_In, Hall in Hs.
  apply negb_true_iff, Z.eqb_neq in Hs. done.
Qed.

Lemma crc32_flip_differs (payload_bits : list bool) (i : nat) :
  length payload_bits = 96%nat -> (i < 96)%nat ->
  crc32 (to_bytes 12 (int2 (alter negb i payload_bits)))
  <> crc32 (to_bytes 12 (int2 payload_bits)).
Proof.
  intros Hlen Hi.
  rewrite int2_flip, to_bytes_lxor, crc32_lxor by (rewrite ?length_to_bytes; lia).
  rewrite Hlen. replace (96 - 1 - i)%nat with (95 - i)%nat by lia.
  set (c := crc32 (to_bytes 12 (int2 payload_bits))).
  set (s := crc32_raw 0 (to_bytes 12 (2 ^ Z.of_nat (95 - i)))).
  intros Heq.
  assert (Hzero : s = 0).
  { rewrite <- (Z.lxor_nilpotent c). rewrite <- Heq at 1.
    by rewrite (Z.lxor_comm c s), Z.lxor_assoc, Z.lxor_nilpotent, Z.lxor_0_r. }
  pose proof single_bit_syndromes_nonzero as Hall.
  rewrite Forall_forall in Hall.
  apply (Hall s); [|exact Hzero].
  unfold single_bit_syndromes, s. apply list_elem_of_fmap.
  exists i. split; [done|]. apply elem_of_seq. lia.
Qed.

(** C3. Checksum soundness: a 96-bit payload always verifies against its
    own checksum, and the payload with any single bit flipped is rejected
    when checked against the checksum of the original. *)
Theorem checksum_soundness (payload_bits : list bool) :
  length payload_bits = 96%nat ->
  verify_crc32_checksum payload_bits (calculate_crc32_checksum payload_bits)
    = true
  /\ forall i, (i < 96)%nat ->
       verify_crc32_checksum (alter negb i payload_bits)
         (calculate_crc32_checksum payload_bits) = false.
Proof.
  intros Hlen. unfold verify_crc32_checksum, calculate_crc32_checksum. split.
  - by apply bool_decide_eq_true.
  - intros i Hi. apply bool_decide_eq_false.
    rewrite length_alter, Hlen. change ((96 + 7) / 8)%nat with 12%nat.
    intros Heq. apply format_b_inj in Heq.
    + by apply (crc32_flip_differs payload_bits i).
    + apply crc32_range, to_bytes_range.
    + apply crc32_range, to_bytes_range.
Qed.

Lemma checksum_soundness_witness :
  verify_crc32_checksum (replicate 96 true)
    (calculate_crc32_checksum (replicate 96 true)) = true
  /\ verify_crc32_checksum (alter negb 40%nat (replicate 96 true))
       (calculate_crc32_checksum (replicate 96 true)) = false.
Proof.
  destruct (checksum_soundness (replicate 96 true) eq_refl) as [Hsame Hflip].
  split; [exact Hsame|]. apply Hflip. lia.
Defined.

End ChecksumFacts.

(** ** The symbol codec: decoding undoes encoding, whatever the synonyms *)

Module SymbolFacts.
Import PyBits PyBitsFacts Encoder Decoder Spec.

Local Open Scope char_scope.

Lemma decode_dna_to_bits_cons (base : ascii) (dna : list ascii) :
  decode_dna_to_bits (base :: dna)
  = match BASE_TO_BIT base, decode_dna_to_bits dna with
    | Some b, Some bits => Some (b :: bits)
    | _, _ => None
    end.
Proof.
  unfold decode_dna_to_bits. cbn [mapM].
  destruct (BASE_TO_BIT base); [|done].
  cbn. by destruct (mapM BASE_TO_BIT dna).
Qed.

Lemma decode_dna_to_bits_app (dna1 dna2 : list ascii) (bits1 bits2 : list bool) :
  decode_dna_to_bits dna1 = Some bits1 ->
  decode_dna_to_bits dna2 = Some bits2 ->
  decode_dna_to_bits (dna1 ++ dna2) = Some (bits1 ++ bits2).
Proof.
  revert bits1. induction dna1 as [|base dna1 IH]; intros bits1 H1 H2.
  - injection H1 as <-. done.
  - rewrite decode_dna_to_bits_cons in H1. cbn [app].
    rewrite decode_dna_to_bits_cons.
    destruct (BASE_TO_BIT base); [|done].
    destruct (decode_dna_to_bits dna1) as [bits|]; [|done].
    injection H1 as <-. by rewrite (IH bits eq_refl H2).
Qed.

Lemma decode_dna_to_bits_length (dna : list ascii) (bits : list bool) :
  decode_dna_to_bits dna = Some bits -> length bits = length dna.
Proof.
  revert bits. induction dna as [|base dna IH]; intros bits H.
  - by injection H as <-.
  - rewrite decode_dna_to_bits_cons in H.
    destruct (BASE_TO_BIT base); [|done].
    destruct (decode_dna_to_bits dna) as [bits'|]; [|done].
    injection H as <-. cbn [length]. by rewrite (IH bits' eq_refl).
Qed.

Lemma synonyms_same_bit (base : ascii) :
  BASE_TO_BIT (synonyms base) = BASE_TO_BIT base.
Proof. by destruct base as [[] [] [] [] [] [] [] []]. Qed.

Lemma avoid_homopolymer_same_bit (last_bases : list ascii) (base : ascii) :
  BASE_TO_BIT (avoid_homopolymer last_bases base) = BASE_TO_BIT base.
Proof.
  unfold avoid_homopolymer.
  destruct (_ && _); [apply synonyms_same_bit|done].
Qed.

Lemma random_choice_bit (outcome bit : bool) :
  BASE_TO_BIT (random_choice outcome (BIT_TO_BASE bit)) = Some bit.
Proof. by destruct outcome, bit. Qed.

Lemma decode_encode_bits (rnd : nat -> bool) (pos : nat) (bits : list bool)
    (last_bases : list ascii) :
  decode_dna_to_bits (encode_bits_to_dna rnd pos bits last_bases) = Some bits.
Proof.
  revert pos last_bases.
  induction bits as [|bit bits IH]; intros pos last_bases; [done|].
  cbn [encode_bits_to_dna]. rewrite decode_dna_to_bits_cons.
  by rewrite avoid_homopolymer_same_bit, random_choice_bit, IH.
Qed.

Lemma length_encode_bits (rnd : nat -> bool) (pos : nat) (bits : list bool)
    (last_bases : list ascii) :
  length (encode_bits_to_dna rnd pos bits last_bases) = length bits.
Proof.
  symmetry. apply decode_dna_to_bits_length, decode_encode_bits.
Qed.

(** C10. Decoding is invariant under the choice of synonyms and under the
    homopolymer substitution: the decoding table sends A and C to 0 and G
    and T to 1, the substitution swaps a symbol for the other symbol of its
    bit class and so never changes the decoded bit, and decoding whatever
    the encoder emits for a bit string gives back that bit string, for
    every sequence of random outcomes and every initial window. *)
Theorem decode_invariant_under_synonyms :
  (BASE_TO_BIT "A" = Some false /\ BASE_TO_BIT "C" = Some false
   /\ BASE_TO_BIT "G" = Some true /\ BASE_TO_BIT "T" = Some true)
  /\ (synonyms "A" = "C" /\ synonyms "C" = "A"
      /\ synonyms "G" = "T" /\ synonyms "T" = "G")
  /\ (forall last_bases base,
        BASE_TO_BIT (avoid_homopolymer last_bases base) = BASE_TO_BIT base)
  /\ (forall rnd pos bits last_bases,
        decode_dna_to_bits (encode_bits_to_dna rnd pos bits last_bases)
        = Some bits).
Proof.
  repeat split.
  - apply avoid_homopolymer_same_bit.
  - apply decode_encode_bits.
Qed.

End SymbolFacts.

(** ** Homopolymer runs *)

Module HomopolymerFacts.
Import PyBits PyBitsFacts Encoder Decoder Spec SymbolFacts.

Local Open Scope char_scope.
Local Open Scope nat_scope.

Lemma has_run4_short (dna : list ascii) : length dna <= 3 -> has_run4 dna = false.
Proof.
  destruct dna as [|a [|b [|c [|d dna]]]]; cbn [length]; intros; try done; lia.
Qed.

Lemma has_run4_unfold (a b c d : ascii) (dna : list ascii) :
  has_run4 (a :: b :: c :: d :: dna)
  = Ascii.eqb a b && Ascii.eqb b c && Ascii.eqb c d || has_run4 (b :: c :: d :: dna).
Proof. reflexivity. Qed.

Lemma has_run4_cons (a : ascii) (dna : list ascii) :
  has_run4 dna = true -> has_run4 (a :: dna) = true.
Proof.
  intros Hrun. destruct dna as [|b [|c [|d dna]]]; try done.
  cbn [has_run4] in *. rewrite Hrun. apply orb_true_r.
Qed.

Lemma has_run4_app_r (before dna : list ascii) :
  has_run4 dna = true -> has_run4 (before ++ dna) = true.
Proof.
  intros Hrun. induction before as [|a before IH]; [done|].
  cbn [app]. by apply has_run4_cons.
Qed.

Lemma has_run4_spec (dna : list ascii) :
  homopolymer_run 4 dna <-> has_run4 dna = true.
Proof.
  split.
  - intros (before & base & after & ->). apply has_run4_app_r.
    cbn. by rewrite Ascii.eqb_refl.
  - induction dna as [|a dna IH]; [done|].
    destruct dna as [|b [|c [|d dna]]]; try done.
    intros Hrun. cbn [has_run4] in Hrun. apply orb_true_iff in Hrun as [Heq|Hrun].
    + apply andb_true_iff in Heq as [Heq Hcd].
      apply andb_true_iff in Heq as [Hab Hbc].
      apply Ascii.eqb_eq in Hab, Hbc, Hcd. subst.
      by exists [], d, dna.
    + destruct (IH Hrun) as (before & base & after & Heq).
      exists (a :: before), base, after. cbn [app]. by rewrite Heq.
Qed.

Lemma last_n_snoc {A} (n : nat) (l : list A) (x : A) :
  last_n (S n) (l ++ [x]) = last_n n l ++ [x].
Proof.
  unfold last_n. rewrite length_app. cbn [length].
  replace (length l + 1 - S n) with (length l - n) by lia.
  apply drop_app_le. lia.
Qed.

Lemma last_n_tail {A} (n : nat) (l : list A) :
  n < length l -> last_n n (tail l) = last_n n l.
Proof.
  destruct l as [|a l]; [done|]. cbn [length tail]. intros Hn.
  unfold last_n. cbn [length].
  by replace (S (length l) - n) with (S (length l - n)) by lia.
Qed.

Lemma last_n_short {A} (n : nat) (l : list A) : length l <= n -> last_n n l = l.
Proof. intros Hn. unfold last_n. by replace (length l - n) with 0 by lia. Qed.

Lemma length_last_n {A} (n : nat) (l : list A) :
  length (last_n n l) = length l `min` n.
Proof. unfold last_n. rewrite length_drop. lia. Qed.

(** The window has at least three elements: its last three and last two. *)
Lemma last_n_3_long {A} (l : list A) :
  3 <= length l ->
  exists a b c, last_n 3 l = [a; b; c] /\ last_n 2 l = [b; c].
Proof.
  intros Hlen.
  assert (exists before a b c, l = before ++ [a; b; c]) as (before & a & b & c & ->).
  { exists (take (length l - 3) l).
    pose proof (take_drop (length l - 3) l) as Hsplit.
    assert (length (drop (length l - 3) l) = 3) as Hlw
      by (rewrite length_drop; lia).
    destruct (drop (length l - 3) l) as [|a [|b [|c [|d w]]]]; try done.
    by exists a, b, c. }
  exists a, b, c. unfold last_n. rewrite length_app. cbn [length].
  split.
  - rewrite drop_app_ge by lia.
    by replace (length before + 3 - 3 - length before) with 0 by lia.
  - rewrite drop_app_ge by lia.
    by replace (length before + 3 - 2 - length before) with 1 by lia.
Qed.

Lemma synonyms_differs (outcome bit : bool) :
  synonyms (random_choice outcome (BIT_TO_BASE bit))
  <> random_choice outcome (BIT_TO_BASE bit).
Proof. by destruct outcome, bit. Qed.

(** The symbol that [avoid_homopolymer] lets through never completes a run
    of four with the last three symbols of the window. *)
Lemma avoid_homopolymer_breaks_run (last_bases : list ascii) (a b c : ascii)
    (outcome bit : bool) :
  3 <= length last_bases -> last_n 3 last_bases = [a; b; c] ->
  Ascii.eqb a b && Ascii.eqb b c
  && Ascii.eqb c (avoid_homopolymer last_bases
                    (random_choice outcome (BIT_TO_BASE bit))) = false.
Proof.
  intros Hlen Hw. unfold avoid_homopolymer, HOMOPOLYMER_LIMIT. rewrite Hw.
  replace (3 <=? length last_bases) with true by (symmetry; apply Nat.leb_le; lia).
  set (base := random_choice outcome (BIT_TO_BASE bit)).
  cbn [andb forallb].
  destruct (Ascii.eqb_spec a base) as [->|Ha];
    destruct (Ascii.eqb_spec b base) as [->|Hb];
    destruct (Ascii.eqb_spec c base) as [->|Hc]; cbn [andb];
    rewrite ?Ascii.eqb_refl; cbn [andb];
    repeat match goal with
      | |- context [Ascii.eqb ?x ?y] => destruct (Ascii.eqb_spec x y); cbn [andb]
      end; try done; subst.
  all: try (exfalso; by eapply synonyms_differs).
  all: try congruence.
Qed.

(** The loop invariant of [encode_bits_to_dna]: no run of four symbols in
    the last three symbols of the window followed by what is emitted. *)
Lemma encode_bits_window (rnd : nat -> bool) (bits : list bool) (pos : nat)
    (last_bases : list ascii) :
  has_run4 (last_n 3 last_bases ++ encode_bits_to_dna rnd pos bits last_bases)
  = false.
Proof.
  revert pos last_bases.
  induction bits as [|bit bits IH]; intros pos last_bases.
  - cbn [encode_bits_to_dna]. rewrite app_nil_r.
    apply has_run4_short. rewrite length_last_n. lia.
  - cbn [encode_bits_to_dna].
    set (base := avoid_homopolymer last_bases
                   (random_choice (rnd pos) (BIT_TO_BASE bit))).
    set (window := if HOMOPOLYMER_LIMIT <? length (last_bases ++ [base])
                   then tail (last_bases ++ [base]) else last_bases ++ [base]).
    specialize (IH (S pos) window).
    assert (Hwindow : last_n 3 window = last_n 2 last_bases ++ [base]).
    { unfold window, HOMOPOLYMER_LIMIT.
      destruct (Nat.ltb_spec 3 (length (last_bases ++ [base]))).
      - rewrite last_n_tail by done. apply last_n_snoc.
      - apply last_n_snoc. }
    rewrite Hwindow in IH.
    destruct (decide (3 <= length last_bases)) as [Hlong|Hshort].
    + destruct (last_n_3_long last_bases Hlong) as (a & b & c & H3 & H2).
      rewrite H3. rewrite H2 in IH. cbn [app] in *.
      rewrite has_run4_unfold, IH, orb_false_r.
      by apply avoid_homopolymer_breaks_run.
    + rewrite last_n_short by lia. rewrite last_n_short in IH by lia.
      by rewrite <- app_assoc in IH.
Qed.

Lemma encode_bits_no_run4 (rnd : nat -> bool) (pos : nat) (bits : list bool)
    (last_bases : list ascii) :
  ~ homopolymer_run 4 (encode_bits_to_dna rnd pos bits last_bases).
Proof.
  rewrite has_run4_spec. intros Hrun.
  apply (has_run4_app_r (last_n 3 last_bases)) in Hrun.
  by rewrite encode_bits_window in Hrun.
Qed.

End HomopolymerFacts.

(** ** The shape of the encoder's output *)

Module LayoutFacts.
Import PyBits PyBitsFacts Encoder Decoder Spec SymbolFacts.

Local Open Scope nat_scope.

Lemma ceil_div_8_12 (len : nat) : ((len + 7) / 8 + 11) / 12 = (len + 95) / 96.
Proof.
  replace ((len + 7) / 8 + 11) with ((len + 7 + 11 * 8) / 8)
    by (rewrite Nat.div_add; lia).
  rewrite Nat.Div0.div_div. f_equal. lia.
Qed.

Lemma ceil_div_mono (len size : nat) :
  len <= size * 8 -> (len + 95) / 96 <= (size + 11) / 12.
Proof.
  intros Hle.
  replace (size + 11) with ((size * 8 + 7) / 8 + 11).
  - rewrite ceil_div_8_12. apply Nat.Div0.div_le_mono. lia.
  - f_equal. replace (size * 8 + 7) with (7 + size * 8) by lia.
    by rewrite Nat.div_add by lia.
Qed.

Section Segments.
Variables (rnd : nat -> bool) (bits : list bool).
Variables (forward_primer reverse_primer : list ascii).
Variables (segment_length : nat) (max_address : Z).

Let step := segment_length * 8.
Let loop := segment_loop rnd bits forward_primer reverse_primer segment_length
              max_address.

Lemma segment_loop_cons (i : nat) (idxs : list nat) (address : Z) (pos : nat) :
  (address <= max_address)%Z ->
  exists (o : oligo_details) (pos' : nat),
    loop (i :: idxs) address pos
    = (o :: (loop idxs (address + 1)%Z pos').1, (loop idxs (address + 1)%Z pos').2)
    /\ address_bits o = format_b 19 address
    /\ data_bits o = ljust 96 (slice i (i + step) bits)
    /\ crc32_checksum_bits o = calculate_crc32_checksum (data_bits o)
    /\ framed rnd forward_primer reverse_primer (address_bits o) (data_bits o)
         (crc32_checksum_bits o) (complete_oligo o).
Proof.
  intros Hle. unfold loop. cbn [segment_loop].
  rewrite bool_decide_eq_false_2 by lia.
  match goal with
  | |- context [segment_loop _ _ _ _ _ _ idxs (address + 1)%Z ?p] =>
      set (pos' := p)
  end.
  destruct (segment_loop rnd bits forward_primer reverse_primer segment_length
              max_address idxs (address + 1)%Z pos') as [rest pos''] eqn:Hrest.
  eexists _, pos'. rewrite Hrest. cbn [fst snd].
  split; [reflexivity|]. cbn [address_bits data_bits crc32_checksum_bits complete_oligo].
  repeat split.
  exists pos, (pos + length (format_b 19 address)),
    (pos + length (format_b 19 address)
     + length (ljust 96 (slice i (i + segment_length * 8) bits))).
  destruct (bool_decide (forward_primer <> [])) eqn:Hf;
    destruct (bool_decide (reverse_primer <> [])) eqn:Hr;
    repeat match goal with
      | H : bool_decide (?p <> []) = false |- _ =>
          apply bool_decide_eq_false in H;
          assert (p = []) as -> by (destruct p; [done|exfalso; by apply H]);
          clear H
      end; rewrite ?app_nil_r, <- ?app_assoc; reflexivity.
Qed.

Lemma segment_loop_break (i : nat) (idxs : list nat) (address : Z) (pos : nat) :
  (address > max_address)%Z -> loop (i :: idxs) address pos = ([], pos).
Proof.
  intros Hgt. unfold loop. cbn [segment_loop].
  by rewrite bool_decide_eq_true_2 by lia.
Qed.

(** The loop over the indices [j0 * step, (j0 + 1) * step, ...] started at
    address [j0 + 1] returns segments [j0, j0 + 1, ...], up to the address
    ceiling. *)
Lemma segment_loop_layout (n j0 pos : nat) :
  Forall2 (is_segment rnd bits forward_primer reverse_primer segment_length)
    (take (Z.to_nat max_address - j0) (seq j0 n))
    (loop ((fun j => j * step) <$> seq j0 n) (segment_address j0) pos).1.
Proof.
  revert j0 pos. induction n as [|n IH]; intros j0 pos.
  - cbn. rewrite take_nil. constructor.
  - cbn [seq]. rewrite fmap_cons. unfold segment_address in *.
    destruct (decide (Z.of_nat (S j0) <= max_address)%Z) as [Hle|Hgt].
    + destruct (segment_loop_cons (j0 * step) ((fun j => j * step) <$> seq (S j0) n)
                  (Z.of_nat (S j0)) pos Hle)
        as (o & pos' & -> & Ha & Hd & Hc & Hf).
      cbn [fst].
      replace (Z.to_nat max_address - j0) with (S (Z.to_nat max_address - S j0))
        by lia.
      cbn [take]. constructor.
      * by repeat split.
      * replace (Z.of_nat (S j0) + 1)%Z with (Z.of_nat (S (S j0))) by lia.
        apply IH.
    + rewrite segment_loop_break by lia. cbn [fst].
      replace (Z.to_nat max_address - j0) with 0 by lia. constructor.
Qed.

Lemma bits_to_dna_with_crc32_layout (pos : nat) :
  segment_length <> 0 ->
  exists l pos',
    bits_to_dna_with_crc32 rnd bits forward_primer reverse_primer
      segment_length max_address pos = Ok (l, pos')
    /\ Forall2 (is_segment rnd bits forward_primer reverse_primer segment_length)
         (seq 0 (Z.to_nat max_address `min` ((length bits + step - 1) / step))) l.
Proof.
  intros Hseg. unfold bits_to_dna_with_crc32.
  rewrite (proj2 (Nat.eqb_neq _ _) Hseg).
  match goal with |- context [Ok ?r] => destruct r as [l pos'] eqn:Hloop end.
  exists l, pos'. split; [done|].
  pose proof (segment_loop_layout ((length bits + step - 1) / step) 0 pos) as Hl.
  unfold loop, py_range, step in *. change (segment_address 0) with 1%Z in Hl.
  rewrite Hloop in Hl. cbn [fst] in Hl.
  rewrite Nat.sub_0_r, take_seq in Hl. exact Hl.
Qed.

End Segments.

Section Blocks.
Variables (rnd : nat -> bool) (bits : list bool).
Variables (forward_primer reverse_primer : list ascii).
Variables (block_size_bytes total_data_size : nat).

Lemma length_slice {A} (a b : nat) (l : list A) :
  length (slice a b l) = (b - a) `min` (length l - a).
Proof. unfold slice. rewrite length_take, length_drop. lia. Qed.

Lemma length_block_bits (k : nat) :
  length (block_bits bits block_size_bytes k)
  = (block_size_bytes * 8) `min` (length bits - k * block_size_bytes * 8).
Proof. unfold block_bits. rewrite length_slice. lia. Qed.

(** The address ceiling that [encode_file_to_dna] computes for a block is
    the number of segments of the block: it never cuts a block short. *)
Lemma max_address_for_block_exact (k : nat) :
  let len := length (block_bits bits block_size_bytes k) in
  (((block_size_bytes + bytes_per_oligo - 1) / bytes_per_oligo)
     `min` (((len + 7) / 8 + bytes_per_oligo - 1) / bytes_per_oligo))
    `min` ((len + bytes_per_oligo * 8 - 1) / (bytes_per_oligo * 8))
  = segments_of (block_bytes bits block_size_bytes k).
Proof.
  intros len. unfold segments_of, block_bytes, bytes_per_oligo. fold len.
  assert (len <= block_size_bytes * 8) as Hle
    by (unfold len; rewrite length_block_bits; lia).
  replace (block_size_bytes + 12 - 1) with (block_size_bytes + 11) by lia.
  replace ((len + 7) / 8 + 12 - 1) with ((len + 7) / 8 + 11) by lia.
  replace (len + 12 * 8 - 1) with (len + 95) by lia.
  change (12 * 8) with 96.
  pose proof (ceil_div_mono len block_size_bytes Hle).
  rewrite ceil_div_8_12. lia.
Qed.

Lemma block_loop_layout (blocks : list nat) (pos : nat) :
  exists rows pos',
    block_loop rnd bits forward_primer reverse_primer block_size_bytes
      total_data_size blocks pos = Ok (rows, pos')
    /\ Forall2 (fun kj row =>
                  is_row rnd bits forward_primer reverse_primer
                    block_size_bytes total_data_size kj.1 kj.2 row)
         (file_layout bits block_size_bytes blocks) rows.
Proof.
  revert pos. induction blocks as [|k blocks IH]; intros pos.
  - exists [], pos. split; [done|]. constructor.
  - cbn [block_loop]. fold (block_bits bits block_size_bytes k).
    set (bb := block_bits bits block_size_bytes k).
    destruct (bits_to_dna_with_crc32_layout rnd bb forward_primer reverse_primer
                bytes_per_oligo
                (Z.of_nat (((block_size_bytes + bytes_per_oligo - 1) / bytes_per_oligo)
                   `min` (((length bb + 7) / 8 + bytes_per_oligo - 1) / bytes_per_oligo)))
                pos ltac:(done))
      as (l & pos1 & -> & Hl).
    rewrite Nat2Z.id in Hl.
    pose proof (max_address_for_block_exact k) as Hmax. cbv zeta in Hmax.
    fold bb in Hmax. rewrite Hmax in Hl. clear Hmax.
    cbn [bind].
    destruct (IH pos1) as (rows' & pos' & -> & Hrows').
    cbn [bind]. eexists _, pos'. split; [reflexivity|].
    unfold file_layout. rewrite fmap_cons. cbn [concat].
    apply Forall2_app; [|exact Hrows'].
    unfold block_layout. apply Forall2_fmap.
    eapply Forall2_impl; [exact Hl|].
    intros j o (Ha & Hd & Hc & Hf). cbn [fst snd].
    unfold is_row. cbn [col_block_index col_address col_data_bits col_crc32
      col_oligo col_block_size col_actual_block_size col_total_file_size].
    by repeat split.
Qed.

End Blocks.

(** [encode_file_to_dna] succeeds when the primers that are given are 22
    symbols long, the size check passes and the block size is not zero; its
    rows are then the segments of the blocks of the file, block after
    block. *)
Lemma encode_file_to_dna_layout (rnd : nat -> bool) (binary_data : list Z)
    (forward_primer reverse_primer : option (list ascii))
    (check_file_size : bool) (max_file_size block_size_bytes : nat) :
  let F := default DEFAULT_FORWARD_PRIMER forward_primer in
  let R := default DEFAULT_REVERSE_PRIMER reverse_primer in
  let bits := bytes_to_bits binary_data in
  (F = [] \/ length F = 22) -> (R = [] \/ length R = 22) ->
  (check_file_size = false \/ length binary_data <= max_file_size) ->
  block_size_bytes <> 0 ->
  exists e,
    encode_file_to_dna rnd binary_data forward_primer reverse_primer
      check_file_size max_file_size block_size_bytes = Ok e
    /\ num_blocks e = (length bits / 8 + block_size_bytes - 1) / block_size_bytes
    /\ num_oligos e = length (csv_rows e)
    /\ input_size e = length binary_data
    /\ Forall2 (fun kj row =>
                  is_row rnd bits F R block_size_bytes (length binary_data)
                    kj.1 kj.2 row)
         (file_layout bits block_size_bytes (seq 0 (num_blocks e))) (csv_rows e).
Proof.
  intros F R bits HF HR Hsize HS. unfold encode_file_to_dna. fold F R bits.
  assert (bool_decide (F <> []) && negb (length F =? 22) = false) as ->.
  { destruct HF as [->| ->]; [done|]. apply andb_false_r. }
  assert (bool_decide (R <> []) && negb (length R =? 22) = false) as ->.
  { destruct HR as [->| ->]; [done|]. apply andb_false_r. }
  assert (check_file_size && (max_file_size <? length binary_data) = false) as ->.
  { destruct Hsize as [->|Hle]; [done|].
    apply andb_false_iff. right. apply Nat.ltb_ge. lia. }
  rewrite (proj2 (Nat.eqb_neq _ _) HS).
  destruct (block_loop_layout rnd bits F R block_size_bytes (length binary_data)
              (seq 0 ((length bits / 8 + block_size_bytes - 1) / block_size_bytes)) 0)
    as (rows & pos' & -> & Hrows).
  cbn [bind fst]. eexists. split; [reflexivity|].
  cbn [num_blocks num_oligos input_size csv_rows]. by repeat split.
Qed.

End LayoutFacts.

(** ** Homopolymer runs in what the encoder returns *)

Module Homopolymer.
Import PyBits PyBitsFacts Encoder Decoder Spec SymbolFacts HomopolymerFacts
  LayoutFacts.

(** Every region of every oligo that [bits_to_dna_with_crc32] returns is
    free of runs of four: the address, payload and checksum regions are
    encoded by separate calls of [encode_bits_to_dna]. *)
Lemma oligo_regions_no_run4 (rnd : nat -> bool) (bits : list bool)
    (forward_primer reverse_primer : list ascii) (segment_length : nat)
    (max_address : Z) (pos : nat) (l : list oligo_details) (pos' : nat)
    (o : oligo_details) :
  bits_to_dna_with_crc32 rnd bits forward_primer reverse_primer segment_length
    max_address pos = Ok (l, pos') ->
  o ∈ l ->
  exists address_dna data_dna crc32_dna,
    complete_oligo o
    = forward_primer ++ (address_dna ++ data_dna ++ crc32_dna) ++ reverse_primer
    /\ decode_dna_to_bits address_dna = Some (address_bits o)
    /\ decode_dna_to_bits data_dna = Some (data_bits o)
    /\ decode_dna_to_bits crc32_dna = Some (crc32_checksum_bits o)
    /\ ~ homopolymer_run 4 address_dna
    /\ ~ homopolymer_run 4 data_dna
    /\ ~ homopolymer_run 4 crc32_dna.
Proof.
  intros Hrun Ho.
  destruct (decide (segment_length = 0%nat)) as [->|Hseg]; [done|].
  destruct (bits_to_dna_with_crc32_layout rnd bits forward_primer reverse_primer
              segment_length max_address pos Hseg) as (l0 & pos0 & Heq & Hl).
  rewrite Hrun in Heq. injection Heq as <- <-.
  apply list_elem_of_lookup in Ho as [i Hi].
  destruct (Forall2_lookup_r _ _ _ _ _ Hl Hi) as (j & _ & _ & _ & _ & Hframed).
  destruct Hframed as (p1 & p2 & p3 & ->).
  eexists _, _, _. split; [reflexivity|].
  repeat split; auto using decode_encode_bits, encode_bits_no_run4.
Qed.

(** C2 (as amended). Homopolymer invariant of an encode call: the symbol
    sequence that one call of [encode_bits_to_dna] returns contains no run
    of four or more identical symbols, for every bit string (all-zero and
    all-one included), every initial window and every choice of synonyms. *)
Theorem encode_call_homopolymer_free (rnd : nat -> bool) (pos : nat)
    (bits : list bool) (last_bases : list ascii) :
  ~ homopolymer_run 4 (encode_bits_to_dna rnd pos bits last_bases).
Proof. apply encode_bits_no_run4. Qed.

Lemma encode_call_homopolymer_free_witness :
  ~ homopolymer_run 4
      (encode_bits_to_dna (fun _ => false) 0 (replicate 96 false) [])
  /\ ~ homopolymer_run 4
        (encode_bits_to_dna (fun _ => true) 7 (replicate 96 true) ["T"; "T"; "T"]%char).
Proof.
  split; apply encode_call_homopolymer_free.
Defined.

(** C2, counterexample. The oligo of the second segment of a file of 13
    zero bytes, encoded with the first synonym drawn every time, holds a run
    of four A: the address region ends in A and the payload region, encoded
    from a fresh window, starts with AAA. *)
Lemma oligo_with_homopolymer_run :
  exists e row,
    encode_file_to_dna (fun _ => false) (replicate 13 0) (Some []) (Some [])
      false 0 1024 = Ok e
    /\ csv_rows e !! 1%nat = Some row
    /\ homopolymer_run 4 (col_oligo row).
Proof.
  eexists _, _. split; [vm_compute; reflexivity|].
  split; [reflexivity|].
  apply has_run4_spec. vm_compute. reflexivity.
Qed.

End Homopolymer.

(** ** The address ceiling *)

Module AddressCeiling.
Import PyBits PyBitsFacts Encoder Decoder Spec SymbolFacts LayoutFacts.

Local Open Scope nat_scope.

Section Ceiling.
Variables (rnd : nat -> bool) (bits : list bool).
Variables (forward_primer reverse_primer : list ascii) (segment_length : nat).

Let loop := segment_loop rnd bits forward_primer reverse_primer segment_length.

(** Lowering the ceiling cuts the returned list and changes nothing else. *)
Lemma segment_loop_prefix (max_address max_address' : Z) (idxs : list nat)
    (address : Z) (pos : nat) :
  (max_address <= max_address')%Z ->
  (loop max_address idxs address pos).1
  = take (Z.to_nat (max_address - address + 1))
      (loop max_address' idxs address pos).1.
Proof.
  intros Hle. revert address pos.
  induction idxs as [|i idxs IH]; intros address pos.
  - cbn. by rewrite take_nil.
  - unfold loop in *. cbn [segment_loop].
    destruct (decide (address > max_address)%Z) as [Hgt|Hngt].
    + rewrite (bool_decide_eq_true_2 (address > max_address)%Z) by done.
      replace (Z.to_nat (max_address - address + 1)) with 0 by lia. done.
    + rewrite (bool_decide_eq_false_2 (address > max_address)%Z) by lia.
      rewrite (bool_decide_eq_false_2 (address > max_address')%Z) by lia.
      match goal with
      | |- context [segment_loop _ _ _ _ _ max_address idxs (address + 1)%Z ?p] =>
          specialize (IH (address + 1)%Z p);
          destruct (segment_loop rnd bits forward_primer reverse_primer
                      segment_length max_address idxs (address + 1)%Z p);
          destruct (segment_loop rnd bits forward_primer reverse_primer
                      segment_length max_address' idxs (address + 1)%Z p)
      end.
      cbn [fst] in *.
      replace (Z.to_nat (max_address - address + 1))
        with (S (Z.to_nat (max_address - (address + 1) + 1))) by lia.
      cbn [take]. by rewrite IH.
Qed.

End Ceiling.

(** C8 (as amended). Address ceiling: when the bit string needs more
    segments than [max_address] allows, [bits_to_dna_with_crc32] stops early
    and returns, as an ordinary result, exactly the first [max_address]
    segments of what a higher ceiling returns; nothing in the result tells
    that segments were left out. *)
Theorem address_ceiling_truncates (rnd : nat -> bool) (bits : list bool)
    (forward_primer reverse_primer : list ascii) (segment_length : nat)
    (max_address : Z) (pos : nat) :
  segment_length <> 0 ->
  exists l pos',
    bits_to_dna_with_crc32 rnd bits forward_primer reverse_primer
      segment_length max_address pos = Ok (l, pos')
    /\ length l
       = Z.to_nat max_address
           `min` ((length bits + segment_length * 8 - 1) / (segment_length * 8))
    /\ forall max_address', (max_address <= max_address')%Z ->
         exists l' pos'',
           bits_to_dna_with_crc32 rnd bits forward_primer reverse_primer
             segment_length max_address' pos = Ok (l', pos'')
           /\ l = take (Z.to_nat max_address) l'.
Proof.
  intros Hseg.
  destruct (bits_to_dna_with_crc32_layout rnd bits forward_primer reverse_primer
              segment_length max_address pos Hseg) as (l & pos' & Hrun & Hl).
  exists l, pos'. split; [done|]. split.
  - apply Forall2_length in Hl. by rewrite length_seq in Hl.
  - intros max_address' Hle.
    destruct (bits_to_dna_with_crc32_layout rnd bits forward_primer
                reverse_primer segment_length max_address' pos Hseg)
      as (l' & pos'' & Hrun' & _).
    exists l', pos''. split; [done|].
    unfold bits_to_dna_with_crc32 in Hrun, Hrun'.
    rewrite (proj2 (Nat.eqb_neq _ _) Hseg) in Hrun, Hrun'.
    injection Hrun as Hrun. injection Hrun' as Hrun'.
    pose proof (segment_loop_prefix rnd bits forward_primer reverse_primer
                  segment_length max_address max_address'
                  (py_range (length bits) (segment_length * 8)) 1%Z pos Hle)
      as Hprefix.
    rewrite Hrun, Hrun' in Hprefix. cbn [fst] in Hprefix.
    by replace (Z.to_nat (max_address - 1 + 1)) with (Z.to_nat max_address)
      in Hprefix by lia.
Qed.

Lemma address_ceiling_truncates_witness :
  exists l pos',
    bits_to_dna_with_crc32 (fun _ => false) (replicate 200 true) [] [] 12 1 0
    = Ok (l, pos')
    /\ length l = 1.
Proof.
  destruct (address_ceiling_truncates (fun _ => false) (replicate 200 true)
              [] [] 12 1 0 ltac:(discriminate)) as (l & pos' & Hrun & Hlen & _).
  exists l, pos'. split; [exact Hrun|exact Hlen].
Defined.

(** C8, counterexample. With a ceiling of one address, a bit string of two
    segments is encoded into the very value that its first segment alone is
    encoded into: the second segment is dropped and the returned value
    carries no signal of it. *)
Lemma truncation_is_silent :
  let bits := bytes_to_bits (seqZ 1 24) in
  (length bits + 12 * 8 - 1) / (12 * 8) = 2
  /\ (length (take 96 bits) + 12 * 8 - 1) / (12 * 8) = 1
  /\ bits_to_dna_with_crc32 (fun _ => false) bits [] [] 12 1 0
     = bits_to_dna_with_crc32 (fun _ => false) (take 96 bits) [] [] 12 1 0
  /\ exists l pos',
       bits_to_dna_with_crc32 (fun _ => false) bits [] [] 12 1 0 = Ok (l, pos')
       /\ length l = 1.
Proof.
  cbv zeta. split; [reflexivity|]. split; [reflexivity|].
  split; [vm_compute; reflexivity|].
  eexists _, _. split; [vm_compute; reflexivity|reflexivity].
Qed.

End AddressCeiling.

(** ** Batch decoding: classification of the records *)

Module BatchFacts.
Import PyBits PyBitsFacts Encoder Decoder Spec SymbolFacts.

Local Open Scope nat_scope.

(** Settles the tests on the class of a record once the class is known. *)
Ltac settle_verdicts :=
  repeat match goal with
    | |- context [decide ?P] =>
        let H := fresh in
        destruct (decide P) as [H|H];
        [try discriminate H; try (destruct H as [H|H]; discriminate H)
        |try (exfalso; apply H; auto; fail)]
    end.

Section Batch.
Variables forward_primer reverse_primer : list ascii.

Let process := process_row forward_primer reverse_primer.
Let loop := row_loop forward_primer reverse_primer.
Let verdict_of := checksum_verdict forward_primer reverse_primer.

Lemma read_block_columns_keeps (row : csv_row) (st : state) :
  let st' := (read_block_columns row st).2 in
  (read_block_columns row st).1 = default 0%Z (col_block_index row)
  /\ decoded_blocks st' = decoded_blocks st
  /\ errors st' = errors st
  /\ stats (info st') = stats (info st).
Proof. done. Qed.

(** What one pass of the loop body does to the segment map, the counters
    and the error list, by the class of the record. *)
Lemma process_row_effect (st : state) (row_num : nat) (row : csv_row) :
  let st' := process st row_num row in
  decoded_blocks st'
    = contribute forward_primer reverse_primer (decoded_blocks st) row
  /\ stats (info st') = tally (verdict_of row) (stats (info st))
  /\ length (errors st')
     = length (errors st)
       + (if decide (verdict_of row = NoSegment \/ verdict_of row = Invalid)
          then 1 else 0).
Proof.
  unfold process, verdict_of, process_row, contribute, contribution,
    checksum_verdict, row_fields.
  destruct (read_block_columns row st) as [block_index st1] eqn:Hread.
  pose proof (read_block_columns_keeps row st) as (Hidx & Hblocks & Herrors & Hstats).
  rewrite Hread in Hidx, Hblocks, Herrors, Hstats. cbn [fst snd] in *.
  assert (forall e, length (errors (add_error e st1)) = length (errors st) + 1)
    as Herr1 by (intros e; cbn; rewrite length_app, Herrors; cbn; lia).
  destruct (extract_oligo_parts _ _ _) as [[[address_dna data_dna] crc32_dna]|];
    [|by rewrite Herr1, decide_True by auto].
  destruct (decode_dna_to_bits address_dna) as [address_bits|];
    [|by rewrite Herr1, decide_True by auto].
  destruct (decode_dna_to_bits data_dna) as [data_bits|];
    [|by rewrite Herr1, decide_True by auto].
  destruct (32 <=? length crc32_dna).
  - destruct (decode_dna_to_bits (take 32 crc32_dna)) as [crc32_bits|];
      [|by rewrite Herr1, decide_True by auto].
    unfold verify_crc32_checksum, calculate_crc32_checksum.
    destruct (bool_decide _).
    + rewrite decide_False by (by intros [|]).
      cbn. rewrite Hblocks, Hstats, Herrors, Hidx. repeat split; lia.
    + rewrite decide_True by auto.
      cbn. rewrite Hblocks, Hstats, Herrors, length_app. by cbn.
  - rewrite decide_False by (by intros [|]).
    cbn. rewrite Hblocks, Hstats, Herrors, Hidx. repeat split; lia.
Qed.

Lemma count_cons (v : verdict) (row : csv_row) (rows : list csv_row) :
  count forward_primer reverse_primer v (row :: rows)
  = (if decide (verdict_of row = v) then 1 else 0)
    + count forward_primer reverse_primer v rows.
Proof.
  unfold count, verdict_of. rewrite filter_cons.
  by destruct (decide _).
Qed.

Lemma row_loop_stats (rows : list csv_row) (st : state) (row_num : nat) :
  let s := stats (info st) in
  let s' := stats (info (loop st row_num rows)) in
  valid s' = valid s + count forward_primer reverse_primer Valid rows
  /\ invalid s' = invalid s + count forward_primer reverse_primer Invalid rows
  /\ missing s' = missing s + count forward_primer reverse_primer Missing rows
  /\ length (errors (loop st row_num rows))
     = length (errors st) + count forward_primer reverse_primer Invalid rows
       + count forward_primer reverse_primer NoSegment rows.
Proof.
  revert st row_num. induction rows as [|row rows IH]; intros st row_num.
  - cbn. unfold count. cbn. lia.
  - unfold loop in *. cbn [row_loop].
    destruct (IH (process_row forward_primer reverse_primer st row_num row)
                (S row_num)) as (Hv & Hi & Hm & He).
    destruct (process_row_effect st row_num row) as (_ & Hs & Herr).
    unfold process in *. cbv zeta. rewrite Hv, Hi, Hm, He, Hs, Herr.
    rewrite !count_cons. clear.
    destruct (verdict_of row); cbn [tally valid invalid missing];
      settle_verdicts; repeat split; lia.
Qed.

Lemma row_loop_blocks (rows : list csv_row) (st : state) (row_num : nat) :
  decoded_blocks (loop st row_num rows)
  = foldl (contribute forward_primer reverse_primer) (decoded_blocks st) rows.
Proof.
  revert st row_num. induction rows as [|row rows IH]; intros st row_num; [done|].
  unfold loop in *. cbn [row_loop foldl]. rewrite IH.
  destruct (process_row_effect st row_num row) as (Hblocks & _).
  unfold process in Hblocks. by rewrite Hblocks.
Qed.





End Batch.



End BatchFacts.

(** ** Records too short to hold a segment *)

Module ShortRecords.
Import PyBits PyBitsFacts Encoder Decoder Spec SymbolFacts BatchFacts.

Local Open Scope nat_scope.

(** C7. Unframing a short record: when what is left of the sequence after
    the matching primers are removed has fewer than 19 + 96 symbols,
    [extract_oligo_parts] returns the absent triple (it has no failing
    path); the batch loop then records one error for the row, leaves the
    decoded segments and the checksum counters as they were, and goes on
    with the remaining rows. *)
Theorem short_record_skipped (oligo forward_primer reverse_primer : list ascii) :
  length (core_sequence oligo forward_primer reverse_primer) < 19 + 96 ->
  extract_oligo_parts oligo forward_primer reverse_primer = None
  /\ forall (st : state) (row_num : nat) (row : csv_row) (rest : list csv_row),
       strip (col_oligo row) = oligo ->
       let st' := process_row forward_primer reverse_primer st row_num row in
       errors st' = errors st ++ [FailedToExtract row_num]
       /\ length (errors st') = S (length (errors st))
       /\ decoded_blocks st' = decoded_blocks st
       /\ stats (info st') = stats (info st)
       /\ row_loop forward_primer reverse_primer st row_num (row :: rest)
          = row_loop forward_primer reverse_primer st' (S row_num) rest.
Proof.
  intros Hshort.
  assert (extract_oligo_parts oligo forward_primer reverse_primer = None) as Hnone.
  { unfold extract_oligo_parts.
    by rewrite (proj2 (Nat.leb_gt _ _) Hshort). }
  split; [done|].
  intros st row_num row rest Hstrip. cbv zeta.
  assert (process_row forward_primer reverse_primer st row_num row
          = add_error (FailedToExtract row_num) (read_block_columns row st).2)
    as Hrow.
  { unfold process_row. rewrite Hstrip, Hnone.
    by destruct (read_block_columns row st). }
  cbn [row_loop]. rewrite Hrow.
  split; [done|]. split; [cbn; rewrite length_app; cbn; lia|].
  by repeat split.
Qed.

Lemma short_record_skipped_witness :
  let row := CsvRow (Some 0%Z) [] [] [] DEFAULT_FORWARD_PRIMER None None None in
  extract_oligo_parts DEFAULT_FORWARD_PRIMER DEFAULT_FORWARD_PRIMER
    DEFAULT_REVERSE_PRIMER = None
  /\ length (errors (process_row DEFAULT_FORWARD_PRIMER DEFAULT_REVERSE_PRIMER
                       initial 2 row)) = 1.
Proof.
  destruct (short_record_skipped DEFAULT_FORWARD_PRIMER DEFAULT_FORWARD_PRIMER
              DEFAULT_REVERSE_PRIMER) as [Hnone Hskip].
  - vm_compute. lia.
  - split; [exact Hnone|].
    destruct (Hskip initial 2
                (CsvRow (Some 0%Z) [] [] [] DEFAULT_FORWARD_PRIMER None None None)
                [] eq_refl) as (_ & Hlen & _).
    exact Hlen.
Defined.

End ShortRecords.

(** ** Decoding the rows that the encoder writes *)

Module RowFacts.
Import PyBits PyBitsFacts ZlibFacts Encoder Decoder Spec SymbolFacts
  LayoutFacts BatchFacts.

Local Open Scope nat_scope.

Lemma base_not_space (c : ascii) (b : bool) :
  BASE_TO_BIT c = Some b -> is_space c = false.
Proof. by destruct c as [[] [] [] [] [] [] [] []]. Qed.

Lemma decode_bases (dna : list ascii) (bits : list bool) :
  decode_dna_to_bits dna = Some bits -> Forall (fun c => is_space c = false) dna.
Proof.
  revert bits. induction dna as [|c dna IH]; intros bits Hdec; [constructor|].
  rewrite decode_dna_to_bits_cons in Hdec.
  destruct (BASE_TO_BIT c) as [b|] eqn:Hc; [|done].
  destruct (decode_dna_to_bits dna) as [bits'|]; [|done].
  constructor; eauto using base_not_space.
Qed.

Lemma lstrip_id (s : list ascii) :
  (forall c, head s = Some c -> is_space c = false) -> lstrip s = s.
Proof.
  destruct s as [|c s]; [done|]. intros Hhead. cbn [lstrip].
  by rewrite (Hhead c eq_refl).
Qed.

Lemma strip_id (s : list ascii) :
  (forall c, head s = Some c -> is_space c = false) ->
  (forall c, last s = Some c -> is_space c = false) ->
  strip s = s.
Proof.
  intros Hhead Hlast. unfold strip. rewrite (lstrip_id s Hhead).
  rewrite lstrip_id; [apply reverse_involutive|].
  intros c. rewrite head_reverse. apply Hlast.
Qed.

Lemma head_elem_of {A} (l : list A) (x : A) : head l = Some x -> x ∈ l.
Proof. destruct l; [done|]. intros [= ->]. apply list_elem_of_here. Qed.

Lemma last_elem_of {A} (l : list A) (x : A) : last l = Some x -> x ∈ l.
Proof.
  rewrite <- head_reverse. intros Hx%head_elem_of. by apply elem_of_reverse.
Qed.

(** A sequence of bases between clean primers is left alone by [strip]. *)
Lemma strip_framed (forward_primer reverse_primer core : list ascii) :
  clean_primers forward_primer reverse_primer ->
  Forall (fun c => is_space c = false) core -> core <> [] ->
  strip (forward_primer ++ core ++ reverse_primer)
  = forward_primer ++ core ++ reverse_primer.
Proof.
  intros [HF HR] Hcore Hne. rewrite Forall_forall in Hcore. apply strip_id.
  - intros c. rewrite head_app. destruct (head forward_primer) eqn:Hhead.
    + intros [= ->]. by apply HF.
    + rewrite head_app. destruct (head core) eqn:Hc.
      * intros [= ->]. by apply Hcore, head_elem_of.
      * by destruct core.
  - intros c. rewrite app_assoc, last_app.
    destruct (last reverse_primer) eqn:Hlast.
    + intros [= ->]. by apply HR.
    + rewrite last_app. destruct (last core) eqn:Hc.
      * intros [= ->]. by apply Hcore, last_elem_of.
      * apply last_None in Hc. done.
Qed.

Lemma core_sequence_framed (forward_primer reverse_primer core : list ascii) :
  core_sequence (forward_primer ++ core ++ reverse_primer) forward_primer
    reverse_primer = core.
Proof.
  unfold core_sequence.
  assert ((if bool_decide (forward_primer <> [])
              && bool_decide (forward_primer `prefix_of`
                                forward_primer ++ core ++ reverse_primer)
           then drop (length forward_primer)
                  (forward_primer ++ core ++ reverse_primer)
           else forward_primer ++ core ++ reverse_primer)
          = core ++ reverse_primer) as ->.
  { destruct forward_primer as [|c F]; [done|].
    rewrite bool_decide_eq_true_2 by done.
    rewrite bool_decide_eq_true_2 by (by eexists).
    cbn [andb]. by rewrite drop_app_length. }
  destruct reverse_primer as [|c R]; [by rewrite app_nil_r|].
  rewrite bool_decide_eq_true_2 by done.
  rewrite bool_decide_eq_true_2 by (by eexists).
  cbn [andb]. rewrite length_app.
  replace (length core + length (c :: R) - length (c :: R)) with (length core)
    by lia.
  by rewrite take_app_length.
Qed.

Lemma extract_oligo_parts_framed (forward_primer reverse_primer : list ascii)
    (address_dna data_dna crc32_dna : list ascii) :
  length address_dna = 19 -> length data_dna = 96 ->
  extract_oligo_parts
    (forward_primer ++ (address_dna ++ data_dna ++ crc32_dna) ++ reverse_primer)
    forward_primer reverse_primer
  = Some (address_dna, data_dna, crc32_dna).
Proof.
  intros Ha Hd. unfold extract_oligo_parts. rewrite core_sequence_framed.
  rewrite (proj2 (Nat.leb_le _ _)) by (rewrite !length_app; lia).
  unfold slice. f_equal. f_equal; [f_equal|].
  - by rewrite take_app_length'.
  - rewrite drop_app_length' by done.
    replace (19 + 96 - 19) with 96 by lia. by rewrite take_app_length'.
  - rewrite app_assoc. rewrite drop_app_length'; [done|].
    rewrite length_app. lia.
Qed.

Lemma length_calculate_crc32_checksum (data_bits : list bool) :
  length (calculate_crc32_checksum data_bits) = 32.
Proof.
  unfold calculate_crc32_checksum. apply length_format_b; [|lia].
  apply crc32_range, to_bytes_range.
Qed.

Lemma length_segment_payload (bits : list bool) (j : nat) :
  length (segment_payload bits 96 j) = 96.
Proof.
  unfold segment_payload. rewrite length_ljust, length_slice. lia.
Qed.

Section Rows.
Variables (rnd : nat -> bool) (bits : list bool).
Variables (forward_primer reverse_primer : list ascii).
Variables (block_size_bytes total_data_size : nat).

Let is_row := is_row rnd bits forward_primer reverse_primer block_size_bytes
                total_data_size.

(** A row written for segment [j] of block [k] decodes to a valid segment
    under the key [(k, j + 1)], as long as the address fits in 19 bits. *)
Lemma is_row_contribution (k j : nat) (row : csv_row) :
  clean_primers forward_primer reverse_primer ->
  is_row k j row ->
  (segment_address j < 2 ^ 19)%Z ->
  checksum_verdict forward_primer reverse_primer row = Valid
  /\ contribution forward_primer reverse_primer row
     = Some ((Z.of_nat k, segment_address j),
             segment_payload (block_bits bits block_size_bytes k) 96 j).
Proof.
  intros Hclean (Hk & Ha & Hd & Hc & Hframed & _) Hj.
  destruct Hframed as (p1 & p2 & p3 & Holigo).
  rewrite Ha, Hd in Holigo. rewrite Hd in Hc. rewrite Hc in Holigo.
  set (payload := segment_payload (block_bits bits block_size_bytes k) 96 j) in *.
  set (a := encode_bits_to_dna rnd p1 (format_b 19 (segment_address j)) [])
    in Holigo.
  set (d := encode_bits_to_dna rnd p2 payload []) in Holigo.
  set (c := encode_bits_to_dna rnd p3 (calculate_crc32_checksum payload) [])
    in Holigo.
  assert (length a = 19) as Hla.
  { unfold a. rewrite length_encode_bits. apply length_format_b; [|lia].
    unfold segment_address in *. lia. }
  assert (length d = 96) as Hld
    by (unfold d; rewrite length_encode_bits; apply length_segment_payload).
  assert (length c = 32) as Hlc
    by (unfold c; rewrite length_encode_bits;
        apply length_calculate_crc32_checksum).
  assert (row_fields forward_primer reverse_primer row
          = Some (format_b 19 (segment_address j), payload, c)) as Hfields.
  { unfold row_fields. rewrite Holigo.
    rewrite strip_framed.
    - rewrite extract_oligo_parts_framed by done.
      unfold a, d. by rewrite !decode_encode_bits.
    - done.
    - rewrite !Forall_app. unfold a, d, c.
      repeat split; eapply decode_bases, decode_encode_bits.
    - intros Hnil. apply (f_equal length) in Hnil.
      rewrite !length_app, Hla in Hnil. done. }
  assert (checksum_verdict forward_primer reverse_primer row = Valid) as Hvalid.
  { unfold checksum_verdict. rewrite Hfields, Hlc. cbn [Nat.leb].
    rewrite take_ge by lia. unfold c. rewrite decode_encode_bits.
    by rewrite bool_decide_eq_true_2. }
  split; [done|].
  unfold contribution. rewrite Hvalid, Hfields, Hk. cbn [default].
  rewrite int2_format_b; [done|]. unfold segment_address. lia.
Qed.

End Rows.

(** Whatever the row, the key it is stored under holds the block index of
    the row and an address below 2^19: the decoder reads 19 symbols. *)
Lemma contribution_key (forward_primer reverse_primer : list ascii)
    (row : csv_row) (key : Z * Z) (data_bits : list bool) :
  contribution forward_primer reverse_primer row = Some (key, data_bits) ->
  key.1 = default 0%Z (col_block_index row) /\ (0 <= key.2 < 2 ^ 19)%Z.
Proof.
  unfold contribution, row_fields, extract_oligo_parts.
  destruct (checksum_verdict forward_primer reverse_primer row); try done.
  all: destruct (19 + 96 <=? _); [|done].
  all: destruct (decode_dna_to_bits (take 19 _)) as [address_bits|] eqn:Ha;
    [|done].
  all: destruct (decode_dna_to_bits (slice _ _ _)); [|done].
  all: intros [= <- _]; cbn [fst snd]; split; [done|].
  all: apply decode_dna_to_bits_length in Ha; rewrite length_take in Ha.
  all: pose proof (int2_range address_bits) as Hr.
  all: assert (2 ^ Z.of_nat (length address_bits) <= 2 ^ 19)%Z
         by (apply Z.pow_le_mono_r; lia).
  all: lia.
Qed.

End RowFacts.

(** ** The decoded segment map and its sorted keys *)

Module MapFacts.
Import PyBits PyBitsFacts Encoder Decoder Spec SymbolFacts LayoutFacts
  BatchFacts RowFacts.

Global Instance key_le_trans : Transitive key_le.
Proof. intros [a1 b1] [a2 b2] [a3 b3]. unfold key_le. cbn. lia. Qed.

Global Instance key_le_antisymm : AntiSymm (=) key_le.
Proof.
  intros [a1 b1] [a2 b2]. unfold key_le. cbn. intros H1 H2.
  f_equal; lia.
Qed.

Global Instance key_le_total : Total key_le.
Proof. intros [a1 b1] [a2 b2]. unfold key_le. cbn. lia. Qed.

Lemma key_lt_le (k1 k2 : Z * Z) : key_lt k1 k2 -> key_le k1 k2.
Proof. unfold key_lt, key_le. lia. Qed.

Lemma key_lt_irrefl (k : Z * Z) : ~ key_lt k k.
Proof. unfold key_lt. lia. Qed.

Lemma StronglySorted_key_lt_NoDup (keys : list (Z * Z)) :
  StronglySorted key_lt keys -> NoDup keys.
Proof.
  induction 1 as [|k keys _ IH Hall]; constructor; [|done].
  intros Hin. rewrite Forall_forall in Hall.
  by apply (key_lt_irrefl k), Hall.
Qed.

Lemma StronglySorted_key_lt_le (keys : list (Z * Z)) :
  StronglySorted key_lt keys -> Sorted key_le keys.
Proof.
  intros Hs. apply StronglySorted_Sorted.
  induction Hs as [|k keys _ IH Hall]; constructor; [done|].
  eapply Forall_impl; [exact Hall|]. apply key_lt_le.
Qed.

(** Storing entries one after the other, no key twice, builds the map of
    the entries. *)
Lemma foldl_insert_list_to_map (kvs : list ((Z * Z) * list bool)) :
  NoDup kvs.*1 ->
  foldl (fun m kv => <[kv.1 := kv.2]> m) (∅ : gmap (Z * Z) (list bool)) kvs
  = list_to_map kvs.
Proof.
  induction kvs as [|[key data] kvs IH] using rev_ind; intros Hnodup; [done|].
  rewrite fmap_app in Hnodup. apply NoDup_app in Hnodup as (Hkvs & Hfresh & _).
  rewrite foldl_snoc, IH by done. cbn [fst snd].
  rewrite list_to_map_snoc; [done|].
  intros Hin. apply (Hfresh key Hin). cbn. apply list_elem_of_here.
Qed.

(** The sorted keys of the map of a list of entries whose keys increase are
    the keys of the list. *)
Lemma sorted_keys_list_to_map (kvs : list ((Z * Z) * list bool)) :
  StronglySorted key_lt kvs.*1 ->
  sorted_keys (list_to_map kvs) = kvs.*1.
Proof.
  intros Hsorted. pose proof (StronglySorted_key_lt_NoDup _ Hsorted) as Hnodup.
  unfold sorted_keys.
  apply (Sorted_unique key_le).
  - apply (Sorted_merge_sort key_le).
  - by apply StronglySorted_key_lt_le.
  - rewrite merge_sort_Permutation, dom_list_to_map_L.
    by apply elements_list_to_set.
Qed.

Lemma lookup_total_list_to_map (kvs : list ((Z * Z) * list bool)) :
  NoDup kvs.*1 ->
  (fun key => (list_to_map kvs : gmap (Z * Z) (list bool)) !!! key) <$> kvs.*1
  = kvs.*2.
Proof.
  intros Hnodup. rewrite <- list_fmap_compose.
  apply list_fmap_ext. intros i [key data] Hi. cbn.
  apply lookup_total_correct, elem_of_list_to_map_1; [done|].
  by eapply list_elem_of_lookup_2.
Qed.

(** The bit stream reassembled from such a map is the payloads of the
    entries, one after the other. *)
Lemma reassemble_list_to_map (kvs : list ((Z * Z) * list bool)) (total : Z) :
  StronglySorted key_lt kvs.*1 ->
  reassemble (list_to_map kvs) total
  = if bool_decide (total > 0)%Z
    then take (Z.to_nat (total * 8)) (concat kvs.*2)
    else concat kvs.*2.
Proof.
  intros Hsorted. unfold reassemble.
  rewrite sorted_keys_list_to_map by done.
  by rewrite lookup_total_list_to_map
    by (by apply StronglySorted_key_lt_NoDup).
Qed.

Lemma concat_mjoin {A} (ls : list (list A)) : concat ls = mjoin ls.
Proof. induction ls as [|l ls IH]; [done|]. cbn. by rewrite IH. Qed.

(** The keys of the layout of a file increase. *)
Lemma layout_key_block (bits : list bool) (block_size_bytes : nat)
    (blocks : list nat) (kj : nat * nat) :
  kj ∈ file_layout bits block_size_bytes blocks ->
  kj.1 ∈ blocks
  /\ (kj.2 < segments_of (block_bytes bits block_size_bytes kj.1))%nat.
Proof.
  unfold file_layout. intros Hin. rewrite concat_mjoin in Hin.
  apply list_elem_of_join in Hin as (l & Hkj & Hl).
  apply list_elem_of_fmap in Hl as (k & -> & Hk).
  unfold block_layout in Hkj.
  apply list_elem_of_fmap in Hkj as (j & -> & Hj).
  apply elem_of_seq in Hj. cbn [fst snd]. split; [done|lia].
Qed.

Lemma StronglySorted_seq (a n : nat) : StronglySorted lt (seq a n).
Proof.
  revert a. induction n as [|n IH]; intros a; cbn [seq]; constructor; [done|].
  apply Forall_forall. intros x Hx%elem_of_seq. lia.
Qed.

Lemma file_layout_sorted (bits : list bool) (block_size_bytes k0 n : nat) :
  StronglySorted key_lt
    (layout_key <$> file_layout bits block_size_bytes (seq k0 n)).
Proof.
  revert k0. induction n as [|n IH]; intros k0; [constructor|].
  cbn [seq]. unfold file_layout. rewrite fmap_cons. cbn [concat].
  rewrite fmap_app. apply StronglySorted_app_2.
  - intros key1 key2 Hin1 Hin2.
    apply list_elem_of_fmap in Hin1 as (kj1 & -> & Hin1).
    apply list_elem_of_fmap in Hin2 as (kj2 & -> & Hin2).
    apply layout_key_block in Hin2 as [Hk2 _]. apply elem_of_seq in Hk2.
    unfold block_layout in Hin1.
    apply list_elem_of_fmap in Hin1 as (j & -> & _).
    unfold key_lt, layout_key. cbn. lia.
  - unfold block_layout. rewrite <- list_fmap_compose.
    eapply StronglySorted_fmap; [|apply StronglySorted_seq].
    intros j1 j2 Hlt. unfold key_lt, layout_key, segment_address. cbn. lia.
  - apply IH.
Qed.

End MapFacts.

(** ** The reassembled bit stream *)

Module StreamFacts.
Import PyBits PyBitsFacts Encoder Decoder Spec SymbolFacts LayoutFacts MapFacts.

Local Open Scope nat_scope.

Lemma ceil_div_cases (len w : nat) :
  0 < w ->
  ((len + w - 1) / w = 0 /\ len = 0)
  \/ exists m, (len + w - 1) / w = S m /\ w * m < len <= w * S m.
Proof.
  intros Hw.
  pose proof (Nat.div_mod_eq (len + w - 1) w) as Hdm.
  pose proof (Nat.mod_upper_bound (len + w - 1) w ltac:(lia)) as Hr.
  destruct ((len + w - 1) / w) as [|m].
  - left. split; [done|]. lia.
  - right. exists m. split; [done|]. nia.
Qed.

Lemma concat_chunks {A} (w : nat) (l : list A) (m : nat) :
  concat (chunk w l <$> seq 0 m) = take (m * w) l.
Proof.
  induction m as [|m IH]; [done|].
  rewrite seq_S, fmap_app, concat_app, IH. cbn [fmap list_fmap concat].
  rewrite app_nil_r. unfold chunk. cbn [Nat.add].
  rewrite take_take_drop. f_equal. lia.
Qed.

Lemma length_chunk_full {A} (w : nat) (l : list A) (k : nat) :
  (k + 1) * w <= length l -> length (chunk w l k) = w.
Proof. intros Hk. unfold chunk. rewrite length_take, length_drop. lia. Qed.

Lemma slice_chunk {A} (w : nat) (l : list A) (k : nat) :
  slice (k * w) (k * w + w) l = chunk w l k.
Proof. unfold slice, chunk. f_equal. lia. Qed.

Lemma block_bits_chunk (bits : list bool) (block_size_bytes k : nat) :
  block_bits bits block_size_bytes k = chunk (block_size_bytes * 8) bits k.
Proof.
  unfold block_bits, slice, chunk.
  replace (k * block_size_bytes * 8) with (k * (block_size_bytes * 8)) by lia.
  set (a := k * (block_size_bytes * 8)). set (w := block_size_bytes * 8).
  destruct (decide (a + w <= length bits)) as [Hle|Hgt].
  - f_equal. lia.
  - rewrite !take_ge; [done| |]; rewrite length_drop; lia.
Qed.

Lemma ljust_full (s : list bool) : 96 <= length s -> ljust 96 s = s.
Proof.
  intros Hlen. unfold ljust. replace (96 - length s) with 0 by lia.
  apply app_nil_r.
Qed.

Lemma padded_full (bits : list bool) :
  length bits `mod` 96 = 0 -> padded bits = bits.
Proof.
  intros Hmod. unfold padded.
  pose proof (Nat.div_mod_eq (length bits) 96) as Hdm. rewrite Hmod in Hdm.
  replace ((length bits + 95) / 96) with (length bits / 96).
  - replace (96 * (length bits / 96) - length bits) with 0 by lia.
    apply app_nil_r.
  - rewrite Hdm at 2.
    replace (96 * (length bits / 96) + 0 + 95) with (95 + (length bits / 96) * 96)
      by lia.
    by rewrite Nat.div_add by lia.
Qed.

(** The payloads of the segments of a block, one after the other, are the
    bits of the block followed by the padding of its last segment. *)
Lemma concat_payloads (bb : list bool) :
  concat (segment_payload bb 96 <$> seq 0 ((length bb + 95) / 96)) = padded bb.
Proof.
  unfold padded.
  assert (Hpayload : forall j, segment_payload bb 96 j = ljust 96 (chunk 96 bb j)).
  { intros j. unfold segment_payload. by rewrite slice_chunk. }
  destruct (ceil_div_cases (length bb) 96 ltac:(lia)) as [[Hn Hlen]|(m & Hn & Hm)];
    replace (length bb + 96 - 1) with (length bb + 95) in Hn by lia;
    rewrite Hn.
  - destruct bb; [done|]. cbn in Hlen. lia.
  - rewrite seq_S, fmap_app, concat_app. cbn [fmap list_fmap concat Nat.add].
    rewrite app_nil_r.
    assert (segment_payload bb 96 <$> seq 0 m = chunk 96 bb <$> seq 0 m) as ->.
    { apply list_fmap_ext. intros i j Hj.
      apply list_elem_of_lookup_2, elem_of_seq in Hj.
      rewrite Hpayload. apply ljust_full.
      rewrite length_chunk_full; lia. }
    rewrite concat_chunks, Hpayload. unfold ljust, chunk.
    rewrite (take_ge (drop _ _)) by (rewrite length_drop; lia).
    rewrite length_drop, app_assoc, take_drop. f_equal. f_equal. lia.
Qed.

(** The same, for all the blocks of a file. *)
Lemma concat_layout_payloads (bits : list bool) (block_size_bytes : nat)
    (blocks : list nat) :
  concat (layout_payload bits block_size_bytes
            <$> file_layout bits block_size_bytes blocks)
  = concat ((fun k => padded (block_bits bits block_size_bytes k)) <$> blocks).
Proof.
  induction blocks as [|k blocks IH]; [done|].
  unfold file_layout in *. rewrite !fmap_cons. cbn [concat].
  rewrite fmap_app, concat_app, IH. f_equal.
  unfold block_layout. rewrite <- list_fmap_compose.
  unfold segments_of, block_bytes. rewrite ceil_div_8_12.
  apply (concat_payloads (block_bits bits block_size_bytes k)).
Qed.

(** When every block but the last is a whole number of payloads, the
    stream is the bits of the file followed by padding. *)
Lemma concat_padded_blocks (bits : list bool) (block_size_bytes m : nat) :
  let w := block_size_bytes * 8 in
  w * m < length bits <= w * S m ->
  (w `mod` 96 = 0 \/ m = 0) ->
  exists pad : nat,
    concat ((fun k => padded (block_bits bits block_size_bytes k)) <$> seq 0 (S m))
    = bits ++ replicate pad false.
Proof.
  intros w Hm Hcond.
  rewrite seq_S, fmap_app, concat_app. cbn [fmap list_fmap concat Nat.add].
  rewrite app_nil_r.
  assert ((fun k => padded (block_bits bits block_size_bytes k)) <$> seq 0 m
          = chunk w bits <$> seq 0 m) as ->.
  { apply list_fmap_ext. intros i k Hk.
    apply list_elem_of_lookup_2, elem_of_seq in Hk.
    rewrite block_bits_chunk. fold w. apply padded_full.
    rewrite length_chunk_full by nia.
    destruct Hcond as [Hmod|Hone]; [done|lia]. }
  rewrite concat_chunks, block_bits_chunk. fold w. unfold padded, chunk.
  rewrite (take_ge (drop _ _)) by (rewrite length_drop; nia).
  rewrite app_assoc, take_drop. by eexists.
Qed.

End StreamFacts.

(** ** Round trip *)

Module RoundTrip.
Import PyBits PyBitsFacts Encoder Decoder Spec SymbolFacts LayoutFacts
  BatchFacts RowFacts MapFacts StreamFacts.

Local Open Scope nat_scope.

Section Decoding.
Variables (rnd : nat -> bool) (bits : list bool).
Variables (forward_primer reverse_primer : list ascii).
Variables (block_size_bytes total_data_size : nat).

Let is_row := is_row rnd bits forward_primer reverse_primer block_size_bytes
                total_data_size.

(** The decoded segment map of rows that follow a layout, when every
    address of the layout fits in 19 bits. *)
Lemma foldl_contribute_rows (layout : list (nat * nat)) (rows : list csv_row)
    (m : gmap (Z * Z) (list bool)) :
  clean_primers forward_primer reverse_primer ->
  Forall2 (fun kj row => is_row kj.1 kj.2 row) layout rows ->
  Forall (fun kj => (segment_address kj.2 < 2 ^ 19)%Z) layout ->
  foldl (contribute forward_primer reverse_primer) m rows
  = foldl (fun m kv => <[kv.1 := kv.2]> m) m
      (layout_entry bits block_size_bytes <$> layout).
Proof.
  intros Hclean Hrows. revert m.
  induction Hrows as [|[k j] row layout rows Hrow _ IH]; intros m Hbound; [done|].
  apply Forall_cons in Hbound as [Hj Hbound].
  rewrite fmap_cons. cbn [foldl]. rewrite <- IH by done. f_equal.
  destruct (is_row_contribution rnd bits forward_primer reverse_primer
              block_size_bytes total_data_size k j row Hclean Hrow Hj)
    as [_ Hcontribution].
  unfold contribute. by rewrite Hcontribution.
Qed.

Lemma process_row_total (st : state) (row_num : nat) (row : csv_row) :
  total_file_size
    (info (process_row forward_primer reverse_primer st row_num row))
  = default (total_file_size (info st)) (col_total_file_size row).
Proof.
  unfold process_row.
  destruct (read_block_columns row st) as [block_index st1] eqn:Hread.
  assert (total_file_size (info st1)
          = default (total_file_size (info st)) (col_total_file_size row)) as <-
    by (by injection Hread as _ <-).
  destruct (extract_oligo_parts _ _ _) as [[[address_dna data_dna] crc32_dna]|];
    [|done].
  destruct (decode_dna_to_bits address_dna); [|done].
  destruct (decode_dna_to_bits data_dna); [|done].
  destruct (32 <=? length crc32_dna); [|done].
  destruct (decode_dna_to_bits (take 32 crc32_dna)); [|done].
  by destruct (verify_crc32_checksum _ _).
Qed.

Lemma row_loop_total (rows : list csv_row) (st : state) (row_num : nat) (t : Z) :
  Forall (fun row => col_total_file_size row = Some t) rows -> rows <> [] ->
  total_file_size (info (row_loop forward_primer reverse_primer st row_num rows))
  = t.
Proof.
  intros Hall. revert st row_num.
  induction Hall as [|row rows Hrow Hall IH]; intros st row_num Hne; [done|].
  cbn [row_loop]. destruct rows as [|row' rows].
  - cbn [row_loop]. by rewrite process_row_total, Hrow.
  - by apply IH.
Qed.

End Decoding.

Lemma segments_of_mono (a b : nat) : a <= b -> segments_of a <= segments_of b.
Proof. intros Hle. unfold segments_of. apply Nat.Div0.div_le_mono. lia. Qed.

Lemma segments_of_small (a : nat) :
  (Z.of_nat a <= 12 * 524287)%Z -> (Z.of_nat (segments_of a) <= 524287)%Z.
Proof.
  intros Ha. unfold segments_of. rewrite Nat2Z.inj_div, Nat2Z.inj_add.
  change (Z.of_nat 11) with 11%Z. change (Z.of_nat 12) with 12%Z.
  change 524287%Z with ((12 * 524287 + 11) / 12)%Z.
  apply Z.div_le_mono; lia.
Qed.

(** C1 (as amended). Round trip: for a non-empty byte sequence, a block
    size that is a multiple of 12 bytes or holds the whole sequence, and
    blocks of at most 524287 segments, decoding what [encode_file_to_dna]
    writes, with the primer pair it was given, writes back exactly the
    byte sequence, for every choice of synonyms. *)
Theorem round_trip (rnd : nat -> bool) (binary_data : list Z)
    (block_size_bytes : nat) (forward_primer reverse_primer : list ascii)
    (check_file_size : bool) (max_file_size : nat) :
  Forall (fun b => (0 <= b < 256)%Z) binary_data ->
  binary_data <> [] ->
  0 < block_size_bytes ->
  (block_size_bytes `mod` 12 = 0 \/ length binary_data <= block_size_bytes) ->
  (Z.of_nat (block_size_bytes `min` length binary_data) <= 12 * 524287)%Z ->
  (forward_primer = [] \/ length forward_primer = 22) ->
  (reverse_primer = [] \/ length reverse_primer = 22) ->
  clean_primers forward_primer reverse_primer ->
  (check_file_size = false \/ length binary_data <= max_file_size) ->
  exists e,
    encode_file_to_dna rnd binary_data (Some forward_primer)
      (Some reverse_primer) check_file_size max_file_size block_size_bytes
    = Ok e
    /\ written (decode_oligos_from_csv (csv_rows e) forward_primer
                  reverse_primer true)
       = Some binary_data.
Proof.
  intros Hbytes Hne HS Hcond Hsmall HF HR Hclean Hsize.
  destruct (encode_file_to_dna_layout rnd binary_data (Some forward_primer)
              (Some reverse_primer) check_file_size max_file_size
              block_size_bytes HF HR Hsize ltac:(lia))
    as (e & Hencode & Hblocks & _ & _ & Hrows).
  cbn [default] in Hrows.
  exists e. split; [done|].
  set (bits := bytes_to_bits binary_data) in *.
  assert (length bits = 8 * length binary_data) as Hlen
    by (by apply length_bytes_to_bits).
  assert (0 < length binary_data) as Hpos by (destruct binary_data; [done|cbn; lia]).
  set (layout := file_layout bits block_size_bytes (seq 0 (num_blocks e))) in *.
  set (kvs := layout_entry bits block_size_bytes <$> layout).
  (* every address fits *)
  assert (Forall (fun kj => (segment_address kj.2 < 2 ^ 19)%Z) layout) as Hfit.
  { apply Forall_forall. intros [k j] Hin.
    apply layout_key_block in Hin as [_ Hj]. cbn [fst snd] in *.
    assert (block_bytes bits block_size_bytes k
            <= block_size_bytes `min` length binary_data) as Hactual.
    { unfold block_bytes. rewrite length_block_bits.
      apply Nat.lt_succ_r, Nat.Div0.div_lt_upper_bound. lia. }
    pose proof (segments_of_mono _ _ Hactual) as Hmono.
    pose proof (segments_of_small _ Hsmall) as Hmax.
    unfold segment_address. lia. }
  (* the keys of the layout increase *)
  assert (StronglySorted key_lt kvs.*1) as Hsorted.
  { unfold kvs. rewrite <- list_fmap_compose.
    apply (file_layout_sorted bits block_size_bytes 0 (num_blocks e)). }
  (* the stream is the bits of the file and some padding *)
  assert (exists pad, concat kvs.*2 = bits ++ replicate pad false) as [pad Hstream].
  { unfold kvs. rewrite <- list_fmap_compose.
    change (snd ∘ layout_entry bits block_size_bytes)
      with (layout_payload bits block_size_bytes).
    unfold layout. rewrite concat_layout_payloads, Hblocks, Hlen.
    replace (8 * length binary_data / 8) with (length binary_data)
      by (by rewrite Nat.mul_comm, Nat.div_mul).
    destruct (ceil_div_cases (length binary_data) block_size_bytes HS)
      as [[_ Hzero]|(m & -> & Hm)]; [lia|].
    apply concat_padded_blocks; [nia|].
    destruct Hcond as [Hmod|Hone].
    - left. apply Nat.Div0.mod_divides in Hmod as [q ->].
      replace (12 * q * 8) with (q * 96) by lia. apply Nat.Div0.mod_mul.
    - right. nia. }
  (* the decoder *)
  unfold decode_oligos_from_csv.
  cbn [written total_file_size andb].
  rewrite (row_loop_blocks forward_primer reverse_primer).
  change (decoded_blocks initial) with (∅ : gmap (Z * Z) (list bool)).
  rewrite (foldl_contribute_rows rnd bits forward_primer reverse_primer
             block_size_bytes (length binary_data) layout (csv_rows e) ∅
             Hclean Hrows Hfit).
  fold kvs. rewrite foldl_insert_list_to_map
    by (by apply StronglySorted_key_lt_NoDup).
  assert (kvs <> []) as Hkvs.
  { intros Hnil. rewrite Hnil in Hstream. cbn in Hstream.
    apply (f_equal length) in Hstream. rewrite length_app, Hlen in Hstream.
    cbn in Hstream. lia. }
  assert (csv_rows e <> []) as Hrowsne.
  { intros Hnil. rewrite Hnil in Hrows. apply Forall2_nil_inv_r in Hrows.
    unfold kvs in Hkvs. by rewrite Hrows in Hkvs. }
  rewrite bool_decide_eq_false_2.
  2: { intros Hempty. destruct kvs as [|[key data] kvs']; [done|].
       apply (f_equal (fun m : gmap (Z * Z) (list bool) => m !! key)) in Hempty.
       rewrite list_to_map_cons, lookup_insert_eq, lookup_empty in Hempty.
       done. }
  cbn [negb].
  rewrite (row_loop_total forward_primer reverse_primer (csv_rows e) initial 2
             (Z.of_nat (length binary_data))); [| |done].
  2: { eapply Forall2_Forall_r; [exact Hrows|].
       apply Forall_forall. intros kj _ row Hrow.
       by destruct Hrow as (_ & _ & _ & _ & _ & _ & _ & Htotal). }
  rewrite reassemble_list_to_map by done.
  rewrite bool_decide_eq_true_2 by lia.
  rewrite Hstream.
  replace (Z.to_nat (Z.of_nat (length binary_data) * 8)) with (length bits) by lia.
  rewrite take_app_length, Hlen.
  replace (8 * length binary_data / 8) with (length binary_data)
    by (by rewrite Nat.mul_comm, Nat.div_mul).
  rewrite (proj2 (Nat.ltb_lt _ _) Hpos).
  rewrite take_ge by lia.
  by rewrite to_bytes_bytes_to_bits.
Qed.

Lemma round_trip_witness :
  exists e,
    encode_file_to_dna (fun n => Nat.even n) [72; 105; 33]%Z
      (Some DEFAULT_FORWARD_PRIMER) (Some DEFAULT_REVERSE_PRIMER) false 0 1024
    = Ok e
    /\ written (decode_oligos_from_csv (csv_rows e) DEFAULT_FORWARD_PRIMER
                  DEFAULT_REVERSE_PRIMER true)
       = Some [72; 105; 33]%Z.
Proof.
  apply (round_trip (fun n => Nat.even n) [72; 105; 33]%Z 1024
           DEFAULT_FORWARD_PRIMER DEFAULT_REVERSE_PRIMER false 0).
  - repeat constructor; lia.
  - discriminate.
  - lia.
  - right. cbn. lia.
  - cbn. lia.
  - right. reflexivity.
  - right. reflexivity.
  - split; intros c Hc; injection Hc as <-; reflexivity.
  - left. reflexivity.
Defined.

End RoundTrip.

(** ** Segment addresses within a block *)

Module Addresses.
Import PyBits PyBitsFacts Encoder Decoder Spec SymbolFacts LayoutFacts
  BatchFacts RowFacts MapFacts StreamFacts RoundTrip.

Local Open Scope nat_scope.

Lemma filter_block_layout (bits : list bool) (block_size_bytes k k' : nat) :
  filter (fun kj : nat * nat => kj.1 = k) (block_layout bits block_size_bytes k')
  = if decide (k' = k) then block_layout bits block_size_bytes k' else [].
Proof.
  unfold block_layout.
  generalize (seq 0 (segments_of (block_bytes bits block_size_bytes k'))).
  intros js. induction js as [|j js IH].
  - by destruct (decide (k' = k)).
  - rewrite fmap_cons, filter_cons. cbn [fst]. rewrite IH.
    by destruct (decide (k' = k)).
Qed.

Lemma filter_file_layout_other (bits : list bool) (block_size_bytes k : nat)
    (blocks : list nat) :
  k ∉ blocks ->
  filter (fun kj : nat * nat => kj.1 = k)
    (file_layout bits block_size_bytes blocks) = [].
Proof.
  unfold file_layout. induction blocks as [|k' blocks IH]; [done|].
  intros Hnotin. apply not_elem_of_cons in Hnotin as [Hne Hnotin].
  rewrite fmap_cons. cbn [concat].
  rewrite filter_app, filter_block_layout, IH by done.
  by rewrite decide_False by done.
Qed.

Lemma filter_file_layout (bits : list bool) (block_size_bytes k : nat)
    (blocks : list nat) :
  NoDup blocks -> k ∈ blocks ->
  filter (fun kj : nat * nat => kj.1 = k)
    (file_layout bits block_size_bytes blocks)
  = block_layout bits block_size_bytes k.
Proof.
  intros Hnodup. induction Hnodup as [|k' blocks Hnotin _ IH].
  - by intros ?%elem_of_nil.
  - intros Hin. change (file_layout bits block_size_bytes (k' :: blocks))
      with (block_layout bits block_size_bytes k'
            ++ file_layout bits block_size_bytes blocks).
    rewrite filter_app, filter_block_layout.
    destruct (decide (k' = k)) as [->|Hne].
    + by rewrite filter_file_layout_other, app_nil_r.
    + apply elem_of_cons in Hin as [->|Hin]; [done|]. by apply IH.
Qed.

Section Blocks.
Variables (rnd : nat -> bool) (bits : list bool).
Variables (forward_primer reverse_primer : list ascii).
Variables (block_size_bytes total_data_size : nat).
Variables (blocks : list nat) (rows : list csv_row).

Hypothesis Hblocks : NoDup blocks.
Hypothesis Hrows :
  Forall2 (fun kj row =>
             is_row rnd bits forward_primer reverse_primer block_size_bytes
               total_data_size kj.1 kj.2 row)
    (file_layout bits block_size_bytes blocks) rows.

(** The rows of block [k] are its segments in order. *)
Lemma rows_of_block (k : nat) :
  k ∈ blocks ->
  Forall2 (fun kj row =>
             is_row rnd bits forward_primer reverse_primer block_size_bytes
               total_data_size kj.1 kj.2 row)
    (block_layout bits block_size_bytes k)
    (filter (fun row => col_block_index row = Some (Z.of_nat k)) rows).
Proof.
  intros Hk. rewrite <- (filter_file_layout bits block_size_bytes k blocks) by done.
  eapply Forall2_filter; [|exact Hrows].
  intros [k' j] row (Hidx & _). cbn [fst]. rewrite Hidx.
  split; [by intros ->|]. intros [= Heq]. lia.
Qed.

(** The addresses written for block [k] are 1, 2, ... up to the number of
    segments of the block. *)
Lemma produced_addresses (k : nat) :
  k ∈ blocks ->
  let rows_k := filter (fun row => col_block_index row = Some (Z.of_nat k)) rows in
  let actual := block_bytes bits block_size_bytes k in
  Forall (fun row => col_actual_block_size row = Some (Z.of_nat actual)) rows_k
  /\ int2 ∘ col_address <$> rows_k = seqZ 1 (Z.of_nat (segments_of actual)).
Proof.
  intros Hk rows_k actual. pose proof (rows_of_block k Hk) as Hrows_k.
  fold rows_k in Hrows_k. split.
  - eapply Forall2_Forall_r; [exact Hrows_k|].
    apply Forall_forall. intros kj Hkj row Hrow.
    unfold block_layout in Hkj. apply list_elem_of_fmap in Hkj as (j & -> & _).
    by destruct Hrow as (_ & _ & _ & _ & _ & _ & Hactual & _).
  - unfold block_layout in Hrows_k. fold actual in Hrows_k.
    unfold seqZ. rewrite Nat2Z.id.
    apply Forall2_fmap_l in Hrows_k. cbn [fst snd] in Hrows_k.
    generalize dependent rows_k. generalize (seq 0 (segments_of actual)).
    intros js rows_k Hrows_k. induction Hrows_k as [|j row js rows_k Hrow _ IH];
      [done|].
    rewrite !fmap_cons, IH. f_equal.
    destruct Hrow as (_ & Ha & _). unfold compose. rewrite Ha.
    rewrite int2_format_b by (unfold segment_address; lia).
    unfold segment_address. cbn [snd]. lia.
Qed.

(** The keys of the decoded segment map come from the rows. *)
Lemma dom_foldl_contribute (rows' : list csv_row) (m : gmap (Z * Z) (list bool))
    (key : Z * Z) :
  key ∈ dom (foldl (contribute forward_primer reverse_primer) m rows')
  <-> key ∈ dom m
      \/ exists row data, row ∈ rows'
           /\ contribution forward_primer reverse_primer row = Some (key, data).
Proof.
  revert m. induction rows' as [|row rows' IH]; intros m.
  - cbn. split; [by left|]. intros [?|(row & data & Hin & _)]; [done|].
    by apply elem_of_nil in Hin.
  - cbn [foldl]. rewrite IH. unfold contribute.
    destruct (contribution forward_primer reverse_primer row)
      as [[key' data']|] eqn:Hc.
    + rewrite dom_insert_L, elem_of_union, elem_of_singleton. split.
      * intros [[->|Hm]|(row' & data & Hin & Hrow')]; [|by left|].
        -- right. exists row, data'. split; [apply list_elem_of_here|done].
        -- right. exists row', data. split; [by apply list_elem_of_further|done].
      * intros [Hm|(row' & data & Hin & Hrow')]; [by left; right|].
        apply elem_of_cons in Hin as [->|Hin].
        -- rewrite Hc in Hrow'. injection Hrow' as -> _. by left; left.
        -- right. by exists row', data.
    + split.
      * intros [Hm|(row' & data & Hin & Hrow')]; [by left|].
        right. exists row', data. split; [by apply list_elem_of_further|done].
      * intros [Hm|(row' & data & Hin & Hrow')]; [by left|].
        apply elem_of_cons in Hin as [->|Hin]; [congruence|].
        right. by exists row', data.
Qed.

(** The addresses that decoding finds for block [k], when the block has at
    most 524287 segments. *)
Lemma decoded_addresses_of_block (k : nat) :
  clean_primers forward_primer reverse_primer ->
  k ∈ blocks ->
  (Z.of_nat (segments_of (block_bytes bits block_size_bytes k)) <= 524287)%Z ->
  forall a : Z,
    (Z.of_nat k, a)
      ∈ dom (foldl (contribute forward_primer reverse_primer) ∅ rows)
    <-> (1 <= a <= Z.of_nat (segments_of (block_bytes bits block_size_bytes k)))%Z.
Proof.
  intros Hclean Hk Hsmall a. rewrite dom_foldl_contribute. split.
  - intros [Hempty|(row & data & Hin & Hc)]; [by rewrite dom_empty_L in Hempty|].
    apply list_elem_of_lookup in Hin as [i Hi].
    destruct (Forall2_lookup_r _ _ _ _ _ Hrows Hi) as ([k' j] & Hkj & Hrow).
    apply list_elem_of_lookup_2, layout_key_block in Hkj as [Hk' Hj].
    cbn [fst snd] in *.
    pose proof (contribution_key _ _ _ _ _ Hc) as [Hblock _].
    pose proof Hrow as (Hidx & _). rewrite Hidx in Hblock. cbn in Hblock.
    assert (k' = k) as -> by lia.
    destruct (is_row_contribution rnd bits forward_primer reverse_primer
                block_size_bytes total_data_size k j row Hclean Hrow)
      as [_ Hc']; [unfold segment_address; lia|].
    rewrite Hc in Hc'. injection Hc' as -> _.
    unfold segment_address. lia.
  - intros Ha. right.
    set (j := Z.to_nat (a - 1)).
    assert ((k, j) ∈ block_layout bits block_size_bytes k) as Hkj.
    { unfold block_layout. apply list_elem_of_fmap. exists j. split; [done|].
      apply elem_of_seq. lia. }
    apply list_elem_of_lookup in Hkj as [i Hi].
    destruct (Forall2_lookup_l _ _ _ _ _ (rows_of_block k Hk) Hi)
      as (row & Hrow_i & Hrow). cbn [fst snd] in Hrow.
    destruct (is_row_contribution rnd bits forward_primer reverse_primer
                block_size_bytes total_data_size k j row Hclean Hrow)
      as [_ Hc]; [unfold segment_address; lia|].
    exists row, (segment_payload (block_bits bits block_size_bytes k) 96 j).
    split.
    + apply list_elem_of_lookup_2 in Hrow_i.
      by apply list_elem_of_filter in Hrow_i as [_ ?].
    + rewrite Hc. do 3 f_equal. unfold segment_address, j. lia.
Qed.

End Blocks.

(** The decoded addresses of a block are listed in increasing order, each
    once. *)
Lemma decoded_addresses_sorted (decoded : gmap (Z * Z) (list bool)) (k : Z) :
  StronglySorted Z.le (decoded_addresses decoded k)
  /\ NoDup (decoded_addresses decoded k)
  /\ forall a, a ∈ decoded_addresses decoded k <-> (k, a) ∈ dom decoded.
Proof.
  unfold decoded_addresses, sorted_keys.
  pose proof (Sorted_merge_sort key_le (elements (dom decoded))) as Hsorted.
  apply Sorted_StronglySorted in Hsorted; [|apply _].
  pose proof (merge_sort_Permutation key_le (elements (dom decoded))) as Hperm.
  assert (NoDup (merge_sort key_le (elements (dom decoded)))) as Hnodup
    by (rewrite Hperm; apply NoDup_elements).
  assert (forall key, key ∈ merge_sort key_le (elements (dom decoded))
                      <-> key ∈ dom decoded) as Helem
    by (intros key; rewrite Hperm; apply elem_of_elements).
  generalize dependent (merge_sort key_le (elements (dom decoded))).
  intros keys Hsorted _ Hnodup Helem. split; [|split].
  - clear Hnodup Helem. induction Hsorted as [|key keys _ IH Hall]; [constructor|].
    rewrite filter_cons. destruct (decide (key.1 = k)) as [Hk|Hk]; [|done].
    rewrite fmap_cons. constructor; [done|].
    apply Forall_fmap, Forall_forall. intros key' Hin.
    apply list_elem_of_filter in Hin as [Hk' Hin].
    rewrite Forall_forall in Hall. specialize (Hall key' Hin).
    unfold key_le in Hall. cbn. lia.
  - apply NoDup_fmap_2_strong; [|by apply NoDup_filter].
    intros [k1 a1] [k2 a2] Hin1 Hin2.
    apply list_elem_of_filter in Hin1 as [Hk1 _].
    apply list_elem_of_filter in Hin2 as [Hk2 _].
    cbn in *. congruence.
  - intros a. rewrite list_elem_of_fmap. split.
    + intros ([k' a'] & -> & Hin). apply list_elem_of_filter in Hin as [Hk Hin].
      cbn in *. subst k'. by apply Helem.
    + intros Hin. exists (k, a). split; [done|].
      apply list_elem_of_filter. split; [done|]. by apply Helem.
Qed.

Lemma StronglySorted_seqZ (m n : Z) : StronglySorted Z.le (seqZ m n).
Proof.
  unfold seqZ. eapply StronglySorted_fmap; [|apply StronglySorted_seq].
  intros i j Hlt. cbn. lia.
Qed.

(** A map whose keys for block [k] are the addresses 1 to [n] lists them as
    such. *)
Lemma decoded_addresses_range (decoded : gmap (Z * Z) (list bool)) (k n : Z) :
  (forall a, (k, a) ∈ dom decoded <-> (1 <= a <= n)%Z) ->
  decoded_addresses decoded k = seqZ 1 n.
Proof.
  intros Hdom.
  destruct (decoded_addresses_sorted decoded k) as (Hsorted & Hnodup & Helem).
  apply (StronglySorted_unique Z.le); [done|apply StronglySorted_seqZ|].
  apply NoDup_Permutation; [done|apply NoDup_seqZ|].
  intros a. rewrite Helem, Hdom, elem_of_seqZ. lia.
Qed.

Lemma block_nonempty (binary_data : list Z) (block_size_bytes k : nat) :
  let bits := bytes_to_bits binary_data in
  Forall (fun b => (0 <= b < 256)%Z) binary_data ->
  0 < block_size_bytes ->
  k < (length bits / 8 + block_size_bytes - 1) / block_size_bytes ->
  0 < block_bytes bits block_size_bytes k.
Proof.
  intros bits Hbytes HS Hk. unfold block_bytes. rewrite length_block_bits.
  unfold bits in *. rewrite length_bytes_to_bits in * by done.
  replace (8 * length binary_data / 8) with (length binary_data) in Hk
    by (by rewrite Nat.mul_comm, Nat.div_mul).
  destruct (ceil_div_cases (length binary_data) block_size_bytes HS)
    as [[Hzero _]|(m & Hm & Hlen)]; [lia|].
  rewrite Hm in Hk.
  apply Nat.div_str_pos. nia.
Qed.

(** C4 (as amended). Address monotonicity: in the rows written for any
    block of a file, the block has at least one byte and the addresses are
    exactly 1, 2, ..., ceil(actual_bytes / 12), each once and in increasing
    order (so never 0); after decoding, the addresses found for a block are
    that same range whenever the block has at most 524287 segments, the
    largest address that the 19-bit field can hold. *)
Theorem block_addresses (rnd : nat -> bool) (binary_data : list Z)
    (block_size_bytes : nat) (forward_primer reverse_primer : list ascii)
    (check_file_size : bool) (max_file_size : nat) :
  Forall (fun b => (0 <= b < 256)%Z) binary_data ->
  0 < block_size_bytes ->
  (forward_primer = [] \/ length forward_primer = 22) ->
  (reverse_primer = [] \/ length reverse_primer = 22) ->
  (check_file_size = false \/ length binary_data <= max_file_size) ->
  exists e,
    encode_file_to_dna rnd binary_data (Some forward_primer)
      (Some reverse_primer) check_file_size max_file_size block_size_bytes
    = Ok e
    /\ forall k, k < num_blocks e ->
         let rows_k :=
           filter (fun row => col_block_index row = Some (Z.of_nat k))
             (csv_rows e) in
         let actual_bytes :=
           block_bytes (bytes_to_bits binary_data) block_size_bytes k in
         let n := Z.of_nat ((actual_bytes + 11) / 12) in
         0 < actual_bytes
         /\ Forall (fun row =>
                      col_actual_block_size row = Some (Z.of_nat actual_bytes))
              rows_k
         /\ int2 ∘ col_address <$> rows_k = seqZ 1 n
         /\ (clean_primers forward_primer reverse_primer ->
              (n <= 524287)%Z ->
              forall output_file,
                decoded_addresses
                  (result_blocks
                     (decode_oligos_from_csv (csv_rows e) forward_primer
                        reverse_primer output_file))
                  (Z.of_nat k)
                = seqZ 1 n).
Proof.
  intros Hbytes HS HF HR Hsize.
  destruct (encode_file_to_dna_layout rnd binary_data (Some forward_primer)
              (Some reverse_primer) check_file_size max_file_size
              block_size_bytes HF HR Hsize ltac:(lia))
    as (e & Hencode & Hblocks & _ & _ & Hrows).
  cbn [default] in Hrows.
  exists e. split; [done|]. intros k Hk. cbv zeta.
  assert (k ∈ seq 0 (num_blocks e)) as Hin by (apply elem_of_seq; lia).
  pose proof (NoDup_seq 0 (num_blocks e)) as Hnodup.
  destruct (produced_addresses rnd _ _ _ _ _ _ _ Hnodup Hrows k Hin)
    as [Hactual Haddresses].
  split; [|split; [done|split; [done|]]].
  - apply block_nonempty; [done|done|]. by rewrite <- Hblocks.
  - intros Hclean Hsmall output_file.
    apply decoded_addresses_range. intros a.
    unfold decode_oligos_from_csv. cbn [result_blocks].
    rewrite (row_loop_blocks forward_primer reverse_primer).
    change (decoded_blocks initial) with (∅ : gmap (Z * Z) (list bool)).
    by apply (decoded_addresses_of_block rnd (bytes_to_bits binary_data)
                forward_primer reverse_primer block_size_bytes
                (length binary_data) (seq 0 (num_blocks e)) (csv_rows e)).
Qed.

Lemma block_addresses_witness :
  exists e,
    encode_file_to_dna (fun _ => true) (seqZ 7 30)
      (Some DEFAULT_FORWARD_PRIMER) (Some DEFAULT_REVERSE_PRIMER) false 0 24
    = Ok e
    /\ int2 ∘ col_address
         <$> filter (fun row => col_block_index row = Some 1%Z) (csv_rows e)
       = [1%Z].
Proof.
  destruct (block_addresses (fun _ => true) (seqZ 7 30) 24
              DEFAULT_FORWARD_PRIMER DEFAULT_REVERSE_PRIMER false 0)
    as (e & Hencode & Haddresses).
  - apply Forall_forall. intros b Hb%elem_of_seqZ. lia.
  - lia.
  - right. reflexivity.
  - right. reflexivity.
  - left. reflexivity.
  - exists e. split; [exact Hencode|].
    assert (num_blocks e = 2) as Hnum
      by (vm_compute in Hencode; by injection Hencode as <-).
    destruct (Haddresses 1 ltac:(lia)) as (_ & _ & Hrange & _).
    exact Hrange.
Defined.

Lemma address_overflow_general (size : nat) (binary_data : list Z) :
  Z.of_nat size = 6291456%Z ->
  binary_data = replicate size 0%Z ->
  exists e,
    encode_file_to_dna (fun _ => false) binary_data None None false 0 size = Ok e
    /\ num_blocks e = 1
    /\ Z.of_nat ((block_bytes (bytes_to_bits binary_data) size 0 + 11) / 12)
       = 524288%Z
    /\ int2 ∘ col_address
         <$> filter (fun row => col_block_index row = Some (Z.of_nat 0))
               (csv_rows e)
       = seqZ 1 (Z.of_nat
                   ((block_bytes (bytes_to_bits binary_data) size 0 + 11) / 12))
    /\ decoded_addresses
         (result_blocks
            (decode_oligos_from_csv (csv_rows e) DEFAULT_FORWARD_PRIMER
               DEFAULT_REVERSE_PRIMER true)) 0
       <> seqZ 1 524288.
Proof.
  intros Hsize Hdata.
  assert (Forall (fun b => (0 <= b < 256)%Z) binary_data) as Hbytes
    by (subst binary_data; apply Forall_replicate; lia).
  assert (length binary_data = size) as Hlen
    by (subst binary_data; apply length_replicate).
  clear Hdata.
  destruct (encode_file_to_dna_layout (fun _ => false) binary_data None None
              false 0 size) as (e & Hencode & Hblocks & _ & _ & Hrows);
    [by right|by right|by left|lia|].
  exists e. split; [done|].
  rewrite length_bytes_to_bits, Hlen in Hblocks by done.
  replace (8 * size / 8) with size in Hblocks
    by (by rewrite Nat.mul_comm, Nat.div_mul).
  assert (num_blocks e = 1) as Hone.
  { rewrite Hblocks.
    destruct (ceil_div_cases size size ltac:(lia)) as [[_ Hzero]|(m & -> & Hm)];
      [lia|]. nia. }
  split; [done|split; [|split]].
  - unfold block_bytes. rewrite length_block_bits, length_bytes_to_bits by done.
    rewrite Hlen.
    replace ((size * 8) `min` (8 * size - 0 * size * 8) + 7) with (7 + size * 8)
      by lia.
    rewrite Nat.div_add by lia. change (7 / 8) with 0.
    rewrite Nat2Z.inj_div, !Nat2Z.inj_add, Hsize. reflexivity.
  - assert (0 ∈ seq 0 (num_blocks e)) as Hin by (apply elem_of_seq; lia).
    apply (produced_addresses (fun _ => false) (bytes_to_bits binary_data)
             DEFAULT_FORWARD_PRIMER DEFAULT_REVERSE_PRIMER size
             (length binary_data) (seq 0 (num_blocks e)) (csv_rows e)
             (NoDup_seq 0 (num_blocks e)) Hrows 0 Hin).
  - intros Heq.
    assert (524288%Z ∈ seqZ 1 524288) as Hin by (apply elem_of_seqZ; lia).
    rewrite <- Heq in Hin.
    apply decoded_addresses_sorted in Hin.
    unfold decode_oligos_from_csv in Hin. cbn [result_blocks] in Hin.
    rewrite (row_loop_blocks DEFAULT_FORWARD_PRIMER DEFAULT_REVERSE_PRIMER) in Hin.
    apply dom_foldl_contribute in Hin as [Hin|(row & data & _ & Hc)].
    + change (decoded_blocks initial) with (∅ : gmap (Z * Z) (list bool)) in Hin.
      by rewrite dom_empty_L in Hin.
    + apply contribution_key in Hc as [_ Hbound]. cbn [snd] in Hbound. lia.
Qed.

(** C4, counterexample. A block of 12 * 524288 bytes has 524288 segments;
    the encoder gives them the addresses 1 to 524288, of which the last
    needs 20 bits, and the decoder, which reads 19 symbols, never finds the
    address 524288: the addresses found after decoding are not the range
    1..524288. *)
Lemma address_overflow :
  exists e,
    encode_file_to_dna (fun _ => false) (replicate overflow_size 0%Z) None None
      false 0 overflow_size = Ok e
    /\ num_blocks e = 1
    /\ Z.of_nat
         ((block_bytes (bytes_to_bits (replicate overflow_size 0%Z))
             overflow_size 0 + 11) / 12)
       = 524288%Z
    /\ int2 ∘ col_address
         <$> filter (fun row => col_block_index row = Some (Z.of_nat 0))
               (csv_rows e)
       = seqZ 1 (Z.of_nat
                   ((block_bytes (bytes_to_bits (replicate overflow_size 0%Z))
                       overflow_size 0 + 11) / 12))
    /\ decoded_addresses
         (result_blocks
            (decode_oligos_from_csv (csv_rows e) DEFAULT_FORWARD_PRIMER
               DEFAULT_REVERSE_PRIMER true)) 0
       <> seqZ 1 524288.
Proof.
  apply (address_overflow_general overflow_size (replicate overflow_size 0%Z)).
  - unfold overflow_size. apply Z2Nat.id. lia.
  - reflexivity.
Qed.

End Addresses.

(** ** Reconstruction from block files *)

Module InterfaceFacts.
Import PyBits PyBitsFacts Encoder Decoder Spec Samples SymbolFacts BatchFacts
  MapFacts Interface.

Local Open Scope nat_scope.

(** Every payload that the decoder stores has 96 bits. *)
Lemma contribution_length (forward_primer reverse_primer : list ascii)
    (row : csv_row) (key : Z * Z) (data_bits : list bool) :
  contribution forward_primer reverse_primer row = Some (key, data_bits) ->
  length data_bits = 96.
Proof.
  unfold contribution, row_fields, extract_oligo_parts.
  destruct (checksum_verdict forward_primer reverse_primer row); try done.
  all: destruct (19 + 96 <=? _) eqn:Hlong; [|done].
  all: destruct (decode_dna_to_bits (take 19 _)); [|done].
  all: destruct (decode_dna_to_bits (slice _ _ _)) as [bits|] eqn:Hd; [|done].
  all: intros [= _ <-].
  all: apply decode_dna_to_bits_length in Hd; rewrite Hd.
  all: apply Nat.leb_le in Hlong.
  all: unfold slice; rewrite length_take, length_drop; lia.
Qed.

Lemma foldl_contribute_lengths (forward_primer reverse_primer : list ascii)
    (rows : list csv_row) (m : gmap (Z * Z) (list bool)) :
  map_Forall (fun _ data_bits => length data_bits = 96) m ->
  map_Forall (fun _ data_bits => length data_bits = 96)
    (foldl (contribute forward_primer reverse_primer) m rows).
Proof.
  revert m. induction rows as [|row rows IH]; intros m Hm; [done|].
  cbn [foldl]. apply IH. unfold contribute.
  destruct (contribution forward_primer reverse_primer row)
    as [[key data_bits]|] eqn:Hc; [|done].
  apply map_Forall_insert_2; [|done].
  by eapply contribution_length.
Qed.

(** The stream reassembled from a non-empty map holds at least one byte. *)
Lemma length_reassemble (decoded : gmap (Z * Z) (list bool)) (total : Z) :
  decoded <> ∅ ->
  map_Forall (fun _ data_bits => length data_bits = 96) decoded ->
  8 <= length (reassemble decoded total).
Proof.
  intros Hne Hall. unfold reassemble.
  assert (96 <= length (concat ((fun key => decoded !!! key)
                                  <$> sorted_keys decoded))) as Hlen.
  { unfold sorted_keys.
    pose proof (merge_sort_Permutation key_le (elements (dom decoded))) as Hperm.
    destruct (merge_sort key_le (elements (dom decoded))) as [|key keys] eqn:Hkeys.
    - apply Permutation_nil_l in Hperm. symmetry in Hperm.
      apply elements_empty_inv in Hperm.
      apply leibniz_equiv in Hperm. by apply dom_empty_inv_L in Hperm.
    - assert (key ∈ dom decoded) as Hin.
      { apply elem_of_elements. rewrite <- Hperm. apply list_elem_of_here. }
      apply elem_of_dom in Hin as [data_bits Hkey].
      rewrite fmap_cons. cbn [concat]. rewrite length_app.
      rewrite (lookup_total_correct _ _ _ Hkey).
      rewrite (Hall key data_bits Hkey). lia. }
  destruct (bool_decide (total > 0)%Z) eqn:Htotal; [|lia].
  apply bool_decide_eq_true in Htotal. rewrite length_take. lia.
Qed.

(** A decode that finds segments writes its output file. *)
Lemma written_when_decoded (rows : list csv_row)
    (forward_primer reverse_primer : list ascii) :
  let d := decode_oligos_from_csv rows forward_primer reverse_primer true in
  result_blocks d <> ∅ -> is_Some (written d).
Proof.
  cbv zeta. unfold decode_oligos_from_csv. cbn [result_blocks written andb].
  intros Hne. rewrite bool_decide_eq_false_2 by done. cbn [negb].
  rewrite (proj2 (Nat.ltb_lt _ _)); [done|].
  apply Nat.div_str_pos. split; [lia|].
  apply length_reassemble; [done|].
  rewrite (row_loop_blocks forward_primer reverse_primer).
  by apply foldl_contribute_lengths.
Qed.

(** [decode] never removes a temporary file, and when it succeeds the file
    it was asked to write exists. *)
Lemma decode_temp_dir (self : MolFSDev) (in_file : list csv_row) (out_file : Z) :
  let r := decode self in_file out_file in
  (forall i, is_Some (temp_dir self !! i) -> is_Some (temp_dir r.1 !! i))
  /\ (r.2.1 = true -> is_Some (temp_dir r.1 !! out_file) /\ is_Some r.2.2)
  /\ (r.2.1 = false -> r.2.2 = None).
Proof.
  cbv zeta. unfold decode.
  destruct (get_primers self (Pool self) (Block self)) as [forward_primer reverse_primer].
  pose proof (written_when_decoded in_file forward_primer reverse_primer) as Hwritten.
  cbv zeta in Hwritten.
  set (d := decode_oligos_from_csv in_file forward_primer reverse_primer true) in *.
  destruct (decide (result_blocks d = ∅)) as [Hempty|Hne].
  - rewrite bool_decide_eq_true_2 by done. cbn [negb fst snd temp_dir].
    split; [|done].
    intros i Hi. destruct (written d); [|done].
    destruct (decide (out_file = i)) as [->|Hneq];
      [by rewrite lookup_insert_eq|by rewrite lookup_insert_ne].
  - rewrite bool_decide_eq_false_2 by done. cbn [negb fst snd temp_dir].
    destruct (Hwritten Hne) as [byte_data ->].
    split; [|split; [|done]].
    + intros i Hi. destruct (decide (out_file = i)) as [->|Hneq];
        [by rewrite lookup_insert_eq|by rewrite lookup_insert_ne].
    + intros _. by rewrite lookup_insert_eq.
Qed.

Lemma collect_files_present (block_files : list block_file) (self : MolFSDev)
    (blocks_by_index : gmap Z block_entry) (pools : gset Z) :
  files_present self blocks_by_index ->
  let r := collect self blocks_by_index pools block_files in
  files_present r.1.1 r.1.2.
Proof.
  revert self blocks_by_index pools.
  induction block_files as [|csv_file block_files IH];
    intros self blocks_by_index pools Hinv; [done|].
  cbn [collect].
  set (self1 := Dev (file_pool csv_file) (file_block csv_file) (ValidDecode self)
                  (dev_block_size_bytes self) (primer_registry self)
                  (temp_dir self)).
  pose proof (decode_temp_dir self1 (file_rows csv_file) (file_block csv_file))
    as (Hkeep & Hsuccess & Hfail). cbv zeta in Hkeep, Hsuccess, Hfail.
  destruct (decode self1 (file_rows csv_file) (file_block csv_file))
    as [self2 [success decoded_info]].
  cbn [fst snd] in *.
  assert (files_present self2 blocks_by_index) as Hinv2.
  { intros i entry Hentry. destruct (Hinv i entry Hentry) as [Hfile Hsome].
    split; [done|]. by apply Hkeep. }
  assert (forall block_info' : Decoder.block_info,
            success = true ->
            files_present self2
              (<[file_block csv_file := BlockEntry (file_block csv_file) block_info']>
                 blocks_by_index)) as Hinsert.
  { intros block_info' Hs i entry Hentry.
    destruct (decide (file_block csv_file = i)) as [<-|Hneq].
    - rewrite lookup_insert_eq in Hentry. injection Hentry as <-.
      split; [done|]. by apply Hsuccess.
    - rewrite lookup_insert_ne in Hentry by done. by apply Hinv2. }
  destruct success; [|by apply IH].
  destruct decoded_info as [decoded_info|]; [|by apply IH].
  destruct (blocks_by_index !! file_block csv_file) as [existing_block|].
  - destruct (_ <? _); apply IH; [by apply Hinsert|done].
  - apply IH. by apply Hinsert.
Qed.

(** Copying the block files of the indices [idxs], all of them collected,
    cannot fail: it appends the files in the order of [idxs]. *)
Lemma combine_present (self : MolFSDev) (blocks_by_index : gmap Z block_entry)
    (idxs : list Z) (out : list Z) :
  files_present self blocks_by_index ->
  Forall (fun i => is_Some (blocks_by_index !! i)) idxs ->
  combine (temp_dir self) blocks_by_index idxs out
  = (out ++ concat ((fun i => temp_dir self !!! i) <$> idxs), None).
Proof.
  intros Hinv Hall. revert out.
  induction Hall as [|i idxs [entry Hentry] _ IH]; intros out.
  - cbn. by rewrite app_nil_r.
  - cbn [combine]. rewrite Hentry.
    destruct (Hinv i entry Hentry) as [-> [data Hdata]].
    rewrite Hdata, IH, fmap_cons. cbn [concat].
    by rewrite (lookup_total_correct _ _ _ Hdata), app_assoc.
Qed.

(** [max_block_idx] is the largest collected index. *)
Lemma foldr_max_spec (k : Z) (ks : list Z) :
  let top := foldr Z.max k ks in
  top ∈ k :: ks /\ Forall (fun x => (x <= top)%Z) (k :: ks).
Proof.
  induction ks as [|x ks IH]; cbn [foldr].
  - split; [apply list_elem_of_here|]. repeat constructor. lia.
  - destruct IH as [Hin Hall]. apply Forall_cons in Hall as [Hk Hall].
    split.
    + destruct (Z.max_spec x (foldr Z.max k ks)) as [[_ ->]|[_ ->]].
      * apply elem_of_cons in Hin as [->|Hin];
          [apply list_elem_of_here|by do 2 apply list_elem_of_further].
      * apply list_elem_of_further, list_elem_of_here.
    + repeat constructor; try lia.
      eapply Forall_impl; [exact Hall|]. cbn. lia.
Qed.

Lemma max_block_idx_spec (blocks_by_index : gmap Z block_entry) :
  let top := max_block_idx blocks_by_index in
  (blocks_by_index = ∅ /\ top = (-1)%Z)
  \/ (is_Some (blocks_by_index !! top)
      /\ forall i, is_Some (blocks_by_index !! i) -> (i <= top)%Z).
Proof.
  cbv zeta. unfold max_block_idx.
  destruct (elements (dom blocks_by_index)) as [|k ks] eqn:Hkeys.
  - left. split; [|done]. apply dom_empty_inv_L, leibniz_equiv.
    by apply elements_empty_inv; rewrite Hkeys.
  - right. destruct (foldr_max_spec k ks) as [Hin Hall]. cbv zeta in Hin, Hall.
    rewrite <- Hkeys in Hin, Hall. split.
    + apply elem_of_dom. by apply elem_of_elements.
    + intros i Hi%elem_of_dom%elem_of_elements.
      rewrite Forall_forall in Hall. by apply Hall.
Qed.

End InterfaceFacts.

(** ** The completeness gate and the choice between redundant copies *)

Module Reconstruction.
Import PyBits PyBitsFacts Encoder Decoder Spec Samples SymbolFacts BatchFacts
  MapFacts Interface InterfaceFacts.

Lemma all_present_spec (blocks_by_index : gmap Z block_entry) (top : Z) :
  forallb (fun i => bool_decide (is_Some (blocks_by_index !! i)))
    (seqZ 0 (top + 1)) = true
  <-> forall i, 0 <= i <= top -> is_Some (blocks_by_index !! i).
Proof.
  rewrite forallb_forall. split.
  - intros Hall i Hi. apply (bool_decide_eq_true_1 _), Hall.
    apply list_elem_of_In, elem_of_seqZ. lia.
  - intros Hall i Hi%list_elem_of_In%elem_of_seqZ.
    apply bool_decide_eq_true_2, Hall. lia.
Qed.

(** C5 (as amended). Completeness gate and atomicity: with [top] the
    largest collected block index, reconstruction succeeds exactly when
    [top] is not negative and every index from 0 to [top] was collected
    (collected negative indices are ignored); it then writes the temporary
    files of the blocks 0 to [top], in increasing index order, and nothing
    else can happen while it writes.  Otherwise it fails without opening the
    output file, returning the number of collected blocks and printing the
    sorted list of the indices it has and the range 0..[top] it expected;
    the missing indices themselves are not listed. *)
Theorem completeness_gate (self : MolFSDev) (block_files : list block_file) :
  let collected := collect self ∅ ∅ block_files in
  let self' := collected.1.1 in
  let blocks_by_index := collected.1.2 in
  let pools := collected.2 in
  let top := max_block_idx blocks_by_index in
  let outcome := (reconstruct_file self block_files).2 in
  ((0 <= top /\ forall i, 0 <= i <= top -> is_Some (blocks_by_index !! i)) ->
   let out := concat ((fun i => temp_dir self' !!! i) <$> seqZ 0 (top + 1)) in
   outcome
   = Reconstructed (FileInfo (size blocks_by_index) (length out) pools) out)
  /\ ((top < 0 \/ exists i, 0 <= i <= top /\ blocks_by_index !! i = None) ->
      outcome
      = MissingBlocks (FileInfo (size blocks_by_index) 0 pools)
          (merge_sort Z.le (elements (dom blocks_by_index))) top
      /\ output_written outcome = None)
  /\ ((blocks_by_index = ∅ /\ top = -1)
      \/ (is_Some (blocks_by_index !! top)
          /\ forall i, is_Some (blocks_by_index !! i) -> i <= top)).
Proof.
  cbv zeta. unfold reconstruct_file.
  pose proof (collect_files_present block_files self ∅ ∅) as Hpresent.
  cbv zeta in Hpresent.
  destruct (collect self ∅ ∅ block_files) as [[self' blocks_by_index] pools].
  cbn [fst snd] in *.
  assert (files_present self' blocks_by_index) as Hfiles
    by (apply Hpresent; intros i entry; by rewrite lookup_empty).
  set (top := max_block_idx blocks_by_index).
  split; [|split; [|apply max_block_idx_spec]].
  - intros [Htop Hall].
    rewrite bool_decide_eq_true_2 by lia.
    rewrite (proj2 (all_present_spec blocks_by_index top) Hall). cbn [andb].
    rewrite (combine_present self' blocks_by_index (seqZ 0 (top + 1)) [] Hfiles).
    + done.
    + apply Forall_forall. intros i Hi%elem_of_seqZ. apply Hall. lia.
  - intros Hgap.
    assert (bool_decide (top >= 0)
            && forallb (fun i => bool_decide (is_Some (blocks_by_index !! i)))
                 (seqZ 0 (top + 1)) = false) as ->; [|done].
    apply andb_false_iff. destruct Hgap as [Hneg|(i & Hi & Hnone)].
    + left. apply bool_decide_eq_false_2. lia.
    + right. apply not_true_is_false. intros Hall.
      rewrite all_present_spec in Hall. specialize (Hall i Hi).
      rewrite Hnone in Hall. by destruct Hall.
Qed.

Lemma completeness_gate_witness :
  output_written
    (reconstruct_file fresh_dev [BlockFile 1 0 copy_a; BlockFile 2 1 copy_a]).2
  = Some (sample_bytes ++ sample_bytes)
  /\ output_written
       (reconstruct_file fresh_dev
          [BlockFile 1 0 copy_a; BlockFile 1 1 copy_a; BlockFile 1 3 copy_a]).2
     = None.
Proof.
  destruct (completeness_gate fresh_dev
              [BlockFile 1 0 copy_a; BlockFile 2 1 copy_a]) as (Hcomplete & _ & _).
  destruct (completeness_gate fresh_dev
              [BlockFile 1 0 copy_a; BlockFile 1 1 copy_a; BlockFile 1 3 copy_a])
    as (_ & Hgap & _).
  split.
  - rewrite Hcomplete.
    + vm_compute. reflexivity.
    + split; [vm_compute; discriminate|].
      apply all_present_spec. vm_compute. reflexivity.
  - apply Hgap. right. exists 2. vm_compute.
    split; [split; discriminate|reflexivity].
Defined.

(** C5, counterexample. With the blocks 0, 1 and 3 at hand the failure
    message names 0, 1 and 3, the blocks it has, and not the missing block
    2; and a file whose name gives no block number is collected under the
    index -1, which the gate ignores: the kept indices -1 and 0 are not the
    range 0..0, yet reconstruction succeeds and writes block 0 alone. *)
Lemma gate_reports_kept_indices :
  reported_indices
    (reconstruct_file fresh_dev
       [BlockFile 1 0 copy_a; BlockFile 1 1 copy_a; BlockFile 1 3 copy_a]).2
  = [0; 1; 3]
  /\ (let files := [BlockFile (-1) (-1) copy_a; BlockFile 1 0 copy_a] in
      let kept := (collect fresh_dev ∅ ∅ files).1.2 in
      size kept = 2%nat
      /\ is_Some (kept !! (-1))
      /\ is_Some (kept !! 0)
      /\ succeeded (reconstruct_file fresh_dev files).2 = true
      /\ output_written (reconstruct_file fresh_dev files).2 = Some sample_bytes).
Proof.
  split; [vm_compute; reflexivity|]. cbv zeta.
  split; [vm_compute; reflexivity|].
  split; [vm_compute; eauto|].
  split; [vm_compute; eauto|].
  split; vm_compute; reflexivity.
Qed.

(** C6, at the failing input. Copy A of block 0 has three valid segments,
    copy B one valid and two invalid ones.  Given A then B, the entry kept
    for block 0 carries the statistics of A, but both copies were decoded
    into the same temporary file [block_0.bin], which B's decode wrote last:
    the reconstructed file is the 12 bytes of B's only valid segment, not
    the 36 bytes of A.  Given B then A, the 36 bytes come out. *)
Lemma better_copy_overwritten :
  let d_a := decode_oligos_from_csv copy_a DEFAULT_FORWARD_PRIMER
               DEFAULT_REVERSE_PRIMER true in
  let d_b := decode_oligos_from_csv copy_b DEFAULT_FORWARD_PRIMER
               DEFAULT_REVERSE_PRIMER true in
  stats (result_info d_a) = CrcStats 3 0 0
  /\ stats (result_info d_b) = CrcStats 1 2 0
  /\ written d_a = Some sample_bytes
  /\ written d_b = Some (take 12 sample_bytes)
  /\ (stats ∘ entry_info
      <$> (collect fresh_dev ∅ ∅ [BlockFile 1 0 copy_a; BlockFile 2 0 copy_b]).1.2
          !! 0)
     = Some (CrcStats 3 0 0)
  /\ output_written
       (reconstruct_file fresh_dev [BlockFile 1 0 copy_a; BlockFile 2 0 copy_b]).2
     = Some (take 12 sample_bytes)
  /\ output_written
       (reconstruct_file fresh_dev [BlockFile 2 0 copy_b; BlockFile 1 0 copy_a]).2
     = Some sample_bytes.
Proof.
  cbv zeta. repeat split; vm_compute; reflexivity.
Qed.

End Reconstruction.

(** ** Where a round trip does not return the file *)

Module RoundTripLimits.
Import PyBits PyBitsFacts Encoder Decoder Spec SymbolFacts LayoutFacts
  BatchFacts RowFacts MapFacts StreamFacts InterfaceFacts.

Local Open Scope nat_scope.

(** The stream read off a list of keys of the segment map has 96 bits for
    each key. *)
Lemma length_concat_lookups (decoded : gmap (Z * Z) (list bool))
    (keys : list (Z * Z)) :
  map_Forall (fun _ data_bits => length data_bits = 96) decoded ->
  Forall (fun key => key ∈ dom decoded) keys ->
  length (concat ((fun key => decoded !!! key) <$> keys)) = 96 * length keys.
Proof.
  intros Hall Hkeys. induction Hkeys as [|key keys Hkey _ IH]; [done|].
  rewrite fmap_cons. cbn [concat length]. rewrite length_app, IH.
  apply elem_of_dom in Hkey as [data_bits Hkey].
  rewrite (lookup_total_correct _ _ _ Hkey), (Hall key data_bits Hkey). lia.
Qed.

(** A segment map whose keys all belong to block 0 and have an address
    below [n] holds at most [n] segments. *)
Lemma size_dom_bound (decoded : gmap (Z * Z) (list bool)) (n : Z) :
  (0 <= n)%Z ->
  (forall key, key ∈ dom decoded -> key.1 = 0%Z /\ (0 <= key.2 < n)%Z) ->
  (Z.of_nat (size (dom decoded)) <= n)%Z.
Proof.
  intros Hn Hkeys.
  assert (dom decoded ⊆ list_to_set ((fun a : Z => (0%Z, a)) <$> seqZ 0 n))
    as Hsub.
  { intros [k a] Hin. destruct (Hkeys _ Hin) as [Hk Ha]. cbn [fst snd] in *.
    subst k. apply elem_of_list_to_set, list_elem_of_fmap.
    exists a. split; [done|]. apply elem_of_seqZ. lia. }
  apply subseteq_size in Hsub.
  rewrite size_list_to_set in Hsub.
  - rewrite length_fmap, length_seqZ in Hsub. lia.
  - apply NoDup_fmap_2; [|apply NoDup_seqZ]. by intros a1 a2 [= ->].
Qed.

Lemma length_sorted_keys (decoded : gmap (Z * Z) (list bool)) :
  length (sorted_keys decoded) = size (dom decoded).
Proof.
  unfold sorted_keys.
  by rewrite (merge_sort_Permutation key_le (elements (dom decoded))).
Qed.

(** A file stored as one block of 12 * 524289 bytes comes back at least
    twelve bytes short, if it comes back at all: the decoder tells at most
    524288 addresses apart. *)
Lemma round_trip_oversize (block_size : nat) (binary_data : list Z) :
  Z.of_nat block_size = 6291468%Z ->
  binary_data = replicate block_size 0%Z ->
  exists e,
    encode_file_to_dna (fun _ => false) binary_data None None false 0 block_size = Ok e
    /\ num_blocks e = 1
    /\ written (decode_oligos_from_csv (csv_rows e) DEFAULT_FORWARD_PRIMER
                   DEFAULT_REVERSE_PRIMER true)
       <> Some binary_data.
Proof.
  intros Hsize Hdata.
  assert (Forall (fun b => (0 <= b < 256)%Z) binary_data) as Hbytes
    by (subst binary_data; apply Forall_replicate; lia).
  assert (length binary_data = block_size) as Hlen
    by (subst binary_data; apply length_replicate).
  clear Hdata.
  destruct (encode_file_to_dna_layout (fun _ => false) binary_data None None
              false 0 block_size) as (e & Hencode & Hblocks & _ & _ & Hrows);
    [by right|by right|by left|lia|].
  exists e. split; [done|].
  rewrite length_bytes_to_bits, Hlen in Hblocks by done.
  replace (8 * block_size / 8) with block_size in Hblocks
    by (by rewrite Nat.mul_comm, Nat.div_mul).
  assert (num_blocks e = 1) as Hone.
  { rewrite Hblocks.
    destruct (ceil_div_cases block_size block_size ltac:(lia)) as [[_ Hzero]|(m & -> & Hm)];
      [lia|]. nia. }
  split; [done|].
  cut (forall byte_data,
         written (decode_oligos_from_csv (csv_rows e) DEFAULT_FORWARD_PRIMER
                    DEFAULT_REVERSE_PRIMER true) = Some byte_data ->
         (Z.of_nat (length byte_data) <= 6291456
          < Z.of_nat (length binary_data))%Z).
  { intros Hshort Hwritten. apply Hshort in Hwritten. lia. }
  intros byte_data.
  unfold decode_oligos_from_csv. cbn [written andb total_file_size].
  set (st := row_loop DEFAULT_FORWARD_PRIMER DEFAULT_REVERSE_PRIMER initial 2
               (csv_rows e)).
  set (stream := reassemble (decoded_blocks st) (total_file_size (info st))).
  destruct (negb (bool_decide (decoded_blocks st = ∅))); [|done].
  destruct (0 <? length stream / 8); [|done].
  intros [= <-]. rewrite length_to_bytes, Hlen. split; [|lia].
  assert (Z.of_nat (length stream) <= 96 * 524288)%Z as Hstream.
  { assert (length stream
            <= length (concat ((fun key => decoded_blocks st !!! key)
                                 <$> sorted_keys (decoded_blocks st)))) as Hle.
    { unfold stream, reassemble.
      destruct (bool_decide _); [rewrite length_take|]; lia. }
    rewrite (length_concat_lookups (decoded_blocks st)) in Hle.
    - rewrite length_sorted_keys in Hle.
      assert (Z.of_nat (size (dom (decoded_blocks st))) <= 524288)%Z; [|lia].
      apply size_dom_bound; [lia|]. intros key Hkey.
      unfold st in Hkey.
      rewrite (row_loop_blocks DEFAULT_FORWARD_PRIMER DEFAULT_REVERSE_PRIMER)
        in Hkey.
      apply Addresses.dom_foldl_contribute in Hkey as [Hkey|(row & data & Hin & Hc)].
      + change (decoded_blocks initial) with (∅ : gmap (Z * Z) (list bool)) in Hkey.
        by rewrite dom_empty_L in Hkey.
      + apply contribution_key in Hc as [Hblock Hbound].
        split; [|exact Hbound]. rewrite Hblock.
        apply list_elem_of_lookup in Hin as [i Hi].
        destruct (Forall2_lookup_r _ _ _ _ _ Hrows Hi) as ([k j] & Hkj & Hrow).
        apply list_elem_of_lookup_2, layout_key_block in Hkj as [Hk _].
        destruct Hrow as (-> & _). cbn [fst default] in *.
        apply elem_of_seq in Hk. unfold id. lia.
    - unfold st.
      rewrite (row_loop_blocks DEFAULT_FORWARD_PRIMER DEFAULT_REVERSE_PRIMER).
      by apply foldl_contribute_lengths.
    - apply Forall_forall. intros key Hkey. unfold sorted_keys in Hkey.
      rewrite (merge_sort_Permutation key_le) in Hkey.
      by apply elem_of_elements in Hkey. }
  change (Nat.divmod (length stream) 7 0 7).1 with (length stream / 8).
  rewrite Nat2Z.inj_div. change (Z.of_nat 8) with 8%Z.
  apply Z.div_le_upper_bound; lia.
Qed.

(** C1, counterexample. An empty file is encoded into no rows, and decoding
    no rows writes nothing at all; with blocks of one byte, the padding of
    the first block's only segment lands in the output, and the two bytes
    1, 1 come back as 1, 0; and a file stored as one block of 524289
    segments, more than the 19 address bits that the decoder reads can
    tell apart, comes back at least twelve bytes short. *)
Lemma round_trip_fails :
  (exists e,
     encode_file_to_dna (fun _ => false) [] None None false 0 1024 = Ok e
     /\ written (decode_oligos_from_csv (csv_rows e) DEFAULT_FORWARD_PRIMER
                   DEFAULT_REVERSE_PRIMER true) = None)
  /\ (exists e,
        encode_file_to_dna (fun _ => false) [1; 1]%Z None None false 0 1 = Ok e
        /\ written (decode_oligos_from_csv (csv_rows e) DEFAULT_FORWARD_PRIMER
                      DEFAULT_REVERSE_PRIMER true) = Some [1; 0]%Z)
  /\ (exists e,
        encode_file_to_dna (fun _ => false) (replicate oversize 0%Z) None None
          false 0 oversize = Ok e
        /\ num_blocks e = 1
        /\ written (decode_oligos_from_csv (csv_rows e) DEFAULT_FORWARD_PRIMER
                      DEFAULT_REVERSE_PRIMER true)
           <> Some (replicate oversize 0%Z)).
Proof.
  split; [|split].
  - eexists. split; [vm_compute; reflexivity|]. vm_compute. reflexivity.
  - eexists. split; [vm_compute; reflexivity|]. vm_compute. reflexivity.
  - apply (round_trip_oversize oversize (replicate oversize 0%Z)).
    + unfold oversize. apply Z2Nat.id. lia.
    + reflexivity.
Qed.

End RoundTripLimits.

(** ** Bit streams and bytes *)

Module BytesFacts.
Import PyBits PyBitsFacts ZlibFacts Encoder Decoder.

Local Open Scope nat_scope.

(** Two bit strings of the same length that denote the same number are
    equal. *)
Lemma int2_inj (s t : list bool) :
  length s = length t -> int2 s = int2 t -> s = t.
Proof.
  revert t. induction s as [|b s IH]; intros [|c t] Hlen Heq; try done.
  cbn [length] in Hlen. injection Hlen as Hlen.
  rewrite !int2_cons, <- Hlen in Heq.
  pose proof (int2_range s) as Hs. pose proof (int2_range t) as Ht.
  rewrite <- Hlen in Ht.
  assert (b = c) as -> by (destruct b, c; cbn [Z.b2z] in Heq; try done; lia).
  f_equal. apply IH; [done|lia].
Qed.

Lemma format_b_int2 (s : list bool) :
  0 < length s -> format_b (length s) (int2 s) = s.
Proof.
  intros Hpos. pose proof (int2_range s) as Hs. apply int2_inj.
  - by apply length_format_b.
  - apply int2_format_b. lia.
Qed.

Lemma bytes_to_bits_cons (b : Z) (data : list Z) :
  bytes_to_bits (b :: data) = format_b 8 b ++ bytes_to_bits data.
Proof. done. Qed.

Lemma bytes_to_bits_app (data1 data2 : list Z) :
  bytes_to_bits (data1 ++ data2) = bytes_to_bits data1 ++ bytes_to_bits data2.
Proof. unfold bytes_to_bits. by rewrite map_app, concat_app. Qed.

Lemma bytes_to_bits_zeros (n : nat) :
  bytes_to_bits (replicate n 0%Z) = replicate (8 * n) false.
Proof.
  induction n as [|n IH]; [done|].
  cbn [replicate]. rewrite bytes_to_bits_cons, IH.
  replace (8 * S n) with (8 + 8 * n) by lia. by rewrite replicate_add.
Qed.

(** The bytes of a bit string of [8 * len] bits spell the bit string. *)
Lemma bytes_to_bits_to_bytes (len : nat) (s : list bool) :
  length s = 8 * len -> bytes_to_bits (to_bytes len (int2 s)) = s.
Proof.
  revert s. induction len as [|len IH]; intros s Hlen.
  - by destruct s.
  - rewrite <- (take_drop 8 s) at 1.
    assert (length (take 8 s) = 8) as Hhead by (rewrite length_take; lia).
    assert (length (drop 8 s) = 8 * len) as Htail by (rewrite length_drop; lia).
    rewrite int2_app, Htail.
    pose proof (int2_range (take 8 s)) as Hb. rewrite Hhead in Hb.
    pose proof (int2_range (drop 8 s)) as Hr. rewrite Htail in Hr.
    replace (Z.of_nat (8 * len)) with (8 * Z.of_nat len)%Z in * by lia.
    rewrite to_bytes_cons by (change (2 ^ Z.of_nat 8)%Z with 256%Z in Hb; lia).
    rewrite bytes_to_bits_cons, IH by done.
    rewrite <- Hhead at 1. rewrite format_b_int2 by lia.
    apply take_drop.
Qed.

(** X1. [bitstream_to_bytes] undoes [read_binary_file]: the bit stream of a
    file gives back the bytes of the file, whose number is the size that
    [read_binary_file] returns. *)
Theorem bitstream_to_bytes_read_binary_file (binary_data : list Z) :
  Forall (fun b => (0 <= b < 256)%Z) binary_data ->
  bitstream_to_bytes (read_binary_file binary_data).1 = binary_data
  /\ (read_binary_file binary_data).2 = length binary_data
  /\ length (read_binary_file binary_data).1 = 8 * length binary_data.
Proof.
  intros Hbytes. unfold read_binary_file. cbn [fst snd].
  split; [|split; [done|by apply length_bytes_to_bits]].
  unfold bitstream_to_bytes. rewrite length_bytes_to_bits by done.
  replace (8 * length binary_data / 8) with (length binary_data)
    by (by rewrite Nat.mul_comm, Nat.div_mul).
  destruct (Nat.eqb_spec (length binary_data) 0) as [Hzero|Hpos].
  - by destruct binary_data.
  - rewrite take_ge by (rewrite length_bytes_to_bits by done; lia).
    by apply to_bytes_bytes_to_bits.
Qed.

Lemma bitstream_to_bytes_read_binary_file_witness :
  bitstream_to_bytes (read_binary_file [0; 255; 16]%Z).1 = [0; 255; 16]%Z
  /\ (read_binary_file [0; 255; 16]%Z).2 = 3
  /\ length (read_binary_file [0; 255; 16]%Z).1 = 8 * 3.
Proof.
  apply (bitstream_to_bytes_read_binary_file [0; 255; 16]%Z).
  repeat constructor; lia.
Defined.

(** X2. [bitstream_to_bytes] keeps the whole bytes of a bit stream and
    drops the up to seven bits that follow them: the bytes it returns are in
    range, there are [len // 8] of them, and they spell the first
    [8 * (len // 8)] bits. *)
Theorem bitstream_to_bytes_whole_bytes (bitstream : list bool) :
  let byte_data := bitstream_to_bytes bitstream in
  length byte_data = length bitstream / 8
  /\ Forall (fun b => (0 <= b < 256)%Z) byte_data
  /\ bytes_to_bits byte_data = take (length bitstream / 8 * 8) bitstream.
Proof.
  cbv zeta. unfold bitstream_to_bytes.
  destruct (Nat.eqb_spec (length bitstream / 8) 0) as [Hzero|Hpos].
  - rewrite Hzero. by repeat split.
  - rewrite length_to_bytes. split; [done|]. split; [apply to_bytes_range|].
    apply bytes_to_bits_to_bytes. rewrite length_take.
    pose proof (Nat.Div0.mul_div_le (length bitstream) 8). lia.
Qed.

End BytesFacts.

(** ** Symbols and unframing *)

Module UnframingFacts.
Import PyBits PyBitsFacts Encoder Decoder Spec SymbolFacts LayoutFacts.

Local Open Scope nat_scope.
Local Open Scope char_scope.

Lemma BASE_TO_BIT_alphabet (base : ascii) :
  BASE_TO_BIT base
  = if decide (base ∈ ["A"; "C"; "G"; "T"])
    then Some (bool_decide (base = "G" \/ base = "T")) else None.
Proof.
  destruct base as [[] [] [] [] [] [] [] []]; vm_compute; reflexivity.
Qed.

(** X3. [decode_dna_to_bits] raises KeyError exactly when the sequence
    holds a symbol other than A, C, G, T (a lower-case letter or an N, for
    instance); otherwise it returns one bit for each symbol, 1 for G and T
    and 0 for A and C. *)
Theorem decode_dna_to_bits_alphabet (dna_sequence : list ascii) :
  (decode_dna_to_bits dna_sequence = None
   <-> exists base, base ∈ dna_sequence /\ base ∉ ["A"; "C"; "G"; "T"])
  /\ (forall bits, decode_dna_to_bits dna_sequence = Some bits ->
        bits = (fun base => bool_decide (base = "G" \/ base = "T"))
                 <$> dna_sequence).
Proof.
  induction dna_sequence as [|base dna [IHnone IHsome]].
  - split.
    + split; [done|]. by intros (base & Hin%elem_of_nil & _).
    + by intros bits [= <-].
  - rewrite decode_dna_to_bits_cons, BASE_TO_BIT_alphabet.
    destruct (decide (base ∈ ["A"; "C"; "G"; "T"])) as [Hbase|Hbase].
    + destruct (decode_dna_to_bits dna) as [bits'|] eqn:Hdna.
      * split.
        -- split; [done|]. intros (c & Hin & Hc).
           apply elem_of_cons in Hin as [->|Hin]; [done|].
           destruct IHnone as [_ IH]. discriminate IH. by exists c.
        -- intros bits [= <-]. rewrite fmap_cons. f_equal. by apply IHsome.
      * split; [|done]. split; [|done]. intros _.
        destruct IHnone as [IH _]. destruct (IH eq_refl) as (c & Hin & Hc).
        exists c. split; [by apply list_elem_of_further|done].
    + split; [|done]. split; [|done]. intros _.
      exists base. split; [apply list_elem_of_here|done].
Qed.

Lemma core_sequence_infix (oligo forward_primer reverse_primer : list ascii) :
  exists p s,
    oligo = p ++ core_sequence oligo forward_primer reverse_primer ++ s
    /\ (p = [] \/ p = forward_primer) /\ (s = [] \/ s = reverse_primer).
Proof.
  unfold core_sequence.
  destruct (bool_decide (forward_primer <> [])
            && bool_decide (forward_primer `prefix_of` oligo)) eqn:Hf.
  - apply andb_true_iff in Hf as [_ [k ->]%bool_decide_eq_true].
    rewrite drop_app_length.
    destruct (bool_decide (reverse_primer <> [])
              && bool_decide (reverse_primer `suffix_of` k)) eqn:Hr.
    + apply andb_true_iff in Hr as [_ [k' ->]%bool_decide_eq_true].
      rewrite length_app, Nat.add_sub, take_app_length.
      exists forward_primer, reverse_primer. split; [done|]. split; by right.
    + exists forward_primer, []. rewrite app_nil_r. split; [done|]. split; [by right|by left].
  - destruct (bool_decide (reverse_primer <> [])
              && bool_decide (reverse_primer `suffix_of` oligo)) eqn:Hr.
    + apply andb_true_iff in Hr as [_ [k' ->]%bool_decide_eq_true].
      rewrite length_app, Nat.add_sub, take_app_length.
      exists [], reverse_primer. split; [done|]. split; [by left|by right].
    + exists [], []. rewrite app_nil_r. split; [done|]. split; by left.
Qed.

(** X4. [extract_oligo_parts] removes nothing but the given primers, each
    only where it stands at its end of the sequence, and cuts what is left
    into the first 19 symbols, the next 96 and the rest; it returns
    [(None, None, None)] exactly when fewer than 115 symbols are left. *)
Theorem extract_oligo_parts_partition
    (oligo forward_primer reverse_primer : list ascii) :
  let core := core_sequence oligo forward_primer reverse_primer in
  (exists p s,
     oligo = p ++ core ++ s
     /\ (p = [] \/ p = forward_primer) /\ (s = [] \/ s = reverse_primer))
  /\ match extract_oligo_parts oligo forward_primer reverse_primer with
     | Some (address_dna, data_dna, crc32_dna) =>
         length address_dna = 19 /\ length data_dna = 96
         /\ address_dna ++ data_dna ++ crc32_dna = core
     | None => length core < 19 + 96
     end.
Proof.
  cbv zeta. split; [apply core_sequence_infix|].
  unfold extract_oligo_parts.
  set (core := core_sequence oligo forward_primer reverse_primer).
  destruct (Nat.leb_spec (19 + 96) (length core)) as [Hlong|Hshort]; [|done].
  split; [rewrite length_take; lia|]. split; [rewrite length_slice; lia|].
  unfold slice. replace (19 + 96 - 19) with 96 by done.
  rewrite <- (drop_drop core 96 19).
  by rewrite !take_drop.
Qed.

End UnframingFacts.

(** ** What [encode_file_to_dna] returns and writes *)

Module EncoderFacts.
Import PyBits PyBitsFacts Encoder Decoder Spec SymbolFacts LayoutFacts
  RowFacts MapFacts RoundTrip.

Local Open Scope nat_scope.

(** The conditions under which [encode_file_to_dna] gets through its
    checks. *)
Lemma encode_file_to_dna_inv (rnd : nat -> bool) (binary_data : list Z)
    (forward_primer reverse_primer : option (list ascii))
    (check_file_size : bool) (max_file_size block_size_bytes : nat) :
  let F := default DEFAULT_FORWARD_PRIMER forward_primer in
  let R := default DEFAULT_REVERSE_PRIMER reverse_primer in
  let accepted :=
    ((F = [] \/ length F = 22) /\ (R = [] \/ length R = 22))
    /\ (check_file_size = false \/ length binary_data <= max_file_size) in
  match encode_file_to_dna rnd binary_data forward_primer reverse_primer
          check_file_size max_file_size block_size_bytes with
  | Ok e => accepted /\ block_size_bytes <> 0
  | Raise ValueError => ~ accepted
  | Raise ZeroDivisionError => accepted /\ block_size_bytes = 0
  | Raise _ => False
  end.
Proof.
  intros F R accepted. unfold accepted.
  destruct (decide (F = [] \/ length F = 22)) as [HF|HF].
  2: { unfold encode_file_to_dna. fold F R.
       rewrite bool_decide_eq_true_2 by (intros ->; apply HF; by left).
       rewrite (proj2 (Nat.eqb_neq (length F) 22))
         by (intros Heq; apply HF; by right).
       cbn [negb andb]. tauto. }
  destruct (decide (R = [] \/ length R = 22)) as [HR|HR].
  2: { unfold encode_file_to_dna. fold F R.
       assert (bool_decide (F <> []) && negb (length F =? 22) = false) as ->.
       { destruct HF as [->| ->]; [done|]. apply andb_false_r. }
       rewrite bool_decide_eq_true_2 by (intros ->; apply HR; by left).
       rewrite (proj2 (Nat.eqb_neq (length R) 22))
         by (intros Heq; apply HR; by right).
       cbn [negb andb]. tauto. }
  destruct (decide (check_file_size = false
                    \/ length binary_data <= max_file_size)) as [Hsize|Hsize].
  2: { unfold encode_file_to_dna. fold F R.
       assert (bool_decide (F <> []) && negb (length F =? 22) = false) as ->.
       { destruct HF as [->| ->]; [done|]. apply andb_false_r. }
       assert (bool_decide (R <> []) && negb (length R =? 22) = false) as ->.
       { destruct HR as [->| ->]; [done|]. apply andb_false_r. }
       destruct check_file_size; [|exfalso; apply Hsize; by left].
       rewrite (proj2 (Nat.ltb_lt max_file_size (length binary_data)))
         by (apply Nat.nle_gt; intros Hle; apply Hsize; by right).
       cbn [andb]. tauto. }
  destruct (decide (block_size_bytes = 0)) as [->|HS].
  - unfold encode_file_to_dna. fold F R.
    assert (bool_decide (F <> []) && negb (length F =? 22) = false) as ->.
    { destruct HF as [->| ->]; [done|]. apply andb_false_r. }
    assert (bool_decide (R <> []) && negb (length R =? 22) = false) as ->.
    { destruct HR as [->| ->]; [done|]. apply andb_false_r. }
    assert (check_file_size && (max_file_size <? length binary_data) = false)
      as ->.
    { destruct Hsize as [->|Hle]; [done|].
      apply andb_false_iff. right. apply Nat.ltb_ge. lia. }
    done.
  - destruct (encode_file_to_dna_layout rnd binary_data forward_primer
                reverse_primer check_file_size max_file_size block_size_bytes
                HF HR Hsize HS) as (e & -> & _).
    done.
Qed.

(** The rows of a file that was encoded follow the layout of the file. *)
Lemma encode_file_to_dna_rows (rnd : nat -> bool) (binary_data : list Z)
    (forward_primer reverse_primer : option (list ascii))
    (check_file_size : bool) (max_file_size block_size_bytes : nat)
    (e : encoded) :
  let F := default DEFAULT_FORWARD_PRIMER forward_primer in
  let R := default DEFAULT_REVERSE_PRIMER reverse_primer in
  let bits := bytes_to_bits binary_data in
  encode_file_to_dna rnd binary_data forward_primer reverse_primer
    check_file_size max_file_size block_size_bytes = Ok e ->
  block_size_bytes <> 0
  /\ num_blocks e = (length bits / 8 + block_size_bytes - 1) / block_size_bytes
  /\ num_oligos e = length (csv_rows e)
  /\ input_size e = length binary_data
  /\ Forall2 (fun kj row =>
                is_row rnd bits F R block_size_bytes (length binary_data)
                  kj.1 kj.2 row)
       (file_layout bits block_size_bytes (seq 0 (num_blocks e))) (csv_rows e).
Proof.
  intros F R bits Hencode.
  pose proof (encode_file_to_dna_inv rnd binary_data forward_primer
                reverse_primer check_file_size max_file_size block_size_bytes)
    as Hinv.
  cbv zeta in Hinv. rewrite Hencode in Hinv.
  destruct Hinv as [[[HF HR] Hsize] HS].
  destruct (encode_file_to_dna_layout rnd binary_data forward_primer
              reverse_primer check_file_size max_file_size block_size_bytes
              HF HR Hsize HS) as (e' & Hencode' & Hlayout).
  rewrite Hencode in Hencode'. injection Hencode' as <-.
  by split.
Qed.

Lemma length_file_layout (bits : list bool) (block_size_bytes : nat)
    (blocks : list nat) :
  length (file_layout bits block_size_bytes blocks)
  = sum_list ((fun k => segments_of (block_bytes bits block_size_bytes k))
                <$> blocks).
Proof.
  unfold file_layout. induction blocks as [|k blocks IH]; [done|].
  rewrite !fmap_cons. cbn [concat sum_list]. rewrite length_app, IH.
  unfold block_layout at 1. by rewrite length_fmap, length_seq.
Qed.

(** The size in bytes of block [k] of a file of whole bytes. *)
Lemma block_bytes_bytes (binary_data : list Z) (block_size_bytes k : nat) :
  Forall (fun b => (0 <= b < 256)%Z) binary_data ->
  block_bytes (bytes_to_bits binary_data) block_size_bytes k
  = block_size_bytes `min` (length binary_data - k * block_size_bytes).
Proof.
  intros Hbytes. unfold block_bytes.
  rewrite length_block_bits, length_bytes_to_bits by done.
  set (m := block_size_bytes `min` (length binary_data - k * block_size_bytes)).
  replace ((block_size_bytes * 8)
             `min` (8 * length binary_data - k * block_size_bytes * 8) + 7)
    with (m * 8 + 7) by lia.
  rewrite Nat.div_add_l by done. change (7 / 8) with 0. lia.
Qed.

(** X5. The result of [encode_file_to_dna]: it raises ValueError exactly
    when a primer that is not empty is not 22 symbols long or the size
    check is on and fails, ZeroDivisionError when those checks pass and the
    block size is 0, and nothing else; otherwise it returns the number of
    rows it wrote, the size of the input and ceil(size / block size) blocks,
    block [k] of [s] bytes having given ceil(s / 12) rows. *)
Theorem encode_file_to_dna_result (rnd : nat -> bool) (binary_data : list Z)
    (forward_primer reverse_primer : option (list ascii))
    (check_file_size : bool) (max_file_size block_size_bytes : nat) :
  Forall (fun b => (0 <= b < 256)%Z) binary_data ->
  let F := default DEFAULT_FORWARD_PRIMER forward_primer in
  let R := default DEFAULT_REVERSE_PRIMER reverse_primer in
  let n := length binary_data in
  let accepted :=
    ((F = [] \/ length F = 22) /\ (R = [] \/ length R = 22))
    /\ (check_file_size = false \/ n <= max_file_size) in
  match encode_file_to_dna rnd binary_data forward_primer reverse_primer
          check_file_size max_file_size block_size_bytes with
  | Ok e =>
      accepted /\ block_size_bytes <> 0
      /\ input_size e = n
      /\ num_blocks e = (n + block_size_bytes - 1) / block_size_bytes
      /\ num_oligos e = length (csv_rows e)
      /\ num_oligos e
         = sum_list ((fun k =>
                        (block_size_bytes `min` (n - k * block_size_bytes) + 11)
                        / 12)
                       <$> seq 0 (num_blocks e))
  | Raise ValueError => ~ accepted
  | Raise ZeroDivisionError => accepted /\ block_size_bytes = 0
  | Raise _ => False
  end.
Proof.
  intros Hbytes F R n accepted.
  pose proof (encode_file_to_dna_inv rnd binary_data forward_primer
                reverse_primer check_file_size max_file_size block_size_bytes)
    as Hinv.
  cbv zeta in Hinv. fold F R n accepted in Hinv.
  destruct (encode_file_to_dna rnd binary_data forward_primer reverse_primer
              check_file_size max_file_size block_size_bytes)
    as [e|[]] eqn:Hencode; try done.
  destruct Hinv as [Haccepted HS].
  apply encode_file_to_dna_rows in Hencode
    as (_ & Hblocks & Holigos & Hinput & Hrows).
  rewrite length_bytes_to_bits in Hblocks by done.
  replace (8 * length binary_data / 8) with n in Hblocks
    by (unfold n; by rewrite Nat.mul_comm, Nat.div_mul).
  do 5 (split; [done|]).
  rewrite Holigos, <- (Forall2_length _ _ _ Hrows), length_file_layout.
  f_equal. apply list_fmap_ext. intros _ k _.
  unfold segments_of. by rewrite block_bytes_bytes.
Qed.

Lemma encode_file_to_dna_result_witness :
  match encode_file_to_dna (fun _ => true) (seqZ 0 30) None None true 100 24 with
  | Ok e =>
      input_size e = 30 /\ num_blocks e = 2 /\ num_oligos e = 3
  | Raise _ => False
  end.
Proof.
  pose proof (encode_file_to_dna_result (fun _ => true) (seqZ 0 30) None None
                true 100 24) as Hresult.
  destruct (encode_file_to_dna (fun _ => true) (seqZ 0 30) None None true 100 24)
    as [e|err] eqn:Hencode.
  - destruct Hresult as (_ & _ & Hinput & Hblocks & _ & Holigos).
    + apply Forall_forall. intros b Hb%elem_of_seqZ. lia.
    + rewrite Hblocks in Holigos. split; [exact Hinput|].
      split; [exact Hblocks|exact Holigos].
  - vm_compute in Hencode. discriminate Hencode.
Defined.

(** X6. The geometry of the rows: when no block has more than 524287
    segments, every row of an encoded file has a 19-bit address, a 96-bit
    payload and the 32-bit checksum of the payload, which
    [verify_crc32_checksum] accepts; its oligo is the forward primer, 147
    symbols that decode to the address, the payload and the checksum in that
    order, and the reverse primer. *)
Theorem encoded_rows_geometry (rnd : nat -> bool) (binary_data : list Z)
    (forward_primer reverse_primer : list ascii)
    (check_file_size : bool) (max_file_size block_size_bytes : nat)
    (e : encoded) :
  Forall (fun b => (0 <= b < 256)%Z) binary_data ->
  encode_file_to_dna rnd binary_data (Some forward_primer)
    (Some reverse_primer) check_file_size max_file_size block_size_bytes
  = Ok e ->
  (Z.of_nat (block_size_bytes `min` length binary_data) <= 12 * 524287)%Z ->
  Forall (fun row =>
            length (col_address row) = 19
            /\ length (col_data_bits row) = 96
            /\ col_crc32 row = calculate_crc32_checksum (col_data_bits row)
            /\ length (col_crc32 row) = 32
            /\ verify_crc32_checksum (col_data_bits row) (col_crc32 row) = true
            /\ exists core,
                 col_oligo row = forward_primer ++ core ++ reverse_primer
                 /\ length core = 147
                 /\ decode_dna_to_bits core
                    = Some (col_address row ++ col_data_bits row
                            ++ col_crc32 row))
    (csv_rows e).
Proof.
  intros Hbytes Hencode Hsmall.
  apply encode_file_to_dna_rows in Hencode as (_ & _ & _ & _ & Hrows).
  cbn [default] in Hrows.
  eapply Forall2_Forall_r; [exact Hrows|].
  apply Forall_forall. intros [k j] Hin row Hrow.
  apply layout_key_block in Hin as [_ Hj]. cbn [fst snd] in *.
  assert (segment_address j < 2 ^ 19)%Z as Hfit.
  { rewrite block_bytes_bytes in Hj by done.
    assert (block_size_bytes `min` (length binary_data - k * block_size_bytes)
            <= block_size_bytes `min` length binary_data) as Hactual by lia.
    pose proof (segments_of_mono _ _ Hactual) as Hmono.
    pose proof (segments_of_small _ Hsmall) as Hmax.
    unfold segment_address. lia. }
  destruct Hrow as (_ & Ha & Hd & Hc & (p1 & p2 & p3 & Holigo) & _).
  assert (length (col_address row) = 19) as Hla.
  { rewrite Ha. apply length_format_b; [|lia]. unfold segment_address in *. lia. }
  assert (length (col_data_bits row) = 96) as Hld
    by (rewrite Hd; apply length_segment_payload).
  assert (length (col_crc32 row) = 32) as Hlc
    by (rewrite Hc; apply length_calculate_crc32_checksum).
  repeat split; try done.
  - rewrite Hc. unfold verify_crc32_checksum, calculate_crc32_checksum.
    by apply bool_decide_eq_true_2.
  - eexists. split; [exact Holigo|]. split.
    + rewrite !length_app, !length_encode_bits. lia.
    + repeat apply decode_dna_to_bits_app; apply decode_encode_bits.
Qed.

Lemma encoded_rows_geometry_witness :
  exists e,
    encode_file_to_dna (fun _ => true) (seqZ 0 30)
      (Some DEFAULT_FORWARD_PRIMER) (Some DEFAULT_REVERSE_PRIMER) false 0 24
    = Ok e
    /\ Forall (fun row => length (col_oligo row) = 191) (csv_rows e).
Proof.
  destruct (encode_file_to_dna (fun _ => true) (seqZ 0 30)
              (Some DEFAULT_FORWARD_PRIMER) (Some DEFAULT_REVERSE_PRIMER)
              false 0 24) as [e|err] eqn:Hencode.
  - exists e. split; [reflexivity|].
    eapply Forall_impl.
    + apply (encoded_rows_geometry (fun _ => true) (seqZ 0 30)
               DEFAULT_FORWARD_PRIMER DEFAULT_REVERSE_PRIMER false 0 24 e).
      * apply Forall_forall. intros b Hb%elem_of_seqZ. lia.
      * exact Hencode.
      * apply Z.leb_le. vm_compute. reflexivity.
    + intros row (_ & _ & _ & _ & _ & core & -> & Hcore & _).
      rewrite !length_app, Hcore. reflexivity.
  - vm_compute in Hencode. discriminate Hencode.
Defined.

End EncoderFacts.

(** ** Errors of two and three bits *)

Module ChecksumErrors.
Import PyBits PyBitsFacts Zlib ZlibFacts Encoder Decoder Spec Terms
  ChecksumFacts RowFacts.

Local Open Scope nat_scope.

Lemma syndrome_lxor (e1 e2 : Z) :
  syndrome (Z.lxor e1 e2) = Z.lxor (syndrome e1) (syndrome e2).
Proof.
  unfold syndrome. rewrite to_bytes_lxor.
  rewrite <- crc32_raw_lxor by (by rewrite !length_to_bytes).
  rewrite Z.lxor_0_l. reflexivity.
Qed.

Lemma crc32_error (payload_bits : list bool) (e : Z) :
  crc32 (to_bytes 12 (Z.lxor (int2 payload_bits) e))
  = Z.lxor (crc32 (to_bytes 12 (int2 payload_bits))) (syndrome e).
Proof.
  rewrite to_bytes_lxor, crc32_lxor by (by rewrite !length_to_bytes).
  unfold syndrome. reflexivity.
Qed.

Lemma lookup_single_bit_syndromes (i : nat) :
  i < 96 ->
  nth i single_bit_syndromes 0%Z = syndrome (2 ^ Z.of_nat (95 - i)).
Proof.
  intros Hi. apply nth_lookup_Some with (d := 0%Z).
  unfold single_bit_syndromes. rewrite list_lookup_fmap, lookup_seq_lt by done.
  unfold syndrome. reflexivity.
Qed.

(** A payload whose CRC differs from that of the original is rejected. *)
Lemma verify_rejects (received payload_bits : list bool) :
  length received = 96 ->
  crc32 (to_bytes 12 (int2 received))
  <> crc32 (to_bytes 12 (int2 payload_bits)) ->
  length payload_bits = 96 ->
  verify_crc32_checksum received (calculate_crc32_checksum payload_bits) = false.
Proof.
  intros Hreceived Hne Hlen.
  unfold verify_crc32_checksum, calculate_crc32_checksum.
  rewrite Hreceived, Hlen. change ((96 + 7) / 8) with 12.
  apply bool_decide_eq_false_2. intros Heq. apply Hne.
  apply (format_b_inj 32); [| |done].
  - apply crc32_range, to_bytes_range.
  - apply crc32_range, to_bytes_range.
Qed.

Lemma lxor_cancel (c s : Z) : Z.lxor c s = c -> s = 0%Z.
Proof.
  intros Heq. rewrite <- (Z.lxor_nilpotent c). rewrite <- Heq at 1.
  by rewrite (Z.lxor_comm c s), Z.lxor_assoc, Z.lxor_nilpotent, Z.lxor_0_r.
Qed.

Lemma pairs_detected_spec (l : list Z) (i j : nat) :
  pairs_detected l = true -> i < j < 96 ->
  Z.lxor (nth i l 0%Z) (nth j l 0%Z) <> 0%Z.
Proof.
  unfold pairs_detected. intros Hall Hij.
  rewrite forallb_forall in Hall.
  specialize (Hall i ltac:(apply list_elem_of_In, elem_of_seq; lia)).
  rewrite forallb_forall in Hall.
  specialize (Hall j ltac:(apply list_elem_of_In, elem_of_seq; lia)).
  by apply negb_true_iff, Z.eqb_neq in Hall.
Qed.

Lemma triples_detected_spec (l : list Z) (i j k : nat) :
  triples_detected l = true -> i < j < k -> k < 96 ->
  Z.lxor (Z.lxor (nth i l 0%Z) (nth j l 0%Z)) (nth k l 0%Z) <> 0%Z.
Proof.
  unfold triples_detected. intros Hall Hij Hk.
  rewrite forallb_forall in Hall.
  specialize (Hall i ltac:(apply list_elem_of_In, elem_of_seq; lia)).
  rewrite forallb_forall in Hall.
  specialize (Hall j ltac:(apply list_elem_of_In, elem_of_seq; lia)).
  rewrite forallb_forall in Hall.
  specialize (Hall k ltac:(apply list_elem_of_In, elem_of_seq; lia)).
  by apply negb_true_iff, Z.eqb_neq in Hall.
Qed.

Lemma pairs_detected_syndromes : pairs_detected single_bit_syndromes = true.
Proof. vm_compute. reflexivity. Qed.

Lemma triples_detected_syndromes : triples_detected single_bit_syndromes = true.
Proof. vm_compute. reflexivity. Qed.

(** X7. The checksum detects every error of two or three bits in a 96-bit
    payload: the payload with any two or three distinct bits flipped is
    rejected when checked against the checksum of the original. *)
Theorem checksum_detects_two_and_three_flips (payload_bits : list bool) :
  length payload_bits = 96 ->
  (forall i j, i < j < 96 ->
     verify_crc32_checksum (alter negb i (alter negb j payload_bits))
       (calculate_crc32_checksum payload_bits) = false)
  /\ (forall i j k, i < j < k /\ k < 96 ->
        verify_crc32_checksum
          (alter negb i (alter negb j (alter negb k payload_bits)))
          (calculate_crc32_checksum payload_bits) = false).
Proof.
  intros Hlen. split.
  - intros i j Hij.
    apply verify_rejects; [by rewrite !length_alter| |done].
    rewrite !int2_flip by (rewrite ?length_alter; lia).
    rewrite !length_alter, Hlen.
    replace (96 - 1 - i) with (95 - i) by lia.
    replace (96 - 1 - j) with (95 - j) by lia.
    rewrite Z.lxor_assoc, crc32_error.
    intros Hzero%lxor_cancel. rewrite syndrome_lxor in Hzero.
    rewrite <- !lookup_single_bit_syndromes in Hzero by lia.
    apply (pairs_detected_spec single_bit_syndromes i j
             pairs_detected_syndromes Hij).
    rewrite Z.lxor_comm. exact Hzero.
  - intros i j k [Hij Hk].
    apply verify_rejects; [by rewrite !length_alter| |done].
    rewrite !int2_flip by (rewrite ?length_alter; lia).
    rewrite !length_alter, Hlen.
    replace (96 - 1 - i) with (95 - i) by lia.
    replace (96 - 1 - j) with (95 - j) by lia.
    replace (96 - 1 - k) with (95 - k) by lia.
    rewrite !Z.lxor_assoc, crc32_error.
    intros Hzero%lxor_cancel. rewrite !syndrome_lxor in Hzero.
    rewrite <- !lookup_single_bit_syndromes in Hzero by lia.
    apply (triples_detected_spec single_bit_syndromes i j k
             triples_detected_syndromes Hij Hk).
    rewrite (Z.lxor_comm (nth i _ _) (nth j _ _)).
    rewrite (Z.lxor_comm (Z.lxor _ _) (nth k _ _)). exact Hzero.
Qed.

Lemma checksum_detects_two_and_three_flips_witness :
  verify_crc32_checksum
    (alter negb 0 (alter negb 95 (replicate 96 false)))
    (calculate_crc32_checksum (replicate 96 false)) = false.
Proof.
  assert (length (replicate 96 false) = 96) as Hlen by reflexivity.
  destruct (checksum_detects_two_and_three_flips (replicate 96 false) Hlen)
    as [Htwo _].
  exact (Htwo 0 95 ltac:(lia)).
Defined.

End ChecksumErrors.

(** ** Decoding the rows of an encoded file *)

Module DecodingFacts.
Import PyBits PyBitsFacts Encoder Decoder Spec SymbolFacts LayoutFacts
  BatchFacts RowFacts MapFacts StreamFacts RoundTrip EncoderFacts.

Local Open Scope nat_scope.

Lemma layout_key_inj (kj1 kj2 : nat * nat) :
  layout_key kj1 = layout_key kj2 -> kj1 = kj2.
Proof.
  destruct kj1 as [k1 j1], kj2 as [k2 j2]. unfold layout_key, segment_address.
  cbn [fst snd]. intros [= Hk Hj]. f_equal; lia.
Qed.

(** The addresses of a file whose blocks have at most 524287 segments fit
    in 19 bits. *)
Lemma layout_fits (binary_data : list Z) (block_size_bytes : nat)
    (blocks : list nat) :
  Forall (fun b => (0 <= b < 256)%Z) binary_data ->
  (Z.of_nat (block_size_bytes `min` length binary_data) <= 12 * 524287)%Z ->
  Forall (fun kj => (segment_address kj.2 < 2 ^ 19)%Z)
    (file_layout (bytes_to_bits binary_data) block_size_bytes blocks).
Proof.
  intros Hbytes Hsmall. apply Forall_forall. intros [k j] Hin.
  apply layout_key_block in Hin as [_ Hj]. cbn [fst snd] in *.
  rewrite block_bytes_bytes in Hj by done.
  assert (block_size_bytes `min` (length binary_data - k * block_size_bytes)
          <= block_size_bytes `min` length binary_data) as Hactual by lia.
  pose proof (segments_of_mono _ _ Hactual) as Hmono.
  pose proof (segments_of_small _ Hsmall) as Hmax.
  unfold segment_address. lia.
Qed.

Section Encoded.
Variables (rnd : nat -> bool) (binary_data : list Z).
Variables (forward_primer reverse_primer : list ascii).
Variables (check_file_size : bool) (max_file_size block_size_bytes : nat).
Variable e : encoded.

Hypothesis Hbytes : Forall (fun b => (0 <= b < 256)%Z) binary_data.
Hypothesis Hencode :
  encode_file_to_dna rnd binary_data (Some forward_primer)
    (Some reverse_primer) check_file_size max_file_size block_size_bytes
  = Ok e.
Hypothesis Hclean : clean_primers forward_primer reverse_primer.
Hypothesis Hsmall :
  (Z.of_nat (block_size_bytes `min` length binary_data) <= 12 * 524287)%Z.

(** What each row of the file contributes to the decoded segment map. *)
Lemma encoded_contributions :
  Forall2 (fun kj row =>
             contribution forward_primer reverse_primer row
             = Some (layout_entry (bytes_to_bits binary_data) block_size_bytes kj)
             /\ checksum_verdict forward_primer reverse_primer row = Valid
             /\ col_block_index row = Some (Z.of_nat kj.1)
             /\ col_total_file_size row = Some (Z.of_nat (length binary_data)))
    (file_layout (bytes_to_bits binary_data) block_size_bytes
       (seq 0 (num_blocks e)))
    (csv_rows e).
Proof.
  destruct (encode_file_to_dna_rows rnd binary_data (Some forward_primer)
              (Some reverse_primer) check_file_size max_file_size
              block_size_bytes e Hencode) as (_ & _ & _ & _ & Hrows).
  cbn [default] in Hrows.
  pose proof (layout_fits binary_data block_size_bytes (seq 0 (num_blocks e))
                Hbytes Hsmall) as Hfit.
  induction Hrows as [|[k j] row layout' rows Hrow _ IH]; [constructor|].
  apply Forall_cons in Hfit as [Hj Hfit].
  constructor; [|by apply IH].
  cbn [fst snd] in *.
  destruct (is_row_contribution rnd (bytes_to_bits binary_data) forward_primer
              reverse_primer block_size_bytes (length binary_data) k j row
              Hclean Hrow Hj)
    as [Hvalid Hcontribution].
  split; [exact Hcontribution|]. split; [done|].
  by destruct Hrow as (Hidx & _ & _ & _ & _ & _ & _ & Htotal).
Qed.

Lemma encoded_keys_sorted :
  StronglySorted key_lt
    (layout_entry (bytes_to_bits binary_data) block_size_bytes
       <$> file_layout (bytes_to_bits binary_data) block_size_bytes
             (seq 0 (num_blocks e))).*1.
Proof.
  rewrite <- list_fmap_compose.
  apply (file_layout_sorted (bytes_to_bits binary_data) block_size_bytes 0
           (num_blocks e)).
Qed.

(** The decoded segment map of the file. *)
Lemma encoded_segment_map :
  foldl (contribute forward_primer reverse_primer) ∅ (csv_rows e)
  = list_to_map
      (layout_entry (bytes_to_bits binary_data) block_size_bytes
         <$> file_layout (bytes_to_bits binary_data) block_size_bytes
               (seq 0 (num_blocks e))).
Proof.
  rewrite <- foldl_insert_list_to_map
    by (apply StronglySorted_key_lt_NoDup, encoded_keys_sorted).
  generalize (∅ : gmap (Z * Z) (list bool)).
  induction encoded_contributions as [|kj row layout' rows Hrow _ IH];
    intros m; [done|].
  rewrite fmap_cons. cbn [foldl]. rewrite IH. f_equal.
  destruct Hrow as [Hcontribution _]. unfold contribute.
  by rewrite Hcontribution.
Qed.

Lemma encoded_num_blocks :
  block_size_bytes <> 0
  /\ num_blocks e
     = (length binary_data + block_size_bytes - 1) / block_size_bytes.
Proof.
  destruct (encode_file_to_dna_rows rnd binary_data (Some forward_primer)
              (Some reverse_primer) check_file_size max_file_size
              block_size_bytes e Hencode) as (HS & Hblocks & _).
  split; [done|]. rewrite Hblocks, length_bytes_to_bits by done.
  by rewrite (Nat.mul_comm 8), Nat.div_mul.
Qed.

(** The payloads of the file, in the order of their keys, spell the bits of
    the file followed by zeros, when no block but the last can need
    padding. *)
Lemma encoded_stream :
  binary_data <> [] ->
  (block_size_bytes `mod` 12 = 0 \/ length binary_data <= block_size_bytes) ->
  exists pad,
    concat (layout_entry (bytes_to_bits binary_data) block_size_bytes
              <$> file_layout (bytes_to_bits binary_data) block_size_bytes
                    (seq 0 (num_blocks e))).*2
    = bytes_to_bits binary_data ++ replicate pad false.
Proof.
  intros Hne Hcond. destruct encoded_num_blocks as [HS Hblocks].
  assert (length (bytes_to_bits binary_data) = 8 * length binary_data) as Hlen
    by (by apply length_bytes_to_bits).
  assert (0 < length binary_data) as Hpos
    by (destruct binary_data; [done|cbn; lia]).
  rewrite <- list_fmap_compose.
  change (snd ∘ layout_entry (bytes_to_bits binary_data) block_size_bytes)
    with (layout_payload (bytes_to_bits binary_data) block_size_bytes).
  rewrite concat_layout_payloads, Hblocks.
  destruct (ceil_div_cases (length binary_data) block_size_bytes ltac:(lia))
    as [[_ Hzero]|(m & -> & Hm)]; [lia|].
  apply concat_padded_blocks; [nia|].
  destruct Hcond as [Hmod|Hone].
  - left. apply Nat.Div0.mod_divides in Hmod as [q ->].
    replace (12 * q * 8) with (q * 96) by lia. apply Nat.Div0.mod_mul.
  - right. nia.
Qed.

Lemma encoded_rows_nonempty : binary_data <> [] -> csv_rows e <> [].
Proof.
  intros Hne Hnil. destruct encoded_num_blocks as [HS Hblocks].
  assert (0 < length binary_data) as Hpos
    by (destruct binary_data; [done|cbn; lia]).
  pose proof encoded_contributions as Hrows. rewrite Hnil in Hrows.
  apply Forall2_nil_inv_r in Hrows.
  assert ((0, 0) ∈ file_layout (bytes_to_bits binary_data) block_size_bytes
                     (seq 0 (num_blocks e))) as Hin;
    [|by rewrite Hrows in Hin; apply elem_of_nil in Hin].
  unfold file_layout. rewrite concat_mjoin.
  apply list_elem_of_join.
  exists (block_layout (bytes_to_bits binary_data) block_size_bytes 0).
  split.
  - unfold block_layout. apply list_elem_of_fmap. exists 0. split; [done|].
    apply elem_of_seq. rewrite block_bytes_bytes by done.
    unfold segments_of. split; [lia|]. cbn [Nat.add].
    apply Nat.div_str_pos. lia.
  - apply list_elem_of_fmap. exists 0. split; [done|].
    apply elem_of_seq. rewrite Hblocks. split; [lia|]. cbn [Nat.add].
    apply Nat.div_str_pos. lia.
Qed.

End Encoded.

(** What [decode_oligos_from_csv] writes, from the decoded segment map:
    when the payloads in key order spell the bits of [binary_data] and some
    padding, and the rows give the size of [binary_data] as the total file
    size, the output is [binary_data]. *)
Lemma written_of_segment_map (rows : list csv_row)
    (forward_primer reverse_primer : list ascii)
    (kvs : list ((Z * Z) * list bool)) (binary_data : list Z) (pad : nat) :
  Forall (fun b => (0 <= b < 256)%Z) binary_data ->
  binary_data <> [] ->
  foldl (contribute forward_primer reverse_primer) ∅ rows = list_to_map kvs ->
  StronglySorted key_lt kvs.*1 ->
  concat kvs.*2 = bytes_to_bits binary_data ++ replicate pad false ->
  rows <> [] ->
  Forall (fun row =>
            col_total_file_size row = Some (Z.of_nat (length binary_data)))
    rows ->
  let d := decode_oligos_from_csv rows forward_primer reverse_primer true in
  written d = Some binary_data
  /\ result_blocks d = list_to_map kvs
  /\ result_blocks d <> ∅
  /\ total_file_size (result_info d) = Z.of_nat (length binary_data).
Proof.
  intros Hbytes Hne Hmap Hsorted Hstream Hrows Htotal. cbv zeta.
  set (bits := bytes_to_bits binary_data) in *.
  assert (length bits = 8 * length binary_data) as Hlen
    by (by apply length_bytes_to_bits).
  assert (0 < length binary_data) as Hpos
    by (destruct binary_data; [done|cbn; lia]).
  assert (kvs <> []) as Hkvs.
  { intros Hnil. rewrite Hnil in Hstream. cbn in Hstream.
    apply (f_equal length) in Hstream. rewrite length_app, Hlen in Hstream.
    cbn in Hstream. lia. }
  assert ((list_to_map kvs : gmap (Z * Z) (list bool)) <> ∅) as Hnonempty.
  { intros Hempty. destruct kvs as [|[key data] kvs']; [done|].
    apply (f_equal (fun m : gmap (Z * Z) (list bool) => m !! key)) in Hempty.
    rewrite list_to_map_cons, lookup_insert_eq, lookup_empty in Hempty.
    done. }
  unfold decode_oligos_from_csv.
  cbn [written result_blocks result_info total_file_size andb].
  rewrite (row_loop_blocks forward_primer reverse_primer).
  change (decoded_blocks initial) with (∅ : gmap (Z * Z) (list bool)).
  rewrite Hmap.
  rewrite (row_loop_total forward_primer reverse_primer rows initial 2
             (Z.of_nat (length binary_data)) Htotal Hrows).
  split; [|done].
  rewrite bool_decide_eq_false_2 by done. cbn [negb].
  rewrite reassemble_list_to_map by done.
  rewrite bool_decide_eq_true_2 by lia.
  rewrite Hstream.
  replace (Z.to_nat (Z.of_nat (length binary_data) * 8)) with (length bits) by lia.
  rewrite take_app_length, Hlen.
  replace (8 * length binary_data / 8) with (length binary_data)
    by (by rewrite Nat.mul_comm, Nat.div_mul).
  rewrite (proj2 (Nat.ltb_lt _ _) Hpos).
  rewrite take_ge by lia.
  by rewrite to_bytes_bytes_to_bits.
Qed.

Section Lookup.
Variables forward_primer reverse_primer : list ascii.

(** A key of the decoded segment map was in the map before or comes from a
    record. *)
Lemma lookup_foldl_contribute_inv (rows : list csv_row)
    (m : gmap (Z * Z) (list bool)) (key : Z * Z) (data : list bool) :
  foldl (contribute forward_primer reverse_primer) m rows !! key = Some data ->
  (exists row, row ∈ rows
     /\ contribution forward_primer reverse_primer row = Some (key, data))
  \/ m !! key = Some data.
Proof.
  revert m. induction rows as [|row rows IH]; intros m; [by right|].
  cbn [foldl]. intros [(row' & Hin & Hc)|Hm]%IH.
  - left. exists row'. split; [by apply list_elem_of_further|done].
  - unfold contribute in Hm.
    destruct (contribution forward_primer reverse_primer row)
      as [[key' data']|] eqn:Hrow; [|by right].
    destruct (decide (key' = key)) as [->|Hneq].
    + rewrite lookup_insert_eq in Hm. injection Hm as ->.
      left. exists row. split; [apply list_elem_of_here|done].
    + rewrite lookup_insert_ne in Hm by done. by right.
Qed.

(** A payload stays under its key while the records that follow give the
    same payload for the key. *)
Lemma lookup_foldl_contribute_keep (rows : list csv_row)
    (m : gmap (Z * Z) (list bool)) (key : Z * Z) (data : list bool) :
  (forall row data', row ∈ rows ->
     contribution forward_primer reverse_primer row = Some (key, data') ->
     data' = data) ->
  m !! key = Some data ->
  foldl (contribute forward_primer reverse_primer) m rows !! key = Some data.
Proof.
  revert m. induction rows as [|row rows IH]; intros m Hsame Hm; [done|].
  cbn [foldl]. apply IH.
  - intros row' data' Hin. apply Hsame. by apply list_elem_of_further.
  - unfold contribute.
    destruct (contribution forward_primer reverse_primer row)
      as [[key' data']|] eqn:Hrow; [|done].
    destruct (decide (key' = key)) as [->|Hneq].
    + rewrite lookup_insert_eq. f_equal.
      apply (Hsame row); [apply list_elem_of_here|done].
    + by rewrite lookup_insert_ne.
Qed.

(** The payload of a record is found under its key, when no other record
    gives another payload for the key. *)
Lemma lookup_foldl_contribute_elem (rows : list csv_row)
    (m : gmap (Z * Z) (list bool)) (row : csv_row) (key : Z * Z)
    (data : list bool) :
  (forall row' data', row' ∈ rows ->
     contribution forward_primer reverse_primer row' = Some (key, data') ->
     data' = data) ->
  row ∈ rows ->
  contribution forward_primer reverse_primer row = Some (key, data) ->
  foldl (contribute forward_primer reverse_primer) m rows !! key = Some data.
Proof.
  revert m. induction rows as [|row' rows IH]; intros m Hsame Hin Hc;
    [by apply elem_of_nil in Hin|].
  cbn [foldl]. apply elem_of_cons in Hin as [<-|Hin].
  - apply lookup_foldl_contribute_keep.
    + intros row' data' Hin'. apply Hsame. by apply list_elem_of_further.
    + unfold contribute. rewrite Hc. apply lookup_insert_eq.
  - apply IH; [|done..].
    intros row'' data' Hin'. apply Hsame. by apply list_elem_of_further.
Qed.

(** Two lists of records with the same elements decode to the same segment
    map, when no two of the records give different payloads for a key. *)
Lemma foldl_contribute_same_elements (rows rows' : list csv_row) :
  (forall row, row ∈ rows' <-> row ∈ rows) ->
  (forall row1 row2 key data1 data2,
     row1 ∈ rows -> row2 ∈ rows ->
     contribution forward_primer reverse_primer row1 = Some (key, data1) ->
     contribution forward_primer reverse_primer row2 = Some (key, data2) ->
     data1 = data2) ->
  foldl (contribute forward_primer reverse_primer) ∅ rows'
  = foldl (contribute forward_primer reverse_primer) ∅ rows.
Proof.
  intros Hsame Hfun. apply map_eq. intros key. apply option_eq. intros data.
  split.
  - intros [(row & Hin & Hc)|Hm]%lookup_foldl_contribute_inv;
      [|by rewrite lookup_empty in Hm].
    apply (lookup_foldl_contribute_elem rows ∅ row); [|by apply Hsame|done].
    intros row' data' Hin' Hc'.
    apply (Hfun row' row key); [done|by apply Hsame|done..].
  - intros [(row & Hin & Hc)|Hm]%lookup_foldl_contribute_inv;
      [|by rewrite lookup_empty in Hm].
    apply (lookup_foldl_contribute_elem rows' ∅ row); [|by apply Hsame|done].
    intros row' data' Hin'%Hsame Hc'.
    by apply (Hfun row' row key).
Qed.

End Lookup.

End DecodingFacts.

(** ** Records in any order, any number of times *)

Module AnyOrder.
Import PyBits PyBitsFacts Encoder Decoder Spec SymbolFacts LayoutFacts
  BatchFacts RowFacts MapFacts StreamFacts RoundTrip EncoderFacts
  DecodingFacts.

Local Open Scope nat_scope.

Lemma count_all (forward_primer reverse_primer : list ascii) (v : verdict)
    (rows : list csv_row) :
  Forall (fun row => checksum_verdict forward_primer reverse_primer row = v)
    rows ->
  count forward_primer reverse_primer v rows = length rows.
Proof.
  unfold count. induction 1 as [|row rows Hrow _ IH]; [done|].
  rewrite filter_cons, decide_True by done. cbn [length]. by rewrite IH.
Qed.

Lemma count_none (forward_primer reverse_primer : list ascii) (v : verdict)
    (rows : list csv_row) :
  Forall (fun row => checksum_verdict forward_primer reverse_primer row <> v)
    rows ->
  count forward_primer reverse_primer v rows = 0.
Proof.
  unfold count. induction 1 as [|row rows Hrow _ IH]; [done|].
  by rewrite filter_cons, decide_False.
Qed.

(** X8. Decoding does not depend on the order of the records, nor on how
    many times each occurs: any CSV file that holds exactly the rows of an
    encoded file, shuffled and repeated at will, decodes to the bytes that
    were encoded (under the conditions of the round trip), every record
    being counted as valid. *)
Theorem round_trip_any_order (rnd : nat -> bool) (binary_data : list Z)
    (block_size_bytes : nat) (forward_primer reverse_primer : list ascii)
    (check_file_size : bool) (max_file_size : nat) (e : encoded)
    (rows : list csv_row) :
  Forall (fun b => (0 <= b < 256)%Z) binary_data ->
  binary_data <> [] ->
  (block_size_bytes `mod` 12 = 0 \/ length binary_data <= block_size_bytes) ->
  (Z.of_nat (block_size_bytes `min` length binary_data) <= 12 * 524287)%Z ->
  clean_primers forward_primer reverse_primer ->
  encode_file_to_dna rnd binary_data (Some forward_primer)
    (Some reverse_primer) check_file_size max_file_size block_size_bytes
  = Ok e ->
  (forall row, row ∈ rows <-> row ∈ csv_rows e) ->
  let d := decode_oligos_from_csv rows forward_primer reverse_primer true in
  written d = Some binary_data
  /\ result_blocks d
     = result_blocks
         (decode_oligos_from_csv (csv_rows e) forward_primer reverse_primer
            true)
  /\ stats (result_info d) = CrcStats (length rows) 0 0
  /\ result_errors d = [].
Proof.
  intros Hbytes Hne Hcond Hsmall Hclean Hencode Hsame. cbv zeta.
  pose proof (encoded_contributions rnd binary_data forward_primer
                reverse_primer check_file_size max_file_size block_size_bytes
                e Hbytes Hencode Hclean Hsmall) as Hrows.
  pose proof (encoded_segment_map rnd binary_data forward_primer
                reverse_primer check_file_size max_file_size block_size_bytes
                e Hbytes Hencode Hclean Hsmall) as Hmap.
  pose proof (encoded_keys_sorted binary_data block_size_bytes e) as Hsorted.
  destruct (encoded_stream rnd binary_data forward_primer reverse_primer
              check_file_size max_file_size block_size_bytes e Hbytes Hencode
              Hsmall Hne Hcond) as [pad Hstream].
  pose proof (encoded_rows_nonempty rnd binary_data forward_primer
                reverse_primer check_file_size max_file_size block_size_bytes
                e Hbytes Hencode Hclean Hsmall Hne) as Hnonempty.
  (* every record of [rows] is a row of the file *)
  assert (forall row, row ∈ rows ->
            exists kj,
              contribution forward_primer reverse_primer row
              = Some (layout_entry (bytes_to_bits binary_data)
                        block_size_bytes kj)
              /\ checksum_verdict forward_primer reverse_primer row = Valid
              /\ col_total_file_size row
                 = Some (Z.of_nat (length binary_data))) as Hrow.
  { intros row Hin%Hsame. apply list_elem_of_lookup in Hin as [i Hi].
    destruct (Forall2_lookup_r _ _ _ _ _ Hrows Hi)
      as (kj & _ & Hc & Hv & _ & Ht).
    by exists kj. }
  (* the segment map *)
  assert (foldl (contribute forward_primer reverse_primer) ∅ rows
          = foldl (contribute forward_primer reverse_primer) ∅ (csv_rows e))
    as Hfold.
  { apply foldl_contribute_same_elements; [done|].
    intros row1 row2 key data1 data2 Hin1%Hsame Hin2%Hsame Hc1 Hc2.
    destruct (Hrow row1 Hin1) as (kj1 & Hkj1 & _).
    destruct (Hrow row2 Hin2) as (kj2 & Hkj2 & _).
    rewrite Hc1 in Hkj1. rewrite Hc2 in Hkj2.
    injection Hkj1 as Hkey1 ->. injection Hkj2 as Hkey2 ->.
    rewrite Hkey1 in Hkey2. apply layout_key_inj in Hkey2. by subst kj2. }
  assert (rows <> []) as Hrowsne.
  { destruct (csv_rows e) as [|row0 rows0] eqn:Hcsv; [done|].
    intros Hnil. assert (row0 ∈ rows) as Hin
      by (apply Hsame; apply list_elem_of_here).
    rewrite Hnil in Hin. by apply elem_of_nil in Hin. }
  assert (Forall (fun row =>
                    checksum_verdict forward_primer reverse_primer row = Valid)
            rows) as Hvalid.
  { apply Forall_forall. intros row Hin.
    by destruct (Hrow row Hin) as (kj & _ & Hv & _). }
  destruct (written_of_segment_map rows forward_primer reverse_primer _
              binary_data pad Hbytes Hne ltac:(by rewrite Hfold, Hmap) Hsorted
              Hstream Hrowsne) as (Hwritten & _).
  { apply Forall_forall. intros row Hin.
    by destruct (Hrow row Hin) as (kj & _ & _ & Ht). }
  split; [exact Hwritten|]. split.
  - unfold decode_oligos_from_csv. cbn [result_blocks].
    by rewrite !(row_loop_blocks forward_primer reverse_primer).
  - unfold decode_oligos_from_csv. cbn [result_info result_errors stats].
    pose proof (row_loop_stats forward_primer reverse_primer rows initial 2)
      as (Hv & Hi & Hm & He).
    rewrite (count_all _ _ Valid rows Hvalid) in Hv.
    rewrite count_none in Hi, Hm, He.
    2-4: eapply Forall_impl; [exact Hvalid|]; by intros row ->.
    rewrite count_none in He
      by (eapply Forall_impl; [exact Hvalid|]; by intros row ->).
    cbn in Hv, Hi, Hm, He. split.
    + destruct (stats _) as [v i m]. cbn in *. by subst.
    + by apply nil_length_inv.
Qed.

Lemma round_trip_any_order_witness :
  match encode_file_to_dna (fun _ => false) (seqZ 1 30)
          (Some DEFAULT_FORWARD_PRIMER) (Some DEFAULT_REVERSE_PRIMER)
          false 0 24 with
  | Ok e =>
      written (decode_oligos_from_csv (reverse (csv_rows e) ++ csv_rows e)
                 DEFAULT_FORWARD_PRIMER DEFAULT_REVERSE_PRIMER true)
      = Some (seqZ 1 30)
  | Raise _ => False
  end.
Proof.
  destruct (encode_file_to_dna (fun _ => false) (seqZ 1 30)
              (Some DEFAULT_FORWARD_PRIMER) (Some DEFAULT_REVERSE_PRIMER)
              false 0 24) as [e|err] eqn:Hencode.
  - apply (round_trip_any_order (fun _ => false) (seqZ 1 30) 24
             DEFAULT_FORWARD_PRIMER DEFAULT_REVERSE_PRIMER false 0 e).
    + apply Forall_forall. intros b Hb%elem_of_seqZ. lia.
    + discriminate.
    + left. reflexivity.
    + apply Z.leb_le. vm_compute. reflexivity.
    + split; intros c Hc; injection Hc as <-; reflexivity.
    + exact Hencode.
    + intros row. rewrite elem_of_app, elem_of_reverse. tauto.
  - vm_compute in Hencode. discriminate Hencode.
Defined.

End AnyOrder.

(** ** The effect of one misread symbol *)

Module Misreads.
Import PyBits PyBitsFacts Zlib ZlibFacts Encoder Decoder Spec Terms
  ChecksumFacts SymbolFacts LayoutFacts BatchFacts RowFacts MapFacts
  EncoderFacts DecodingFacts.

Local Open Scope nat_scope.

Lemma decode_lookup (dna : list ascii) (bits : list bool) (i : nat)
    (base : ascii) :
  decode_dna_to_bits dna = Some bits -> dna !! i = Some base ->
  BASE_TO_BIT base = bits !! i /\ is_Some (bits !! i).
Proof.
  revert bits i. induction dna as [|c dna IH]; intros bits i Hdec Hi; [done|].
  rewrite decode_dna_to_bits_cons in Hdec.
  destruct (BASE_TO_BIT c) as [b|] eqn:Hc; [|done].
  destruct (decode_dna_to_bits dna) as [bits'|] eqn:Hdna; [|done].
  injection Hdec as <-. destruct i as [|i].
  - injection Hi as <-. by rewrite Hc.
  - by apply (IH bits' i).
Qed.

Lemma decode_insert (dna : list ascii) (bits : list bool) (i : nat)
    (base : ascii) (v : bool) :
  decode_dna_to_bits dna = Some bits -> BASE_TO_BIT base = Some v ->
  decode_dna_to_bits (<[i := base]> dna) = Some (<[i := v]> bits).
Proof.
  revert bits i. induction dna as [|c dna IH]; intros bits i Hdec Hbase.
  - by injection Hdec as <-.
  - rewrite decode_dna_to_bits_cons in Hdec.
    destruct (BASE_TO_BIT c) as [b|] eqn:Hc; [|done].
    destruct (decode_dna_to_bits dna) as [bits'|] eqn:Hdna; [|done].
    injection Hdec as <-. destruct i as [|i].
    + change (decode_dna_to_bits (base :: dna) = Some (v :: bits')).
      by rewrite decode_dna_to_bits_cons, Hbase, Hdna.
    + change (decode_dna_to_bits (c :: <[i := base]> dna)
              = Some (b :: <[i := v]> bits')).
      by rewrite decode_dna_to_bits_cons, Hc, (IH bits' i).
Qed.

Lemma insert_bit (bits : list bool) (i : nat) (u v : bool) :
  bits !! i = Some u ->
  <[i := v]> bits = if bool_decide (u = v) then bits else alter negb i bits.
Proof.
  intros Hi. case_bool_decide as Huv.
  - subst v. by apply list_insert_id.
  - assert (v = negb u) as -> by (by destruct u, v).
    revert i Hi. induction bits as [|b bits IH]; intros [|i] Hi; try done.
    + by injection Hi as ->.
    + cbn. f_equal. by apply IH.
Qed.

(** A symbol of a field read as another base: the bits of the field stay
    the same when the base stands for the same bit, and the bit of that
    position is flipped otherwise. *)
Lemma decode_misread (dna : list ascii) (bits : list bool) (i : nat)
    (old base : ascii) (v : bool) :
  decode_dna_to_bits dna = Some bits -> dna !! i = Some old ->
  BASE_TO_BIT base = Some v ->
  decode_dna_to_bits (<[i := base]> dna)
  = Some (if bool_decide (BASE_TO_BIT old = Some v) then bits
          else alter negb i bits).
Proof.
  intros Hdec Hold Hbase.
  destruct (decode_lookup dna bits i old Hdec Hold) as [Hbit [u Hu]].
  rewrite (decode_insert dna bits i base v Hdec Hbase), (insert_bit bits i u v Hu).
  rewrite Hbit, Hu. f_equal.
  destruct (decide (u = v)) as [->|Hne].
  - by rewrite !bool_decide_eq_true_2.
  - rewrite !bool_decide_eq_false_2; [done|congruence|done].
Qed.

Lemma alter_negb_ne (bits : list bool) (i : nat) :
  i < length bits -> alter negb i bits <> bits.
Proof.
  intros Hi Heq. destruct (lookup_lt_is_Some_2 bits i Hi) as [b Hb].
  apply (f_equal (fun l => l !! i)) in Heq.
  rewrite list_lookup_alter_eq, Hb in Heq. cbn in Heq. by destruct b.
Qed.

Lemma calculate_flip_differs (payload_bits : list bool) (i : nat) :
  length payload_bits = 96 -> i < 96 ->
  calculate_crc32_checksum (alter negb i payload_bits)
  <> calculate_crc32_checksum payload_bits.
Proof.
  intros Hlen Hi. unfold calculate_crc32_checksum.
  rewrite length_alter, Hlen. change ((96 + 7) / 8) with 12.
  intros Heq. apply (crc32_flip_differs payload_bits i Hlen Hi).
  apply (format_b_inj 32); [| |done]; apply crc32_range, to_bytes_range.
Qed.

(** The class and the contribution of a record whose oligo is made of the
    primers around three fields that decode. *)
Lemma framed_record (forward_primer reverse_primer : list ascii)
    (address_dna data_dna crc32_dna : list ascii)
    (address_bits data_bits crc32_bits : list bool) (row : csv_row) :
  clean_primers forward_primer reverse_primer ->
  col_oligo row
  = forward_primer ++ (address_dna ++ data_dna ++ crc32_dna) ++ reverse_primer ->
  length address_dna = 19 -> length data_dna = 96 -> length crc32_dna = 32 ->
  decode_dna_to_bits address_dna = Some address_bits ->
  decode_dna_to_bits data_dna = Some data_bits ->
  decode_dna_to_bits crc32_dna = Some crc32_bits ->
  checksum_verdict forward_primer reverse_primer row
  = (if bool_decide (calculate_crc32_checksum data_bits = crc32_bits)
     then Valid else Invalid)
  /\ contribution forward_primer reverse_primer row
     = (if bool_decide (calculate_crc32_checksum data_bits = crc32_bits)
        then Some ((default 0%Z (col_block_index row), int2 address_bits),
                   data_bits)
        else None).
Proof.
  intros Hclean Holigo Hla Hld Hlc Ha Hd Hc.
  assert (row_fields forward_primer reverse_primer row
          = Some (address_bits, data_bits, crc32_dna)) as Hfields.
  { unfold row_fields. rewrite Holigo, strip_framed.
    - rewrite extract_oligo_parts_framed by done. by rewrite Ha, Hd.
    - done.
    - rewrite !Forall_app. repeat split; eapply decode_bases; eassumption.
    - intros Hnil. apply (f_equal length) in Hnil.
      rewrite !length_app, Hla in Hnil. done. }
  assert (checksum_verdict forward_primer reverse_primer row
          = (if bool_decide (calculate_crc32_checksum data_bits = crc32_bits)
             then Valid else Invalid)) as Hverdict.
  { unfold checksum_verdict. rewrite Hfields, Hlc. cbn [Nat.leb].
    rewrite take_ge by lia. by rewrite Hc. }
  split; [done|].
  unfold contribution. rewrite Hverdict, Hfields. by case_bool_decide.
Qed.

(** X9. The effect of one misread symbol on a record of an encoded file.
    A symbol of the address, payload or checksum region read as a base of
    the same bit (its synonym) changes nothing: the record is valid and
    stored as before.  Read as a base of the other bit, a payload or
    checksum symbol makes the record invalid, so that it is dropped; but an
    address symbol leaves the record valid, the checksum not covering the
    address, and the payload is stored under the address with that bit
    flipped. *)
Theorem single_misread (rnd : nat -> bool) (binary_data : list Z)
    (block_size_bytes : nat) (forward_primer reverse_primer : list ascii)
    (check_file_size : bool) (max_file_size : nat) (e : encoded)
    (row : csv_row) (p : nat) (old base : ascii) (v : bool) :
  Forall (fun b => (0 <= b < 256)%Z) binary_data ->
  (Z.of_nat (block_size_bytes `min` length binary_data) <= 12 * 524287)%Z ->
  clean_primers forward_primer reverse_primer ->
  encode_file_to_dna rnd binary_data (Some forward_primer)
    (Some reverse_primer) check_file_size max_file_size block_size_bytes
  = Ok e ->
  row ∈ csv_rows e ->
  p < 19 + 96 + 32 ->
  col_oligo row !! (length forward_primer + p) = Some old ->
  BASE_TO_BIT base = Some v ->
  let row' := misread_at forward_primer p base row in
  exists key payload,
    contribution forward_primer reverse_primer row = Some (key, payload)
    /\ (BASE_TO_BIT old = Some v ->
          checksum_verdict forward_primer reverse_primer row' = Valid
          /\ contribution forward_primer reverse_primer row'
             = Some (key, payload))
    /\ (BASE_TO_BIT old = Some (negb v) ->
          if p <? 19 then
            checksum_verdict forward_primer reverse_primer row' = Valid
            /\ contribution forward_primer reverse_primer row'
               = Some ((key.1, Z.lxor key.2 (2 ^ Z.of_nat (18 - p))), payload)
          else
            checksum_verdict forward_primer reverse_primer row' = Invalid
            /\ contribution forward_primer reverse_primer row' = None).
Proof.
  intros Hbytes Hsmall Hclean Hencode Hin Hp Hold Hbase row'.
  destruct (encode_file_to_dna_rows rnd binary_data (Some forward_primer)
              (Some reverse_primer) check_file_size max_file_size
              block_size_bytes e Hencode) as (_ & _ & _ & _ & Hrows).
  cbn [default] in Hrows. unfold id in Hrows.
  pose proof (layout_fits binary_data block_size_bytes (seq 0 (num_blocks e))
                Hbytes Hsmall) as Hfit.
  apply list_elem_of_lookup in Hin as [i Hi].
  destruct (Forall2_lookup_r _ _ _ _ _ Hrows Hi) as ([k j] & Hkj & Hrow).
  rewrite Forall_forall in Hfit.
  specialize (Hfit (k, j) (list_elem_of_lookup_2 _ _ _ Hkj)).
  cbn [fst snd] in *.
  destruct Hrow as (Hk & Ha & Hd & Hc & (p1 & p2 & p3 & Holigo) & _).
  set (abits := col_address row) in *.
  set (dbits := col_data_bits row) in *.
  set (A := encode_bits_to_dna rnd p1 abits []) in *.
  set (D := encode_bits_to_dna rnd p2 dbits []) in *.
  set (C := encode_bits_to_dna rnd p3 (col_crc32 row) []) in *.
  assert (length abits = 19) as Hlab.
  { rewrite Ha. apply length_format_b; [|lia]. unfold segment_address in *. lia. }
  assert (length dbits = 96) as Hldb
    by (rewrite Hd; apply length_segment_payload).
  assert (length (col_crc32 row) = 32) as Hlcb
    by (rewrite Hc; apply length_calculate_crc32_checksum).
  assert (length A = 19) as HlA by (unfold A; by rewrite length_encode_bits).
  assert (length D = 96) as HlD by (unfold D; by rewrite length_encode_bits).
  assert (length C = 32) as HlC by (unfold C; by rewrite length_encode_bits).
  assert (decode_dna_to_bits A = Some abits) as HdA by apply decode_encode_bits.
  assert (decode_dna_to_bits D = Some dbits) as HdD by apply decode_encode_bits.
  assert (decode_dna_to_bits C = Some (col_crc32 row)) as HdC
    by apply decode_encode_bits.
  (* the record as it was written *)
  destruct (framed_record forward_primer reverse_primer A D C abits dbits
              (col_crc32 row) row Hclean Holigo HlA HlD HlC HdA HdD HdC)
    as [_ Hcontribution].
  rewrite bool_decide_eq_true_2 in Hcontribution by done.
  rewrite Hk in Hcontribution. cbn [default] in Hcontribution.
  unfold id in Hcontribution.
  exists (Z.of_nat k, int2 abits), dbits. split; [exact Hcontribution|].
  cbn [fst snd].
  (* the record as it is read *)
  assert (col_block_index row' = Some (Z.of_nat k)) as Hk' by exact Hk.
  assert (col_oligo row'
          = forward_primer ++ <[p := base]> (A ++ D ++ C) ++ reverse_primer)
    as Holigo'.
  { unfold row', misread_at. cbn [col_oligo]. rewrite Holigo, insert_app_r.
    by rewrite insert_app_l by (rewrite !length_app; lia). }
  assert ((A ++ D ++ C) !! p = Some old) as Hcore.
  { rewrite Holigo, lookup_app_r in Hold by lia.
    replace (length forward_primer + p - length forward_primer) with p
      in Hold by lia.
    by rewrite lookup_app_l in Hold by (rewrite !length_app; lia). }
  destruct (decide (p < 19)) as [Haddr|Hnot].
  - (* an address symbol *)
    rewrite (proj2 (Nat.ltb_lt p 19) Haddr).
    rewrite insert_app_l in Holigo' by lia.
    rewrite lookup_app_l in Hcore by lia.
    pose proof (decode_misread A abits p old base v HdA Hcore Hbase) as HdA'.
    split.
    + intros Hsame. rewrite bool_decide_eq_true_2 in HdA' by done.
      destruct (framed_record forward_primer reverse_primer _ D C abits dbits
                  (col_crc32 row) row' Hclean Holigo'
                  ltac:(by rewrite length_insert) HlD HlC HdA' HdD HdC)
        as [Hv Hcon].
      rewrite bool_decide_eq_true_2 in Hv, Hcon by done.
      by rewrite Hk' in Hcon.
    + intros Hflip.
      rewrite bool_decide_eq_false_2 in HdA'
        by (rewrite Hflip; intros [= Heq]; by destruct v).
      destruct (framed_record forward_primer reverse_primer _ D C _ dbits
                  (col_crc32 row) row' Hclean Holigo'
                  ltac:(by rewrite length_insert) HlD HlC HdA' HdD HdC)
        as [Hv Hcon].
      rewrite bool_decide_eq_true_2 in Hv, Hcon by done.
      split; [done|]. rewrite Hcon, Hk'. cbn [default].
      rewrite int2_flip by lia. rewrite Hlab.
      by replace (19 - 1 - p) with (18 - p) by lia.
  - rewrite (proj2 (Nat.ltb_ge p 19)) by lia.
    rewrite insert_app_r_alt in Holigo' by lia.
    rewrite lookup_app_r in Hcore by lia. rewrite HlA in Holigo', Hcore.
    destruct (decide (p < 19 + 96)) as [Hdata|Hcrc].
    + (* a payload symbol *)
      rewrite insert_app_l in Holigo' by lia.
      rewrite lookup_app_l in Hcore by lia.
      pose proof (decode_misread D dbits (p - 19) old base v HdD Hcore Hbase)
        as HdD'.
      split.
      * intros Hsame. rewrite bool_decide_eq_true_2 in HdD' by done.
        destruct (framed_record forward_primer reverse_primer A _ C abits
                    dbits (col_crc32 row) row' Hclean Holigo' HlA
                    ltac:(by rewrite length_insert) HlC HdA HdD' HdC)
          as [Hv Hcon].
        rewrite bool_decide_eq_true_2 in Hv, Hcon by done.
        by rewrite Hk' in Hcon.
      * intros Hflip.
        rewrite bool_decide_eq_false_2 in HdD'
          by (rewrite Hflip; intros [= Heq]; by destruct v).
        destruct (framed_record forward_primer reverse_primer A _ C abits _
                    (col_crc32 row) row' Hclean Holigo' HlA
                    ltac:(by rewrite length_insert) HlC HdA HdD' HdC)
          as [Hv Hcon].
        rewrite bool_decide_eq_false_2 in Hv, Hcon; [done| |].
        all: rewrite Hc; apply calculate_flip_differs; [done|lia].
    + (* a checksum symbol *)
      rewrite insert_app_r_alt in Holigo' by lia.
      rewrite lookup_app_r in Hcore by lia. rewrite HlD in Holigo', Hcore.
      pose proof (decode_misread C (col_crc32 row) (p - 19 - 96) old base v
                    HdC Hcore Hbase) as HdC'.
      split.
      * intros Hsame. rewrite bool_decide_eq_true_2 in HdC' by done.
        destruct (framed_record forward_primer reverse_primer A D _ abits
                    dbits (col_crc32 row) row' Hclean Holigo' HlA HlD
                    ltac:(by rewrite length_insert) HdA HdD HdC')
          as [Hv Hcon].
        rewrite bool_decide_eq_true_2 in Hv, Hcon by done.
        by rewrite Hk' in Hcon.
      * intros Hflip.
        rewrite bool_decide_eq_false_2 in HdC'
          by (rewrite Hflip; intros [= Heq]; by destruct v).
        destruct (framed_record forward_primer reverse_primer A D _ abits
                    dbits _ row' Hclean Holigo' HlA HlD
                    ltac:(by rewrite length_insert) HdA HdD HdC')
          as [Hv Hcon].
        rewrite bool_decide_eq_false_2 in Hv, Hcon; [done| |].
        all: rewrite <- Hc; intros Heq; symmetry in Heq; revert Heq;
          apply alter_negb_ne; lia.
Qed.

Lemma single_misread_witness :
  exists e row,
    encode_file_to_dna (fun _ => false) (seqZ 1 30)
      (Some DEFAULT_FORWARD_PRIMER) (Some DEFAULT_REVERSE_PRIMER) false 0 24
    = Ok e
    /\ row ∈ csv_rows e
    /\ checksum_verdict DEFAULT_FORWARD_PRIMER DEFAULT_REVERSE_PRIMER
         (misread_at DEFAULT_FORWARD_PRIMER 19 "G" row) = Invalid.
Proof.
  destruct (encode_file_to_dna (fun _ => false) (seqZ 1 30)
              (Some DEFAULT_FORWARD_PRIMER) (Some DEFAULT_REVERSE_PRIMER)
              false 0 24) as [e|err] eqn:Hencode;
    [|vm_compute in Hencode; discriminate Hencode].
  assert (exists row, head (csv_rows e) = Some row
            /\ col_oligo row !! (length DEFAULT_FORWARD_PRIMER + 19)
               = Some "A"%char) as (row & Hhead & Hold).
  { pose proof Hencode as Hrows. vm_compute in Hrows. injection Hrows as <-.
    eexists. split; vm_compute; reflexivity. }
  exists e, row. split; [reflexivity|].
  assert (row ∈ csv_rows e) as Hin by (by apply head_elem_of).
  split; [exact Hin|].
  destruct (single_misread (fun _ => false) (seqZ 1 30) 24
              DEFAULT_FORWARD_PRIMER DEFAULT_REVERSE_PRIMER false 0 e row 19
              "A" "G" true) as (key & payload & _ & _ & Hflip).
  - apply Forall_forall. intros b Hb%elem_of_seqZ. lia.
  - apply Z.leb_le. vm_compute. reflexivity.
  - split; intros c Hc; injection Hc as <-; reflexivity.
  - exact Hencode.
  - exact Hin.
  - lia.
  - exact Hold.
  - reflexivity.
  - specialize (Hflip eq_refl). cbn [Nat.ltb Nat.leb] in Hflip.
    exact (proj1 Hflip).
Defined.

End Misreads.

(** ** Decoding a FASTQ file *)

Module FastqFacts.
Import PyBits PyBitsFacts Encoder Decoder Spec Terms SymbolFacts LayoutFacts
  BatchFacts RowFacts MapFacts StreamFacts RoundTrip Addresses InterfaceFacts
  EncoderFacts DecodingFacts BytesFacts.

Local Open Scope nat_scope.

Lemma lstrip_head (s : list ascii) (c : ascii) :
  head (lstrip s) = Some c -> is_space c = false.
Proof.
  induction s as [|a s IH]; [done|]. cbn [lstrip].
  destruct (is_space a) eqn:Ha; [done|]. by intros [= <-].
Qed.

Lemma lstrip_suffix (s : list ascii) : lstrip s `suffix_of` s.
Proof.
  induction s as [|a s IH]; [done|]. cbn [lstrip].
  destruct (is_space a); [by apply suffix_cons_r|done].
Qed.

Lemma last_lstrip (s : list ascii) (c : ascii) :
  last (lstrip s) = Some c -> last s = Some c.
Proof.
  destruct (lstrip_suffix s) as [k Hk]. intros Hlast.
  rewrite Hk at 1. by rewrite last_app, Hlast.
Qed.

(** [strip] leaves a stripped string alone. *)
Lemma strip_strip (s : list ascii) : strip (strip s) = strip s.
Proof.
  apply strip_id; unfold strip; intros c.
  - rewrite head_reverse. intros Hc%last_lstrip.
    rewrite last_reverse in Hc. by apply lstrip_head in Hc.
  - rewrite last_reverse. apply lstrip_head.
Qed.

Lemma fastq_sequences_stripped (line_count : nat) (lines : list (list ascii)) :
  Forall (fun seq => strip seq = seq) (fastq_sequences line_count lines).
Proof.
  revert line_count. induction lines as [|line lines IH]; intros line_count;
    [constructor|].
  cbn [fastq_sequences]. destruct (_ =? 2); [|apply IH].
  constructor; [apply strip_strip|apply IH].
Qed.

Section Sequences.
Variables forward_primer reverse_primer : list ascii.

(** One pass of the loop of [decode_oligos_from_fastq] does to the segment
    map and to the counters what the loop of [decode_oligos_from_csv] does
    for a row without block columns. *)
Lemma process_sequence_bare_row (m : gmap (Z * Z) (list bool)) (s : crc_stats)
    (line : list ascii) :
  process_sequence forward_primer reverse_primer (m, s) (strip line)
  = (contribute forward_primer reverse_primer m (bare_row line),
     tally (checksum_verdict forward_primer reverse_primer (bare_row line)) s).
Proof.
  unfold process_sequence, contribute, contribution, checksum_verdict,
    row_fields. cbn [bare_row col_oligo col_block_index default].
  destruct (extract_oligo_parts _ _ _) as [[[address_dna data_dna] crc32_dna]|];
    [|done].
  destruct (decode_dna_to_bits address_dna) as [address_bits|]; [|done].
  destruct (decode_dna_to_bits data_dna) as [data_bits|]; [|done].
  destruct (32 <=? length crc32_dna); [|done].
  destruct (decode_dna_to_bits (take 32 crc32_dna)) as [crc32_bits|]; [|done].
  unfold verify_crc32_checksum, calculate_crc32_checksum.
  by destruct (bool_decide _).
Qed.

Lemma foldl_process_sequence (lines : list (list ascii))
    (m : gmap (Z * Z) (list bool)) (s : crc_stats) :
  foldl (process_sequence forward_primer reverse_primer) (m, s)
    (strip <$> lines)
  = (foldl (contribute forward_primer reverse_primer) m (bare_row <$> lines),
     foldl (fun s row =>
              tally (checksum_verdict forward_primer reverse_primer row) s)
       s (bare_row <$> lines)).
Proof.
  revert m s. induction lines as [|line lines IH]; intros m s; [done|].
  rewrite !fmap_cons. cbn [foldl]. by rewrite process_sequence_bare_row, IH.
Qed.

Lemma row_loop_tally (rows : list csv_row) (st : state) (row_num : nat) :
  stats (info (row_loop forward_primer reverse_primer st row_num rows))
  = foldl (fun s row =>
             tally (checksum_verdict forward_primer reverse_primer row) s)
      (stats (info st)) rows.
Proof.
  revert st row_num. induction rows as [|row rows IH]; intros st row_num;
    [done|].
  cbn [row_loop foldl]. rewrite IH.
  by destruct (process_row_effect forward_primer reverse_primer st row_num row)
    as (_ & -> & _).
Qed.

Lemma row_loop_total_absent (rows : list csv_row) (st : state) (row_num : nat) :
  Forall (fun row => col_total_file_size row = None) rows ->
  total_file_size (info (row_loop forward_primer reverse_primer st row_num rows))
  = total_file_size (info st).
Proof.
  intros Hall. revert st row_num.
  induction Hall as [|row rows Hrow _ IH]; intros st row_num; [done|].
  cbn [row_loop]. by rewrite IH, process_row_total, Hrow.
Qed.

End Sequences.

(** The segment map and the counters of [decode_oligos_from_fastq]. *)
Lemma fastq_fold (fastq_file : list (list ascii))
    (forward_primer reverse_primer : list ascii) :
  let rows := bare_row <$> fastq_sequences 0 fastq_file in
  foldl (process_sequence forward_primer reverse_primer) (∅, CrcStats 0 0 0)
    (fastq_sequences 0 fastq_file)
  = (foldl (contribute forward_primer reverse_primer) ∅ rows,
     foldl (fun s row =>
              tally (checksum_verdict forward_primer reverse_primer row) s)
       (CrcStats 0 0 0) rows).
Proof.
  cbv zeta. set (sequences := fastq_sequences 0 fastq_file).
  assert (strip <$> sequences = sequences) as Hstripped.
  { pose proof (fastq_sequences_stripped 0 fastq_file) as Hall.
    fold sequences in Hall. induction Hall as [|seq seqs Hseq _ IH]; [done|].
    by rewrite fmap_cons, Hseq, IH. }
  rewrite <- Hstripped at 1. apply foldl_process_sequence.
Qed.

Lemma sum_list_lengths (m : gmap (Z * Z) (list bool)) :
  map_Forall (fun _ data_bits => length data_bits = 96) m ->
  sum_list (length <$> (map_to_list m).*2) = 96 * size m.
Proof.
  intros Hall. rewrite <- length_map_to_list.
  assert (Forall (fun kv : Z * Z * list bool => length kv.2 = 96)
            (map_to_list m)) as Hlist.
  { apply Forall_forall. intros [key data] Hin%elem_of_map_to_list.
    by apply (Hall key). }
  induction Hlist as [|kv kvs Hkv _ IH]; [done|].
  change (length kv.2 + sum_list (length <$> kvs.*2) = 96 * S (length kvs)).
  rewrite Hkv, IH. lia.
Qed.

(** X10. [decode_oligos_from_fastq] reads the lines 2, 6, 10, ... of the
    file and decodes them as [decode_oligos_from_csv] decodes a CSV file
    that has only the DNA Oligo column: the same segment map, the same
    counters and the same bytes written, the output not being trimmed.
    Every segment is given to block 0, so the block count is 1 as soon as
    something was decoded, and the file size is estimated at 12 bytes for
    each address decoded. *)
Theorem fastq_decodes_as_csv (fastq_file : list (list ascii))
    (forward_primer reverse_primer : list ascii) (output_file : bool) :
  let d :=
    decode_oligos_from_fastq fastq_file forward_primer reverse_primer
      output_file in
  let d' :=
    decode_oligos_from_csv (bare_row <$> fastq_sequences 0 fastq_file)
      forward_primer reverse_primer output_file in
  result_blocks d = result_blocks d'
  /\ stats (result_info d) = stats (result_info d')
  /\ written d = written d'
  /\ (forall key, key ∈ dom (result_blocks d) -> key.1 = 0%Z)
  /\ block_count (result_info d)
     = (if decide (result_blocks d = ∅) then 0 else 1)
  /\ total_file_size (result_info d)
     = (12 * Z.of_nat (size (result_blocks d)))%Z.
Proof.
  cbv zeta. unfold decode_oligos_from_fastq, decode_oligos_from_csv.
  pose proof (fastq_fold fastq_file forward_primer reverse_primer) as Hfold.
  cbv zeta in Hfold. rewrite Hfold. clear Hfold.
  set (sequences := fastq_sequences 0 fastq_file).
  set (rows := bare_row <$> sequences).
  set (m := foldl (contribute forward_primer reverse_primer) ∅ rows).
  cbv beta iota.
  cbn [result_blocks result_info stats written block_count total_file_size].
  rewrite (row_loop_blocks forward_primer reverse_primer).
  change (decoded_blocks initial) with (∅ : gmap (Z * Z) (list bool)).
  fold m.
  assert (forall key, key ∈ dom m -> key.1 = 0%Z) as Hkeys.
  { intros key [Hin|(row & data & Hrow & Hc)]%dom_foldl_contribute.
    - by rewrite dom_empty_L in Hin.
    - apply contribution_key in Hc as [-> _].
      apply list_elem_of_fmap in Hrow as (seq & -> & _). done. }
  assert (map_Forall (fun _ data_bits => length data_bits = 96) m) as Hlengths
    by apply foldl_contribute_lengths, map_Forall_empty.
  split; [done|]. split; [by rewrite row_loop_tally|].
  split; [|split; [done|split]].
  - rewrite (row_loop_total_absent forward_primer reverse_primer rows initial 2)
      by (apply Forall_forall; by intros row (seq & -> & _)%list_elem_of_fmap).
    unfold reassemble. cbn [total_file_size info initial].
    by rewrite (bool_decide_eq_false_2 (0 > 0)%Z) by lia.
  - destruct (decide (m = ∅)) as [->|Hne].
    + by rewrite dom_empty_L, elements_empty.
    + assert (list_to_set (fst <$> elements (dom m)) = ({[0%Z]} : gset Z))
        as ->; [|apply size_singleton].
      apply set_eq. intros x.
      rewrite elem_of_list_to_set, list_elem_of_fmap, elem_of_singleton.
      split.
      * intros (key & -> & Hin%elem_of_elements). by apply Hkeys.
      * intros ->. destruct (map_choose m Hne) as (key & data & Hkey).
        assert (key ∈ dom m) as Hin by (by apply elem_of_dom).
        exists key. split; [by rewrite Hkeys|by apply elem_of_elements].
  - case_bool_decide as Hempty.
    + by rewrite Hempty, map_size_empty.
    + rewrite sum_list_lengths by done.
      replace (96 * size m) with (12 * size m * 8) by lia.
      rewrite Nat.div_mul by done. lia.
Qed.

(** What a row of a single-block file contributes when it is read without
    its block columns. *)
Lemma contribute_bare_row (forward_primer reverse_primer : list ascii)
    (row : csv_row) (m : gmap (Z * Z) (list bool)) :
  col_block_index row = Some 0%Z ->
  contribute forward_primer reverse_primer m (bare_row (col_oligo row))
  = contribute forward_primer reverse_primer m row.
Proof.
  intros Hidx. unfold contribute, contribution, checksum_verdict, row_fields.
  cbn [bare_row col_oligo col_block_index]. by rewrite Hidx.
Qed.

Lemma foldl_contribute_bare_rows (forward_primer reverse_primer : list ascii)
    (rows : list csv_row) (m : gmap (Z * Z) (list bool)) :
  Forall (fun row => col_block_index row = Some 0%Z) rows ->
  foldl (contribute forward_primer reverse_primer) m
    (bare_row <$> (col_oligo <$> rows))
  = foldl (contribute forward_primer reverse_primer) m rows.
Proof.
  intros Hzero. revert m.
  induction Hzero as [|row rows Hrow _ IH]; intros m; [done|].
  rewrite !fmap_cons. cbn [foldl].
  by rewrite contribute_bare_row, IH.
Qed.

(** X11. Round trip through a FASTQ file: when a file stored as a single
    block is encoded and the reads of the FASTQ file are exactly the oligos
    that were written, in any order and any number of times, then
    [decode_oligos_from_fastq] writes the bytes of the file followed by the
    zero bytes that pad the last segment up to 12 bytes: the file itself
    only when its size is a multiple of 12. *)
Theorem fastq_round_trip (rnd : nat -> bool) (binary_data : list Z)
    (block_size_bytes : nat) (forward_primer reverse_primer : list ascii)
    (check_file_size : bool) (max_file_size : nat) (e : encoded)
    (fastq_file : list (list ascii)) :
  Forall (fun b => (0 <= b < 256)%Z) binary_data ->
  binary_data <> [] ->
  length binary_data <= block_size_bytes ->
  (Z.of_nat (length binary_data) <= 12 * 524287)%Z ->
  clean_primers forward_primer reverse_primer ->
  encode_file_to_dna rnd binary_data (Some forward_primer)
    (Some reverse_primer) check_file_size max_file_size block_size_bytes
  = Ok e ->
  (forall seq, seq ∈ fastq_sequences 0 fastq_file
               <-> seq ∈ col_oligo <$> csv_rows e) ->
  let n := length binary_data in
  written (decode_oligos_from_fastq fastq_file forward_primer reverse_primer
             true)
  = Some (binary_data ++ replicate (12 * ((n + 11) / 12) - n) 0%Z).
Proof.
  intros Hbytes Hne Hone Hfit Hclean Hencode Hsame n.
  assert (Z.of_nat (block_size_bytes `min` length binary_data)
          <= 12 * 524287)%Z as Hsmall by lia.
  assert (0 < n) as Hpos by (unfold n; destruct binary_data; [done|cbn; lia]).
  pose proof (encoded_contributions rnd binary_data forward_primer
                reverse_primer check_file_size max_file_size block_size_bytes
                e Hbytes Hencode Hclean Hsmall) as Hrows.
  pose proof (encoded_segment_map rnd binary_data forward_primer
                reverse_primer check_file_size max_file_size block_size_bytes
                e Hbytes Hencode Hclean Hsmall) as Hmap.
  pose proof (encoded_keys_sorted binary_data block_size_bytes e) as Hsorted.
  destruct (encoded_num_blocks rnd binary_data forward_primer reverse_primer
              check_file_size max_file_size block_size_bytes e Hbytes Hencode)
    as [HS Hblocks].
  assert (num_blocks e = 1) as Hsingle.
  { rewrite Hblocks. fold n.
    destruct (ceil_div_cases n block_size_bytes ltac:(lia))
      as [[_ Hzero]|(q & -> & Hq)]; [lia|]. nia. }
  rewrite Hsingle in Hrows, Hmap, Hsorted.
  set (bits := bytes_to_bits binary_data) in *.
  set (kvs := layout_entry bits block_size_bytes
                <$> file_layout bits block_size_bytes (seq 0 1)) in *.
  assert (length bits = 8 * n) as Hlen by (by apply length_bytes_to_bits).
  (* every row of the file belongs to block 0 *)
  assert (Forall (fun row => col_block_index row = Some 0%Z) (csv_rows e))
    as Hzero.
  { eapply Forall2_Forall_r; [exact Hrows|].
    apply Forall_forall. intros [k j] Hin row (_ & _ & Hidx & _).
    apply layout_key_block in Hin as [Hk _]. cbn [fst] in *.
    apply elem_of_seq in Hk. by replace k with 0 in Hidx by lia. }
  (* the segment map of the reads *)
  assert (foldl (contribute forward_primer reverse_primer) ∅
            (bare_row <$> (col_oligo <$> csv_rows e))
          = list_to_map kvs) as Hbare.
  { rewrite <- Hmap. by apply foldl_contribute_bare_rows. }
  assert (foldl (contribute forward_primer reverse_primer) ∅
            (bare_row <$> fastq_sequences 0 fastq_file)
          = list_to_map kvs) as Hreads.
  { rewrite <- Hbare. apply foldl_contribute_same_elements.
    - intros row. rewrite !list_elem_of_fmap. split.
      + intros (seq & -> & Hin%Hsame). by exists seq.
      + intros (seq & -> & Hin%Hsame). by exists seq.
    - intros row1 row2 key data1 data2 Hin1 Hin2 Hc1 Hc2.
      apply list_elem_of_fmap in Hin1 as (o1 & -> & Ho1).
      apply list_elem_of_fmap in Hin2 as (o2 & -> & Ho2).
      apply list_elem_of_fmap in Ho1 as (r1 & -> & Hr1).
      apply list_elem_of_fmap in Ho2 as (r2 & -> & Hr2).
      rewrite Forall_forall in Hzero.
      assert (forall r d, r ∈ csv_rows e ->
                contribution forward_primer reverse_primer
                  (bare_row (col_oligo r)) = Some (key, d) ->
                exists kj, layout_entry bits block_size_bytes kj = (key, d))
        as Hentry.
      { intros r d Hr Hc.
        pose proof (contribute_bare_row forward_primer reverse_primer r ∅
                      (Hzero r Hr)) as Heq.
        unfold contribute in Heq. rewrite Hc in Heq.
        apply list_elem_of_lookup in Hr as [i Hi].
        destruct (Forall2_lookup_r _ _ _ _ _ Hrows Hi)
          as (kj & _ & Hkj & _).
        rewrite Hkj in Heq. exists kj.
        apply (f_equal (fun m : gmap (Z * Z) (list bool) => m !! key)) in Heq.
        rewrite lookup_insert_eq in Heq.
        destruct (decide ((layout_entry bits block_size_bytes kj).1 = key))
          as [Hk|Hk].
        - destruct (layout_entry bits block_size_bytes kj) as [key' d'].
          cbn [fst] in Hk. subst key'. rewrite lookup_insert_eq in Heq.
          by injection Heq as ->.
        - destruct (layout_entry bits block_size_bytes kj) as [key' d'].
          cbn [fst] in Hk. rewrite lookup_insert_ne, lookup_empty in Heq by done.
          done. }
      destruct (Hentry r1 data1 Hr1 Hc1) as (kj1 & Hkj1).
      destruct (Hentry r2 data2 Hr2 Hc2) as (kj2 & Hkj2).
      injection Hkj1 as Hkey1 <-. injection Hkj2 as Hkey2 <-.
      rewrite <- Hkey2 in Hkey1. apply layout_key_inj in Hkey1.
      by subst kj2. }
  (* the stream *)
  set (p := 12 * ((n + 11) / 12) - n).
  assert (concat kvs.*2 = bytes_to_bits (binary_data ++ replicate p 0%Z))
    as Hstream.
  { unfold kvs. rewrite <- list_fmap_compose.
    change (snd ∘ layout_entry bits block_size_bytes)
      with (layout_payload bits block_size_bytes).
    rewrite concat_layout_payloads. cbn [seq fmap list_fmap concat].
    rewrite app_nil_r, block_bits_chunk. unfold chunk. cbn [Nat.mul].
    rewrite drop_0, take_ge by lia.
    rewrite bytes_to_bits_app, bytes_to_bits_zeros. fold bits.
    unfold padded. f_equal. f_equal. rewrite Hlen.
    pose proof (ceil_div_8_12 (8 * n)) as Hceil.
    replace ((8 * n + 7) / 8) with n in Hceil
      by (replace (8 * n + 7) with (n * 8 + 7) by lia;
          rewrite Nat.div_add_l by done; change (7 / 8) with 0; lia).
    rewrite <- Hceil. unfold p.
    pose proof (Nat.Div0.mul_div_le (n + 11) 12).
    pose proof (Nat.Div0.mod_eq (n + 11) 12).
    pose proof (Nat.mod_upper_bound (n + 11) 12 ltac:(done)). lia. }
  assert (12 * ((n + 11) / 12) >= n) as Hceil.
  { pose proof (Nat.Div0.mod_eq (n + 11) 12).
    pose proof (Nat.mod_upper_bound (n + 11) 12 ltac:(done)). lia. }
  assert (Forall (fun b => (0 <= b < 256)%Z) (binary_data ++ replicate p 0%Z))
    as Hout.
  { apply Forall_app. split; [done|]. apply Forall_replicate. lia. }
  (* the decoder *)
  unfold decode_oligos_from_fastq.
  pose proof (fastq_fold fastq_file forward_primer reverse_primer) as Hfold.
  cbv zeta in Hfold. rewrite Hfold, Hreads. clear Hfold.
  cbv beta iota. cbn [written andb].
  assert ((list_to_map kvs : gmap (Z * Z) (list bool)) <> ∅) as Hnonempty.
  { intros Hempty. rewrite Hempty in Hreads.
    assert (kvs = []) as Hnil.
    { destruct kvs as [|[key data] kvs']; [done|].
      apply (f_equal (fun m : gmap (Z * Z) (list bool) => m !! key)) in Hempty.
      rewrite list_to_map_cons, lookup_insert_eq, lookup_empty in Hempty.
      done. }
    rewrite Hnil in Hstream. cbn in Hstream.
    apply (f_equal length) in Hstream.
    rewrite length_bytes_to_bits, length_app in Hstream by done.
    fold n in Hstream. cbn in Hstream. lia. }
  rewrite bool_decide_eq_false_2 by done. cbn [negb].
  pose proof (reassemble_list_to_map kvs 0 Hsorted) as Hre.
  unfold reassemble in Hre.
  rewrite (bool_decide_eq_false_2 (0 > 0)%Z) in Hre by lia.
  rewrite Hre, Hstream, length_bytes_to_bits by done.
  rewrite (Nat.mul_comm 8), Nat.div_mul by done.
  rewrite (proj2 (Nat.ltb_lt 0 _)) by (rewrite length_app; fold n; lia).
  rewrite take_ge by (rewrite length_bytes_to_bits by done; lia).
  by rewrite to_bytes_bytes_to_bits.
Qed.

Lemma fastq_round_trip_witness :
  match encode_file_to_dna (fun _ => false) [72; 105; 33]%Z
          (Some DEFAULT_FORWARD_PRIMER) (Some DEFAULT_REVERSE_PRIMER)
          false 0 1024 with
  | Ok e =>
      written
        (decode_oligos_from_fastq
           (mjoin ((fun row => [["@"]; col_oligo row ++ ["010"]; ["+"]; ["I"]])
                     <$> csv_rows e))
           DEFAULT_FORWARD_PRIMER DEFAULT_REVERSE_PRIMER true)
      = Some ([72; 105; 33] ++ replicate 9 0)%Z
  | Raise _ => False
  end%char.
Proof.
  destruct (encode_file_to_dna (fun _ => false) [72; 105; 33]%Z
              (Some DEFAULT_FORWARD_PRIMER) (Some DEFAULT_REVERSE_PRIMER)
              false 0 1024) as [e|err] eqn:Hencode.
  - apply (fastq_round_trip (fun _ => false) [72; 105; 33]%Z 1024
             DEFAULT_FORWARD_PRIMER DEFAULT_REVERSE_PRIMER false 0 e).
    + repeat constructor; lia.
    + discriminate.
    + cbn. lia.
    + cbn. lia.
    + split; intros c Hc; injection Hc as <-; reflexivity.
    + exact Hencode.
    + assert (fastq_sequences 0
                (mjoin ((fun row => [["@"]; col_oligo row ++ ["010"]; ["+"];
                                     ["I"]]) <$> csv_rows e))
              = col_oligo <$> csv_rows e)%char as ->; [|done].
      pose proof Hencode as Hrows. vm_compute in Hrows. injection Hrows as <-.
      vm_compute. reflexivity.
  - vm_compute in Hencode. discriminate Hencode.
Defined.

End FastqFacts.

(** ** Primers and the classification of sequences *)

Module ClassifyFacts.
Import PyBits PyBitsFacts Encoder Decoder Spec Terms SymbolFacts LayoutFacts
  RowFacts Interface EncoderFacts DecodingFacts Misreads.

Local Open Scope nat_scope.

(** X12. The primer registry: after [register_primers] the pair registered
    is what [get_primers] and [getPrimerPair] return for that pool and
    block, the answer for every other pool and block is what it was, and a
    pool and block never registered get the default primers; registering
    changes nothing else in the object. *)
Theorem get_primers_register_primers (self : MolFSDev) (pool block : Z)
    (forward_primer reverse_primer : list ascii) :
  let self' := register_primers self pool block forward_primer reverse_primer in
  get_primers self' pool block = (forward_primer, reverse_primer)
  /\ (forall pool' block', (pool', block') <> (pool, block) ->
        get_primers self' pool' block' = get_primers self pool' block')
  /\ (forall pool' block', primer_registry self !! (pool', block') = None ->
        get_primers self pool' block'
        = (DEFAULT_FORWARD_PRIMER, DEFAULT_REVERSE_PRIMER))
  /\ (forall pool' block',
        getPrimerPair self' pool' block' = get_primers self' pool' block')
  /\ (Pool self', Block self', ValidDecode self', dev_block_size_bytes self',
      temp_dir self')
     = (Pool self, Block self, ValidDecode self, dev_block_size_bytes self,
        temp_dir self).
Proof.
  cbv zeta. unfold get_primers, getPrimerPair, register_primers.
  cbn [primer_registry Pool Block ValidDecode dev_block_size_bytes temp_dir].
  split; [by rewrite lookup_insert_eq|]. split.
  - intros pool' block' Hne. by rewrite lookup_insert_ne.
  - split; [by intros pool' block' ->|done].
Qed.

(** What [FilterSequence] and [ClassifyByAddress] take off a sequence is
    what [extract_oligo_parts] takes off, for the primers of the current
    pool and block. *)
Lemma FilterSequence_core (self : MolFSDev) (sequence : list ascii) :
  FilterSequence self sequence
  = core_sequence sequence (get_primers self (Pool self) (Block self)).1
      (get_primers self (Pool self) (Block self)).2.
Proof.
  unfold FilterSequence, core_sequence.
  destruct (get_primers self (Pool self) (Block self))
    as [forward_primer reverse_primer]. cbn [fst snd].
  set (s := if bool_decide (forward_primer <> [])
               && bool_decide (forward_primer `prefix_of` sequence)
            then drop (length forward_primer) sequence else sequence).
  destruct (bool_decide (reverse_primer <> [])) eqn:HR; [|done].
  destruct (bool_decide (reverse_primer `suffix_of` s)); [|done].
  cbn [andb]. unfold drop_end.
  apply bool_decide_eq_true in HR. destruct reverse_primer; done.
Qed.

Lemma ClassifyByAddress_core (self : MolFSDev) (sequence : list ascii) :
  let core := FilterSequence self sequence in
  ClassifyByAddress self sequence
  = if 19 <=? length core then
      match decode_dna_to_bits (take 19 core) with
      | Some address_bits => Ok (int2 address_bits, address_bits, core)
      | None => Raise KeyError
      end
    else Ok ((-1)%Z, [], core).
Proof.
  cbv zeta. unfold ClassifyByAddress, FilterSequence.
  by destruct (get_primers self (Pool self) (Block self))
    as [forward_primer reverse_primer].
Qed.

(** X13. [ClassifyByAddress] and [FilterSequence] on a record of an encoded
    file, for an object whose current pool and block have the primers the
    file was encoded with: [FilterSequence] returns the 147 symbols between
    the primers, and [ClassifyByAddress] returns the address written in the
    Address column, as a number and as bits, with the same 147 symbols; the
    number is the address under which the decoder stores the record. *)
Theorem ClassifyByAddress_encoded (self : MolFSDev) (rnd : nat -> bool)
    (binary_data : list Z) (block_size_bytes : nat)
    (forward_primer reverse_primer : list ascii)
    (check_file_size : bool) (max_file_size : nat) (e : encoded)
    (row : csv_row) :
  Forall (fun b => (0 <= b < 256)%Z) binary_data ->
  (Z.of_nat (block_size_bytes `min` length binary_data) <= 12 * 524287)%Z ->
  clean_primers forward_primer reverse_primer ->
  get_primers self (Pool self) (Block self) = (forward_primer, reverse_primer) ->
  encode_file_to_dna rnd binary_data (Some forward_primer)
    (Some reverse_primer) check_file_size max_file_size block_size_bytes
  = Ok e ->
  row ∈ csv_rows e ->
  exists core block payload,
    col_oligo row = forward_primer ++ core ++ reverse_primer
    /\ length core = 147
    /\ FilterSequence self (col_oligo row) = core
    /\ ClassifyByAddress self (col_oligo row)
       = Ok (int2 (col_address row), col_address row, core)
    /\ contribution forward_primer reverse_primer row
       = Some ((block, int2 (col_address row)), payload).
Proof.
  intros Hbytes Hsmall Hclean Hprimers Hencode Hin.
  destruct (encode_file_to_dna_rows rnd binary_data (Some forward_primer)
              (Some reverse_primer) check_file_size max_file_size
              block_size_bytes e Hencode) as (_ & _ & _ & _ & Hrows).
  cbn [default] in Hrows. unfold id in Hrows.
  pose proof (layout_fits binary_data block_size_bytes (seq 0 (num_blocks e))
                Hbytes Hsmall) as Hfit.
  apply list_elem_of_lookup in Hin as [i Hi].
  destruct (Forall2_lookup_r _ _ _ _ _ Hrows Hi) as ([k j] & Hkj & Hrow).
  rewrite Forall_forall in Hfit.
  specialize (Hfit (k, j) (list_elem_of_lookup_2 _ _ _ Hkj)).
  cbn [fst snd] in *.
  destruct Hrow as (Hk & Ha & Hd & Hc & (p1 & p2 & p3 & Holigo) & _).
  set (A := encode_bits_to_dna rnd p1 (col_address row) []) in *.
  set (D := encode_bits_to_dna rnd p2 (col_data_bits row) []) in *.
  set (C := encode_bits_to_dna rnd p3 (col_crc32 row) []) in *.
  assert (length (col_address row) = 19) as Hlab.
  { rewrite Ha. apply length_format_b; [|lia]. unfold segment_address in *. lia. }
  assert (length A = 19) as HlA by (unfold A; by rewrite length_encode_bits).
  assert (length D = 96) as HlD.
  { unfold D. rewrite length_encode_bits, Hd. apply length_segment_payload. }
  assert (length C = 32) as HlC.
  { unfold C. rewrite length_encode_bits, Hc.
    apply length_calculate_crc32_checksum. }
  destruct (framed_record forward_primer reverse_primer A D C
              (col_address row) (col_data_bits row) (col_crc32 row) row Hclean
              Holigo HlA HlD HlC) as [_ Hcontribution];
    try apply decode_encode_bits.
  rewrite bool_decide_eq_true_2 in Hcontribution by done.
  assert (FilterSequence self (col_oligo row) = A ++ D ++ C) as Hfilter.
  { rewrite FilterSequence_core, Hprimers, Holigo. cbn [fst snd].
    apply core_sequence_framed. }
  exists (A ++ D ++ C), (default 0%Z (col_block_index row)), (col_data_bits row).
  split; [done|]. split; [rewrite !length_app; lia|]. split; [done|].
  split; [|done].
  rewrite ClassifyByAddress_core. cbv zeta. rewrite Hfilter.
  rewrite (proj2 (Nat.leb_le 19 _)) by (rewrite !length_app; lia).
  rewrite take_app_length' by done.
  unfold A. by rewrite decode_encode_bits.
Qed.

Lemma ClassifyByAddress_encoded_witness :
  exists e row core,
    encode_file_to_dna (fun _ => false) (seqZ 1 30) None None false 0 24 = Ok e
    /\ row ∈ csv_rows e
    /\ ClassifyByAddress Samples.fresh_dev (col_oligo row)
       = Ok (int2 (col_address row), col_address row, core).
Proof.
  destruct (encode_file_to_dna (fun _ => false) (seqZ 1 30) None None false 0 24)
    as [e|err] eqn:Hencode; [|vm_compute in Hencode; discriminate Hencode].
  assert (exists row, head (csv_rows e) = Some row) as [row Hhead].
  { pose proof Hencode as Hrows. vm_compute in Hrows. injection Hrows as <-.
    eexists. vm_compute. reflexivity. }
  assert (row ∈ csv_rows e) as Hin by (by apply head_elem_of).
  destruct (ClassifyByAddress_encoded Samples.fresh_dev (fun _ => false)
              (seqZ 1 30) 24 DEFAULT_FORWARD_PRIMER DEFAULT_REVERSE_PRIMER
              false 0 e row)
    as (core & block & payload & _ & _ & _ & Hclassify & _).
  - apply Forall_forall. intros b Hb%elem_of_seqZ. lia.
  - apply Z.leb_le. vm_compute. reflexivity.
  - split; intros c Hc; injection Hc as <-; reflexivity.
  - reflexivity.
  - exact Hencode.
  - exact Hin.
  - exists e, row, core. split; [reflexivity|]. split; [exact Hin|].
    exact Hclassify.
Defined.

(** The loop of [ClassifySequence] stops at the registration of the
    primers that frame the sequence, when the forward primers registered
    are 22 symbols long and differ from one pool and block to another. *)
Lemma classify_registered_framed
    (items : list ((Z * Z) * (list ascii * list ascii)))
    (pool block : Z) (forward_primer reverse_primer core : list ascii) :
  ((pool, block), (forward_primer, reverse_primer)) ∈ items ->
  Forall (fun item => length item.2.1 = 22) items ->
  (forall item, item ∈ items -> item.2.1 = forward_primer ->
     item = ((pool, block), (forward_primer, reverse_primer))) ->
  classify_registered items (forward_primer ++ core ++ reverse_primer)
  = Some (pool, block,
          if decide (reverse_primer = []) then [] else core).
Proof.
  intros Hin Hlen Hdistinct.
  induction items as [|[[pool' block'] [F' R']] items IH];
    [by apply elem_of_nil in Hin|].
  apply Forall_cons in Hlen as [HF' Hlen]. cbn [fst snd] in HF'.
  assert (length forward_primer = 22) as HF.
  { rewrite Forall_forall in Hlen.
    apply elem_of_cons in Hin as [Heq|Hin]; [by injection Heq as _ _ <- _|].
    apply (Hlen _ Hin). }
  cbn [classify_registered].
  destruct (decide (F' `prefix_of` forward_primer ++ core ++ reverse_primer))
    as [Hprefix|Hprefix].
  - rewrite bool_decide_eq_true_2 by done.
    assert (F' = forward_primer) as ->.
    { destruct Hprefix as [k Hk].
      apply (f_equal (take 22)) in Hk.
      by rewrite !take_app_length' in Hk by done. }
    assert (((pool', block'), (forward_primer, R'))
            = ((pool, block), (forward_primer, reverse_primer))) as Heq
      by (apply Hdistinct; [apply list_elem_of_here|done]).
    injection Heq as -> -> ->.
    rewrite drop_app_length.
    rewrite bool_decide_eq_true_2 by (by eexists).
    do 2 f_equal. unfold drop_end.
    destruct (decide (reverse_primer = [])) as [->|HR]; [done|].
    rewrite (proj2 (Nat.eqb_neq _ 0)) by (by destruct reverse_primer).
    rewrite length_app, Nat.add_sub. apply take_app_length.
  - rewrite bool_decide_eq_false_2 by done.
    apply IH; [|done|].
    + apply elem_of_cons in Hin as [Heq|Hin]; [|done].
      injection Heq as -> -> -> ->. exfalso. apply Hprefix. by eexists.
    + intros item Hitem. apply Hdistinct. by apply list_elem_of_further.
Qed.

(** X14. [ClassifySequence] finds the pool and block of a sequence from its
    primers: when the forward primers registered are 22 symbols long and
    no two pool and block pairs share one, a sequence made of a registered
    forward primer, a core and the reverse primer registered with it, which
    is not empty, is classified to that pool and block, with the core as the
    filtered sequence, and the current pool and block of the object are set
    to them. *)
Theorem ClassifySequence_framed (self : MolFSDev)
    (items : list ((Z * Z) * (list ascii * list ascii)))
    (pool block : Z) (forward_primer reverse_primer core : list ascii) :
  ((pool, block), (forward_primer, reverse_primer)) ∈ items ->
  Forall (fun item => length item.2.1 = 22) items ->
  (forall item, item ∈ items -> item.2.1 = forward_primer ->
     item = ((pool, block), (forward_primer, reverse_primer))) ->
  reverse_primer <> [] ->
  let r := ClassifySequence self items
             (forward_primer ++ core ++ reverse_primer) in
  r.2 = (pool, block, core)
  /\ Pool r.1 = pool /\ Block r.1 = block
  /\ primer_registry r.1 = primer_registry self.
Proof.
  intros Hin Hlen Hdistinct HR. cbv zeta. unfold ClassifySequence.
  rewrite (classify_registered_framed items pool block forward_primer
             reverse_primer core Hin Hlen Hdistinct).
  by rewrite decide_False by done.
Qed.

Lemma ClassifySequence_framed_witness :
  (ClassifySequence Samples.fresh_dev
     [((1, 0)%Z, (DEFAULT_REVERSE_PRIMER, DEFAULT_FORWARD_PRIMER));
      ((2, 5)%Z, (DEFAULT_FORWARD_PRIMER, DEFAULT_REVERSE_PRIMER))]
     (DEFAULT_FORWARD_PRIMER ++ ["A"; "C"; "G"; "T"]%char
      ++ DEFAULT_REVERSE_PRIMER)).2
  = (2%Z, 5%Z, ["A"; "C"; "G"; "T"]%char).
Proof.
  apply (ClassifySequence_framed Samples.fresh_dev
           [((1, 0)%Z, (DEFAULT_REVERSE_PRIMER, DEFAULT_FORWARD_PRIMER));
            ((2, 5)%Z, (DEFAULT_FORWARD_PRIMER, DEFAULT_REVERSE_PRIMER))]
           2%Z 5%Z DEFAULT_FORWARD_PRIMER DEFAULT_REVERSE_PRIMER
           ["A"; "C"; "G"; "T"]%char).
  - apply list_elem_of_further, list_elem_of_here.
  - repeat constructor.
  - intros item Hitem Hforward.
    apply elem_of_cons in Hitem as [->|Hitem]; [discriminate Hforward|].
    apply elem_of_cons in Hitem as [->|Hitem]; [reflexivity|].
    by apply elem_of_nil in Hitem.
  - discriminate.
Defined.

(** X15. With an empty reverse primer registered, [ClassifySequence] loses
    the sequence: the forward primer matching, it tests whether what is left
    ends with the empty string, which it does, and cuts it with the slice
    [[:-0]], which is empty.  [FilterSequence], which tests that the primer
    is not empty first, returns the sequence without its forward primer for
    the same pool and block. *)
Theorem ClassifySequence_empty_reverse_primer (self : MolFSDev)
    (items : list ((Z * Z) * (list ascii * list ascii)))
    (pool block : Z) (forward_primer core : list ascii) :
  ((pool, block), (forward_primer, [])) ∈ items ->
  Forall (fun item => length item.2.1 = 22) items ->
  (forall item, item ∈ items -> item.2.1 = forward_primer ->
     item = ((pool, block), (forward_primer, []))) ->
  primer_registry self !! (pool, block) = Some (forward_primer, []) ->
  let r := ClassifySequence self items (forward_primer ++ core) in
  r.2 = (pool, block, [])
  /\ FilterSequence r.1 (forward_primer ++ core) = core.
Proof.
  intros Hin Hlen Hdistinct Hregistered. cbv zeta. unfold ClassifySequence.
  pose proof (classify_registered_framed items pool block forward_primer []
                core Hin Hlen Hdistinct) as Hclassify.
  rewrite app_nil_r in Hclassify. rewrite Hclassify.
  rewrite decide_True by done. split; [done|].
  cbn [fst]. rewrite FilterSequence_core. unfold get_primers.
  cbn [Pool Block primer_registry]. rewrite Hregistered. cbn [fst snd].
  pose proof (core_sequence_framed forward_primer [] core) as Hcore.
  by rewrite app_nil_r in Hcore.
Qed.

Lemma ClassifySequence_empty_reverse_primer_witness :
  let self := register_primers Samples.fresh_dev 3 1 DEFAULT_FORWARD_PRIMER [] in
  (ClassifySequence self [((3, 1)%Z, (DEFAULT_FORWARD_PRIMER, []))]
     (DEFAULT_FORWARD_PRIMER ++ ["A"; "C"; "G"; "T"]%char)).2
  = (3%Z, 1%Z, []).
Proof.
  apply (ClassifySequence_empty_reverse_primer
           (register_primers Samples.fresh_dev 3 1 DEFAULT_FORWARD_PRIMER [])
           [((3, 1)%Z, (DEFAULT_FORWARD_PRIMER, []))] 3%Z 1%Z
           DEFAULT_FORWARD_PRIMER ["A"; "C"; "G"; "T"]%char).
  - apply list_elem_of_here.
  - repeat constructor.
  - intros item Hitem _.
    apply elem_of_cons in Hitem as [->|Hitem]; [reflexivity|].
    by apply elem_of_nil in Hitem.
  - reflexivity.
Defined.

End ClassifyFacts.

(** ** Encoding and decoding through the interface *)

Module FileFacts.
Import PyBits PyBitsFacts Encoder Decoder Spec Samples Terms SymbolFacts
  LayoutFacts BatchFacts RowFacts MapFacts StreamFacts RoundTrip Interface
  InterfaceFacts EncoderFacts DecodingFacts.

Local Open Scope nat_scope.

(** Decoding the rows of an encoded file with the primers it was encoded
    with. *)
Lemma decode_encoded (rnd : nat -> bool) (binary_data : list Z)
    (block_size_bytes : nat) (forward_primer reverse_primer : list ascii)
    (check_file_size : bool) (max_file_size : nat) (e : encoded) :
  Forall (fun b => (0 <= b < 256)%Z) binary_data ->
  binary_data <> [] ->
  (block_size_bytes `mod` 12 = 0 \/ length binary_data <= block_size_bytes) ->
  (Z.of_nat (block_size_bytes `min` length binary_data) <= 12 * 524287)%Z ->
  clean_primers forward_primer reverse_primer ->
  encode_file_to_dna rnd binary_data (Some forward_primer)
    (Some reverse_primer) check_file_size max_file_size block_size_bytes
  = Ok e ->
  let d := decode_oligos_from_csv (csv_rows e) forward_primer reverse_primer
             true in
  written d = Some binary_data /\ result_blocks d <> ∅.
Proof.
  intros Hbytes Hne Hcond Hsmall Hclean Hencode.
  pose proof (encoded_contributions rnd binary_data forward_primer
                reverse_primer check_file_size max_file_size block_size_bytes
                e Hbytes Hencode Hclean Hsmall) as Hrows.
  pose proof (encoded_segment_map rnd binary_data forward_primer
                reverse_primer check_file_size max_file_size block_size_bytes
                e Hbytes Hencode Hclean Hsmall) as Hmap.
  pose proof (encoded_keys_sorted binary_data block_size_bytes e) as Hsorted.
  destruct (encoded_stream rnd binary_data forward_primer reverse_primer
              check_file_size max_file_size block_size_bytes e Hbytes Hencode
              Hsmall Hne Hcond) as [pad Hstream].
  pose proof (encoded_rows_nonempty rnd binary_data forward_primer
                reverse_primer check_file_size max_file_size block_size_bytes
                e Hbytes Hencode Hclean Hsmall Hne) as Hnonempty.
  destruct (written_of_segment_map (csv_rows e) forward_primer reverse_primer
              _ binary_data pad Hbytes Hne Hmap Hsorted Hstream Hnonempty)
    as (Hwritten & _ & Hblocks & _); [|done].
  eapply Forall2_Forall_r; [exact Hrows|].
  apply Forall_forall. by intros kj _ row (_ & _ & _ & Htotal).
Qed.

(** [encode_block] succeeds on a block that is not empty, for primers that
    [encode_file_to_dna] accepts: it writes the rows that
    [encode_file_to_dna] gives for the bytes of the block, taken as a single
    block. *)
Lemma encode_block_rows (rnd : nat -> bool) (self : MolFSDev)
    (in_file : list Z) (block_index : Z) (start_offset block_length : nat) :
  let block_data := take block_length (drop start_offset in_file) in
  let primers := get_primers self (Pool self) block_index in
  (primers.1 = [] \/ length primers.1 = 22) ->
  (primers.2 = [] \/ length primers.2 = 22) ->
  block_length <> 0 ->
  exists e,
    encode_file_to_dna rnd block_data (Some primers.1) (Some primers.2) false
      (100 * 1024) block_length = Ok e
    /\ encode_block rnd self in_file block_index start_offset
         (Some block_length)
       = (Dev (Pool self) block_index (ValidDecode self)
            (dev_block_size_bytes self) (primer_registry self) (temp_dir self),
          (true,
           Some (BlockResult block_index (Pool self) (length block_data)
                   (num_oligos e))),
          Some (csv_rows e)).
Proof.
  intros block_data primers HF HR HS.
  destruct (encode_file_to_dna_layout rnd block_data (Some primers.1)
              (Some primers.2) false (100 * 1024) block_length HF HR
              ltac:(by left) HS) as (e & Hencode & _).
  exists e. split; [done|].
  unfold encode_block. cbn [default Pool Block]. unfold id.
  change (get_primers _ (Pool self) block_index) with primers.
  fold block_data. destruct primers as [F R]. cbn [fst snd] in *.
  by rewrite Hencode.
Qed.

(** [decode] on rows that decode to [byte_data]: the bytes are written to
    the file asked for and the call succeeds. *)
Lemma decode_writes (self : MolFSDev) (in_file : list csv_row) (out_file : Z)
    (byte_data : list Z) :
  let primers := get_primers self (Pool self) (Block self) in
  let d := decode_oligos_from_csv in_file primers.1 primers.2 true in
  written d = Some byte_data ->
  result_blocks d <> ∅ ->
  exists size,
    decode self in_file out_file
    = (Dev (Pool self) (Block self) true size (primer_registry self)
         (<[out_file := byte_data]> (temp_dir self)),
       (true, Some (result_info d))).
Proof.
  intros primers d Hwritten Hblocks. unfold decode.
  change (get_primers self (Pool self) (Block self)) with primers.
  destruct primers as [F R] eqn:Hprimers. cbn [fst snd] in *.
  fold d. rewrite Hwritten, bool_decide_eq_false_2 by done. cbn [negb].
  by eexists.
Qed.

(** X16. The legacy method [encode] stores the first block of the file
    only: for a file that is not empty, [encode] reports success and one
    block, and [decode] on what it wrote, by the same object, succeeds and
    writes the first [block_size_bytes] bytes of the file; what comes after
    them in the file is dropped without a word. *)
Theorem encode_keeps_first_block_only (rnd : nat -> bool) (self : MolFSDev)
    (in_file : list Z) (out_file : Z) :
  Forall (fun b => (0 <= b < 256)%Z) in_file ->
  in_file <> [] ->
  (0 < dev_block_size_bytes self <= 12 * 524287)%Z ->
  good_primers (get_primers self (Pool self) 0) ->
  let block_size_bytes := Z.to_nat (dev_block_size_bytes self) in
  exists self' rows,
    encode rnd self in_file = (self', (true, 1%Z), Some rows)
    /\ Pool self' = Pool self /\ Block self' = 0%Z
    /\ (decode self' rows out_file).2.1 = true
    /\ temp_dir (decode self' rows out_file).1 !! out_file
       = Some (take block_size_bytes in_file).
Proof.
  intros Hbytes Hne Hsize (HF & HR & Hclean) block_size_bytes.
  destruct (encode_block_rows rnd self in_file 0 0 block_size_bytes HF HR
              ltac:(unfold block_size_bytes; lia)) as (e & Hencode & Hblock).
  rewrite drop_0 in Hencode, Hblock.
  set (primers := get_primers self (Pool self) 0) in *.
  set (self' := Dev (Pool self) 0 (ValidDecode self) (dev_block_size_bytes self)
                  (primer_registry self) (temp_dir self)) in *.
  exists self', (csv_rows e). split.
  - unfold encode.
    change (encode_block rnd self in_file 0 0 None)
      with (encode_block rnd self in_file 0 0 (Some block_size_bytes)).
    by rewrite Hblock.
  - split; [done|]. split; [done|].
    assert (Forall (fun b => (0 <= b < 256)%Z) (take block_size_bytes in_file))
      as Hblock_bytes by (by apply Forall_take).
    assert (take block_size_bytes in_file <> []) as Hblock_ne.
    { destruct in_file as [|b rest]; [done|].
      destruct block_size_bytes eqn:Hbs; [unfold block_size_bytes in Hbs; lia|].
      done. }
    destruct (decode_encoded rnd (take block_size_bytes in_file)
                block_size_bytes primers.1 primers.2 false (100 * 1024) e
                Hblock_bytes Hblock_ne) as [Hwritten Hblocks].
    + right. rewrite length_take. lia.
    + rewrite length_take. unfold block_size_bytes. lia.
    + done.
    + done.
    + destruct (decode_writes self' (csv_rows e) out_file
                  (take block_size_bytes in_file) Hwritten Hblocks)
        as [size ->].
      cbn [fst snd temp_dir]. split; [done|]. apply lookup_insert_eq.
Qed.

Lemma encode_keeps_first_block_only_witness :
  exists self' rows,
    encode (fun _ => false) (set_block_size Samples.fresh_dev 2) [7; 8; 9]%Z
    = (self', (true, 1%Z), Some rows)
    /\ temp_dir (decode self' rows 0).1 !! 0%Z = Some [7; 8]%Z.
Proof.
  destruct (encode_keeps_first_block_only (fun _ => false)
              (set_block_size Samples.fresh_dev 2) [7; 8; 9]%Z 0)
    as (self' & rows & Hencode & _ & _ & _ & Hdecoded).
  - repeat constructor; lia.
  - discriminate.
  - cbn. lia.
  - split; [by right|]. split; [by right|].
    split; intros c Hc; injection Hc as <-; reflexivity.
  - exists self', rows. split; [exact Hencode|exact Hdecoded].
Defined.

Lemma get_primers_registry (self dev : MolFSDev) (pool block : Z) :
  primer_registry self = primer_registry dev ->
  get_primers self pool block = get_primers dev pool block.
Proof. unfold get_primers. by intros ->. Qed.

Section Reconstruct.
Variables (dev : MolFSDev) (in_file : list Z) (block_size_bytes total : nat).

(** The loop of [reconstruct_file] over block files that all decode to the
    block of their index: every index met is collected, and the temporary
    file of an index holds the bytes of the block, whichever copy was
    decoded last. *)
Lemma collect_blocks (block_files : list block_file) (self : MolFSDev)
    (blocks_by_index : gmap Z block_entry) (pools : gset Z) :
  primer_registry self = primer_registry dev ->
  Forall (decodes_to_block dev in_file block_size_bytes total) block_files ->
  stored in_file block_size_bytes total self blocks_by_index ->
  let r := collect self blocks_by_index pools block_files in
  stored in_file block_size_bytes total r.1.1 r.1.2
  /\ forall i, is_Some (r.1.2 !! i)
       <-> is_Some (blocks_by_index !! i)
           \/ exists f, f ∈ block_files /\ file_block f = i.
Proof.
  revert self blocks_by_index pools.
  induction block_files as [|f fs IH]; intros self blocks pools Hreg Hall Hst.
  - cbn. split; [done|]. intros i. split; [by left|].
    by intros [?|(f & Hin%elem_of_nil & _)].
  - apply Forall_cons in Hall as [(k & Hk & Hlt & Hwritten & Hne) Hall].
    cbn [collect].
    set (self1 := Dev (file_pool f) (file_block f) (ValidDecode self)
                    (dev_block_size_bytes self) (primer_registry self)
                    (temp_dir self)).
    destruct (decode_writes self1 (file_rows f) (file_block f)
                (file_block_data in_file block_size_bytes k)) as [size Hdec].
    { cbn [Pool Block self1].
      by rewrite (get_primers_registry _ dev). }
    { cbn [Pool Block self1].
      by rewrite (get_primers_registry _ dev). }
    rewrite Hdec. cbn [Pool Block primer_registry temp_dir self1].
    set (self2 := Dev (file_pool f) (file_block f) true size
                    (primer_registry self)
                    (<[file_block f :=
                         file_block_data in_file block_size_bytes k]>
                       (temp_dir self))).
    assert (stored in_file block_size_bytes total self2 blocks) as Hst2.
    { intros i entry Hentry. destruct (Hst i entry Hentry)
        as (Hfile & k' & Hi & Hlt' & Htemp).
      split; [done|]. exists k'. split; [done|]. split; [done|].
      cbn [temp_dir self2].
      destruct (decide (file_block f = i)) as [Heq|Hneq].
      - rewrite Heq, lookup_insert_eq. do 2 f_equal. lia.
      - by rewrite lookup_insert_ne. }
    assert (forall info,
              stored in_file block_size_bytes total self2
                (<[file_block f := BlockEntry (file_block f) info]> blocks))
      as Hinsert.
    { intros info i entry Hentry.
      destruct (decide (file_block f = i)) as [Heq|Hneq].
      - rewrite Heq, lookup_insert_eq in Hentry. injection Hentry as <-.
        split; [done|]. exists k. split; [lia|]. split; [done|].
        cbn [temp_dir self2]. by rewrite <- Heq, lookup_insert_eq.
      - rewrite lookup_insert_ne in Hentry by done. by apply Hst2. }
    assert (forall (blocks' : gmap Z block_entry),
              (forall i, is_Some (blocks' !! i)
                 <-> is_Some (blocks !! i) \/ file_block f = i) ->
              stored in_file block_size_bytes total self2 blocks' ->
              let r := collect self2 blocks' ({[file_pool f]} ∪ pools) fs in
              stored in_file block_size_bytes total r.1.1 r.1.2
              /\ forall i, is_Some (r.1.2 !! i)
                   <-> is_Some (blocks !! i)
                       \/ exists f', f' ∈ f :: fs /\ file_block f' = i)
      as Hstep.
    { intros blocks' Hdom Hst'.
      destruct (IH self2 blocks' ({[file_pool f]} ∪ pools) Hreg Hall Hst')
        as [Hstored Hkeys].
      split; [done|]. intros i. rewrite Hkeys, Hdom. split.
      - intros [[Hold|Hnew]|(f' & Hin & Hf')].
        + by left.
        + right. exists f. split; [apply list_elem_of_here|done].
        + right. exists f'. split; [by apply list_elem_of_further|done].
      - intros [Hold|(f' & Hin & Hf')]; [by left; left|].
        apply elem_of_cons in Hin as [->|Hin]; [by left; right|].
        right. by exists f'. }
    destruct (blocks !! file_block f) as [existing_block|] eqn:Hexisting.
    + destruct (_ <? _).
      * apply Hstep; [|by apply Hinsert].
        intros i. destruct (decide (file_block f = i)) as [<-|Hneq].
        -- rewrite lookup_insert_eq, Hexisting. split; eauto.
        -- rewrite lookup_insert_ne by done. split; [by left|].
           by intros [?|?].
      * apply Hstep; [|done]. intros i. split; [by left|].
        intros [?|<-]; [done|]. by rewrite Hexisting.
    + apply Hstep; [|by apply Hinsert].
      intros i. destruct (decide (file_block f = i)) as [<-|Hneq].
      * rewrite lookup_insert_eq. split; eauto.
      * rewrite lookup_insert_ne by done. split; [by left|].
        by intros [?|?].
Qed.

(** [reconstruct_file] over block files that decode to the blocks of their
    index and leave out none of the [total] blocks: the blocks, in the order
    of their index. *)
Lemma reconstruct_blocks (block_files : list block_file) (self : MolFSDev) :
  0 < total ->
  primer_registry self = primer_registry dev ->
  Forall (decodes_to_block dev in_file block_size_bytes total) block_files ->
  (forall k, k < total ->
     exists f, f ∈ block_files /\ file_block f = Z.of_nat k) ->
  exists pools,
    (reconstruct_file self block_files).2
    = Reconstructed
        (FileInfo total
           (length
              (concat
                 (file_block_data in_file block_size_bytes <$> seq 0 total)))
           pools)
        (concat (file_block_data in_file block_size_bytes <$> seq 0 total)).
Proof.
  intros Htotal Hreg Hall Hcover. unfold reconstruct_file.
  destruct (collect_blocks block_files self ∅ ∅ Hreg Hall)
    as [Hstored Hkeys]; [intros i entry; by rewrite lookup_empty|].
  destruct (collect self ∅ ∅ block_files) as [[self' blocks] pools].
  cbn [fst snd] in *.
  assert (forall i, is_Some (blocks !! i)
            <-> exists k, i = Z.of_nat k /\ k < total) as Hdom.
  { intros i. rewrite Hkeys. split.
    - intros [Hempty|(f & Hin & <-)].
      + rewrite lookup_empty in Hempty. by destruct Hempty.
      + rewrite Forall_forall in Hall.
        destruct (Hall f Hin) as (k & Hk & Hlt & _). by exists k.
    - intros (k & -> & Hlt). right. destruct (Hcover k Hlt) as (f & Hin & Hf).
      by exists f. }
  assert (max_block_idx blocks = Z.of_nat total - 1)%Z as Htop.
  { destruct (max_block_idx_spec blocks) as [[Hempty _]|[Hsome Hmax]].
    - assert (is_Some (blocks !! 0%Z)) as Hzero
        by (apply Hdom; exists 0; split; [done|lia]).
      rewrite Hempty, lookup_empty in Hzero. by destruct Hzero.
    - cbv zeta in Hsome, Hmax.
      apply Hdom in Hsome as (k & Hk & Hlt).
      assert (Z.of_nat (total - 1) <= max_block_idx blocks)%Z
        by (apply Hmax, Hdom; exists (total - 1); split; [done|lia]).
      lia. }
  rewrite Htop. replace (Z.of_nat total - 1 + 1)%Z with (Z.of_nat total) by lia.
  rewrite bool_decide_eq_true_2 by lia.
  assert (Forall (fun i => is_Some (blocks !! i)) (seqZ 0 (Z.of_nat total)))
    as Hpresent.
  { apply Forall_forall. intros i Hi%elem_of_seqZ. apply Hdom.
    exists (Z.to_nat i). lia. }
  assert (forallb (fun i => bool_decide (is_Some (blocks !! i)))
            (seqZ 0 (Z.of_nat total)) = true) as ->.
  { apply forallb_forall. intros i Hi%list_elem_of_In.
    rewrite Forall_forall in Hpresent. by apply bool_decide_eq_true_2, Hpresent. }
  cbn [andb].
  assert (files_present self' blocks) as Hfiles.
  { intros i entry Hentry.
    destruct (Hstored i entry Hentry) as (Hfile & k & _ & _ & Htemp).
    split; [done|]. by rewrite Htemp. }
  rewrite (combine_present self' blocks _ [] Hfiles Hpresent).
  cbn [app].
  assert (concat ((fun i => temp_dir self' !!! i) <$> seqZ 0 (Z.of_nat total))
          = concat (file_block_data in_file block_size_bytes <$> seq 0 total))
    as ->.
  { f_equal. unfold seqZ. rewrite Nat2Z.id, <- list_fmap_compose.
    apply list_fmap_ext. intros j k Hk%lookup_seq. cbn.
    assert (is_Some (blocks !! Z.of_nat k)) as [entry Hentry]
      by (apply Hdom; exists k; split; [done|lia]).
    destruct (Hstored _ entry Hentry) as (_ & k' & Hk' & _ & Htemp).
    replace (Z.of_nat k + 0)%Z with (Z.of_nat k) by lia.
    rewrite (lookup_total_correct _ _ _ Htemp). f_equal. lia. }
  assert (size blocks = total) as ->; [|by eexists].
  rewrite <- size_dom.
  assert (dom blocks = list_to_set (Z.of_nat <$> seq 0 total)) as ->.
  { apply set_eq. intros i.
    rewrite elem_of_dom, Hdom, elem_of_list_to_set, list_elem_of_fmap.
    split.
    - intros (k & -> & Hlt). exists k. split; [done|].
      apply elem_of_seq. lia.
    - intros (k & -> & Hk%elem_of_seq). exists k. split; [done|lia]. }
  rewrite size_list_to_set, length_fmap, length_seq; [done|].
  apply NoDup_fmap; [apply Nat2Z.inj'|apply NoDup_seq].
Qed.

End Reconstruct.

Lemma take_min_drop {A} (n o : nat) (l : list A) :
  take (n `min` (length l - o)) (drop o l) = take n (drop o l).
Proof.
  destruct (decide (n <= length l - o)) as [Hle|Hgt].
  - by rewrite Nat.min_l.
  - rewrite Nat.min_r by lia. by rewrite !take_ge by (rewrite length_drop; lia).
Qed.

Section EncodeFile.
Variables (rnds : nat -> nat -> bool) (dev : MolFSDev) (in_file : list Z).
Variables (block_size_bytes total : nat).
Hypothesis Hbytes : Forall (fun b => (0 <= b < 256)%Z) in_file.
Hypothesis Hsize : 0 < block_size_bytes /\ (Z.of_nat block_size_bytes <= 12 * 524287)%Z.

(** The loop over the pools of a block that is not empty: every pool gets a
    file, which decodes to the block. *)
Lemma encode_pools_decodes (k : nat) (pools : list Z) (self : MolFSDev)
    (call : nat)
    (block_distribution : gmap (Z * Z) (list csv_row * block_result)) :
  primer_registry self = primer_registry dev ->
  k < total ->
  k * block_size_bytes < length in_file ->
  (forall p, p ∈ pools -> good_primers (get_primers dev p (Z.of_nat k))) ->
  distribution_decodes dev in_file block_size_bytes total block_distribution ->
  let r :=
    encode_pools rnds in_file self call k (k * block_size_bytes)
      (block_size_bytes `min` (length in_file - k * block_size_bytes)) pools
      block_distribution in
  primer_registry r.1.1 = primer_registry dev
  /\ distribution_decodes dev in_file block_size_bytes total r.2
  /\ forall key, is_Some (r.2 !! key)
       <-> is_Some (block_distribution !! key)
           \/ exists p, p ∈ pools /\ key = (p, Z.of_nat k).
Proof.
  intros Hreg Hk Hstart. revert self call block_distribution Hreg.
  induction pools as [|p pools IH];
    intros self call block_distribution Hreg Hgood Hdist.
  - cbn. split; [done|]. split; [done|]. intros key. split; [by left|].
    by intros [?|(p & Hin%elem_of_nil & _)].
  - cbn [encode_pools].
    set (self1 := Dev p (Block self) (ValidDecode self)
                    (dev_block_size_bytes self) (primer_registry self)
                    (temp_dir self)).
    set (block_length :=
           block_size_bytes `min` (length in_file - k * block_size_bytes)).
    assert (get_primers self1 (Pool self1) (Z.of_nat k)
            = get_primers dev p (Z.of_nat k)) as Hprimers
      by (by apply get_primers_registry).
    destruct (Hgood p ltac:(apply list_elem_of_here)) as (HF & HR & Hclean).
    destruct (encode_block_rows (rnds call) self1 in_file (Z.of_nat k)
                (k * block_size_bytes) block_length) as (e & Hencode & Hblock).
    { by rewrite Hprimers. }
    { by rewrite Hprimers. }
    { unfold block_length. lia. }
    rewrite Hblock. rewrite Hprimers in Hencode.
    cbn [Pool Block ValidDecode dev_block_size_bytes primer_registry temp_dir
           self1] in *.
    assert (take block_length (drop (k * block_size_bytes) in_file)
            = file_block_data in_file block_size_bytes k) as Hdata
      by apply take_min_drop.
    rewrite Hdata in Hencode.
    assert (length (file_block_data in_file block_size_bytes k) = block_length)
      as Hlength.
    { unfold file_block_data, block_length.
      rewrite length_take, length_drop. lia. }
    destruct (decode_encoded (rnds call)
                (file_block_data in_file block_size_bytes k) block_length
                (get_primers dev p (Z.of_nat k)).1
                (get_primers dev p (Z.of_nat k)).2 false (100 * 1024) e)
      as [Hwritten Hblocks]; try done.
    { by apply Forall_take, Forall_drop. }
    { intros Hnil. rewrite Hnil in Hlength. cbn in Hlength.
      unfold block_length in Hlength. lia. }
    { right. lia. }
    { unfold block_length. lia. }
    destruct (IH (Dev p (Z.of_nat k) (ValidDecode self)
                    (dev_block_size_bytes self) (primer_registry self)
                    (temp_dir self)) (S call)
                (<[(p, Z.of_nat k) :=
                     (csv_rows e,
                      BlockResult (Z.of_nat k) p
                        (length
                           (take block_length
                              (drop (k * block_size_bytes) in_file)))
                        (num_oligos e))]> block_distribution))
      as (Hreg' & Hdist' & Hkeys'); [done| |  |].
    { intros q Hq. by apply Hgood, list_elem_of_further. }
    { intros pool block rows info Hlookup.
      destruct (decide ((p, Z.of_nat k) = (pool, block))) as [Heq|Hneq].
      - rewrite Heq, lookup_insert_eq in Hlookup. injection Heq as <- <-.
        injection Hlookup as <- _. exists k. by cbn.
      - rewrite lookup_insert_ne in Hlookup by done. by eapply Hdist. }
    subst block_length. cbv zeta.
    split; [done|]. split; [done|]. intros key. rewrite Hkeys'.
    destruct (decide ((p, Z.of_nat k) = key)) as [<-|Hneq].
    + rewrite lookup_insert_eq. split.
      * intros _. right. exists p. split; [apply list_elem_of_here|done].
      * intros _. left. eauto.
    + rewrite lookup_insert_ne by done. split.
      * intros [Hold|(q & Hq & Hkey)]; [by left|].
        right. exists q. split; [by apply list_elem_of_further|done].
      * intros [Hold|(q & Hq & Hkey)]; [by left|].
        apply elem_of_cons in Hq as [->|Hq]; [done|].
        right. by exists q.
Qed.

(** The loop over the blocks. *)
Lemma encode_blocks_decodes (distribution_strategy : Z -> Z -> list Z)
    (block_idxs : list nat) (self : MolFSDev) (call : nat)
    (block_distribution : gmap (Z * Z) (list csv_row * block_result)) :
  primer_registry self = primer_registry dev ->
  Forall (fun k => k < total /\ k * block_size_bytes < length in_file)
    block_idxs ->
  (forall k p, k ∈ block_idxs ->
     p ∈ distribution_strategy (Z.of_nat k) (Z.of_nat total) ->
     good_primers (get_primers dev p (Z.of_nat k))) ->
  distribution_decodes dev in_file block_size_bytes total block_distribution ->
  let r :=
    encode_blocks rnds in_file self call block_size_bytes total
      distribution_strategy block_idxs block_distribution in
  primer_registry r.1 = primer_registry dev
  /\ distribution_decodes dev in_file block_size_bytes total r.2
  /\ forall key, is_Some (r.2 !! key)
       <-> is_Some (block_distribution !! key)
           \/ exists k p,
                k ∈ block_idxs
                /\ p ∈ distribution_strategy (Z.of_nat k) (Z.of_nat total)
                /\ key = (p, Z.of_nat k).
Proof.
  revert self call block_distribution.
  induction block_idxs as [|k ks IH];
    intros self call block_distribution Hreg Hall Hgood Hdist.
  - cbn. split; [done|]. split; [done|]. intros key. split; [by left|].
    by intros [?|(k & p & Hin%elem_of_nil & _)].
  - apply Forall_cons in Hall as [[Hk Hstart] Hall]. cbn [encode_blocks].
    destruct (encode_pools_decodes k
                (distribution_strategy (Z.of_nat k) (Z.of_nat total)) self
                call block_distribution Hreg Hk Hstart)
      as (Hreg1 & Hdist1 & Hkeys1); [|done|].
    { intros p Hp. apply Hgood; [apply list_elem_of_here|done]. }
    destruct (encode_pools _ _ _ _ _ _ _ _ _) as [[self1 call1] dist1].
    cbn [fst snd] in *.
    destruct (IH self1 call1 dist1 Hreg1 Hall) as (Hreg2 & Hdist2 & Hkeys2);
      [|done|].
    { intros k' p Hk' Hp. apply Hgood; [by apply list_elem_of_further|done]. }
    split; [done|]. split; [done|]. intros key. rewrite Hkeys2, Hkeys1. split.
    + intros [[Hold|(p & Hp & Hkey)]|(k' & p & Hk' & Hp & Hkey)].
      * by left.
      * right. exists k, p. split; [apply list_elem_of_here|done].
      * right. exists k', p. split; [by apply list_elem_of_further|done].
    + intros [Hold|(k' & p & Hk' & Hp & Hkey)]; [by left; left|].
      apply elem_of_cons in Hk' as [->|Hk'].
      * left. right. by exists p.
      * right. by exists k', p.
Qed.

End EncodeFile.

Lemma blocks_cover (file_size block_size_bytes : nat) :
  0 < block_size_bytes ->
  let total := (file_size + block_size_bytes - 1) / block_size_bytes in
  file_size <= total * block_size_bytes
  /\ forall k, k < total -> k * block_size_bytes < file_size.
Proof.
  intros Hsize total.
  pose proof (Nat.Div0.mul_div_le (file_size + block_size_bytes - 1)
                block_size_bytes) as Hle.
  pose proof (Nat.mul_succ_div_gt (file_size + block_size_bytes - 1)
                block_size_bytes ltac:(lia)) as Hgt.
  fold total in Hle, Hgt. split; [lia|]. intros k Hk. nia.
Qed.

(** X17. A file stored with [encode_file] comes back from
    [reconstruct_file]: for a file that is not empty, a block size between
    1 and 12 * 524287 bytes and primers that are registered well-formed,
    [encode_file] writes a file for every block and every pool that the
    strategy names for it, and nothing else; and [reconstruct_file], by any
    object with the same primers, on any choice of these files that leaves
    out no block (copies from several pools and any order allowed), succeeds
    and writes exactly the bytes of the file. *)
Theorem encode_file_reconstruct_file (rnds : nat -> nat -> bool)
    (self : MolFSDev) (in_file : list Z)
    (distribution_strategy : option (Z -> Z -> list Z)) :
  Forall (fun b => (0 <= b < 256)%Z) in_file ->
  in_file <> [] ->
  (0 < dev_block_size_bytes self <= 12 * 524287)%Z ->
  let block_size_bytes := Z.to_nat (dev_block_size_bytes self) in
  let total_blocks :=
    (length in_file + block_size_bytes - 1) / block_size_bytes in
  (forall k p, k < total_blocks ->
     p ∈ target_pools distribution_strategy (Z.of_nat k)
           (Z.of_nat total_blocks) ->
     good_primers (get_primers self p (Z.of_nat k))) ->
  exists self' block_distribution,
    encode_file rnds in_file self distribution_strategy
    = Ok (self', block_distribution)
    /\ primer_registry self' = primer_registry self
    /\ (forall p b,
          is_Some (block_distribution !! (p, b))
          <-> exists k,
                b = Z.of_nat k /\ k < total_blocks
                /\ p ∈ target_pools distribution_strategy b
                         (Z.of_nat total_blocks))
    /\ forall dev block_files,
         primer_registry dev = primer_registry self ->
         (forall f, f ∈ block_files ->
            exists info,
              block_distribution !! (file_pool f, file_block f)
              = Some (file_rows f, info)) ->
         (forall k, k < total_blocks ->
            exists f, f ∈ block_files /\ file_block f = Z.of_nat k) ->
         exists pools,
           (reconstruct_file dev block_files).2
           = Reconstructed (FileInfo total_blocks (length in_file) pools)
               in_file.
Proof.
  intros Hbytes Hne Hsize block_size_bytes total_blocks Hgood.
  assert (0 < block_size_bytes) as Hpos by (unfold block_size_bytes; lia).
  destruct (blocks_cover (length in_file) block_size_bytes Hpos)
    as [Hcover Hstart].
  fold total_blocks in Hcover, Hstart.
  assert (0 < total_blocks) as Htotal.
  { destruct in_file; [done|]. cbn [length] in Hcover. lia. }
  unfold encode_file. fold block_size_bytes.
  rewrite (proj2 (Nat.eqb_neq block_size_bytes 0)) by lia.
  fold total_blocks.
  destruct (encode_blocks_decodes rnds self in_file block_size_bytes
              total_blocks Hbytes
              ltac:(split; [done|unfold block_size_bytes; lia])
              (target_pools distribution_strategy) (seq 0 total_blocks) self 0
              ∅ eq_refl) as (Hreg & Hdist & Hkeys).
  { apply Forall_forall. intros k Hk%elem_of_seq.
    split; [lia|apply Hstart; lia]. }
  { intros k p Hk%elem_of_seq Hp. apply Hgood; [lia|done]. }
  { intros pool block rows info Hlookup. by rewrite lookup_empty in Hlookup. }
  change (default _ distribution_strategy)
    with (target_pools distribution_strategy).
  destruct (encode_blocks _ _ _ _ _ _ _ _ _) as [self' block_distribution].
  cbn [fst snd] in *.
  exists self', block_distribution. split; [done|]. split; [done|]. split.
  - intros p b. rewrite Hkeys, lookup_empty. split.
    + intros [Hempty|(k & q & Hk%elem_of_seq & Hq & Hkey)];
        [by destruct Hempty|].
      injection Hkey as -> ->. exists k. split; [done|]. split; [lia|done].
    + intros (k & -> & Hk & Hp). right. exists k, p.
      split; [apply elem_of_seq; lia|done].
  - intros dev block_files Hdev Hfiles Hall.
    destruct (reconstruct_blocks self in_file block_size_bytes total_blocks
                block_files dev Htotal Hdev) as [pools Hresult]; [|done|].
    { apply Forall_forall. intros f Hf.
      destruct (Hfiles f Hf) as [info Hinfo].
      apply Hdist in Hinfo. by destruct f. }
    exists pools. rewrite Hresult.
    change (file_block_data in_file block_size_bytes)
      with (chunk block_size_bytes in_file).
    by rewrite concat_chunks, take_ge by lia.
Qed.

Lemma encode_file_reconstruct_file_witness :
  exists self' block_distribution rows0 info0 rows1 info1 pools,
    encode_file (fun _ _ => false) [7; 8; 9]%Z
      (set_block_size Samples.fresh_dev 2) None
    = Ok (self', block_distribution)
    /\ block_distribution !! (1, 0)%Z = Some (rows0, info0)
    /\ block_distribution !! (2, 1)%Z = Some (rows1, info1)
    /\ (reconstruct_file self' [BlockFile 2 1 rows1; BlockFile 1 0 rows0]).2
       = Reconstructed (FileInfo 2 3 pools) [7; 8; 9]%Z.
Proof.
  destruct (encode_file_reconstruct_file (fun _ _ => false)
              (set_block_size Samples.fresh_dev 2) [7; 8; 9]%Z None)
    as (self' & block_distribution & Hencode & Hreg & Hkeys & Hback).
  - repeat constructor; lia.
  - discriminate.
  - cbn. lia.
  - intros k p Hk Hp. split; [by right|]. split; [by right|].
    split; intros c Hc; injection Hc as <-; reflexivity.
  - destruct (proj2 (Hkeys 1 0)%Z) as [[rows0 info0] Hzero].
    { exists 0. split; [done|]. split; [vm_compute; lia|]. apply list_elem_of_here. }
    destruct (proj2 (Hkeys 2 1)%Z) as [[rows1 info1] Hone].
    { exists 1. split; [done|]. split; [vm_compute; lia|]. apply list_elem_of_here. }
    destruct (Hback self' [BlockFile 2 1 rows1; BlockFile 1 0 rows0] Hreg)
      as [pools Hresult].
    + intros f [->|[->|Hf%elem_of_nil]%elem_of_cons]%elem_of_cons;
        [by exists info1|by exists info0|done].
    + intros k Hk. vm_compute in Hk.
      destruct k as [|[|k]]; [| |lia].
      * eexists. split; [apply list_elem_of_further, list_elem_of_here|done].
      * eexists. split; [apply list_elem_of_here|done].
    + by exists self', block_distribution, rows0, info0, rows1, info1, pools.
Defined.

(** [encode_block] changes the block number of the object and nothing
    else. *)
Lemma encode_block_object (rnd : nat -> bool) (self : MolFSDev)
    (in_file : list Z) (block_index : Z) (start_offset : nat)
    (block_length : option nat) :
  (encode_block rnd self in_file block_index start_offset block_length).1.1
  = Dev (Pool self) block_index (ValidDecode self) (dev_block_size_bytes self)
      (primer_registry self) (temp_dir self).
Proof.
  unfold encode_block. cbv zeta. destruct (get_primers _ _ _) as [F R].
  by destruct (encode_file_to_dna _ _ _ _ _ _ _).
Qed.

(** [encode_file_to_dna] raises on a primer that is neither empty nor 22
    symbols long. *)
Lemma encode_file_to_dna_bad_primers (rnd : nat -> bool)
    (binary_data : list Z) (forward_primer reverse_primer : list ascii)
    (check_file_size : bool) (max_file_size block_size_bytes : nat) :
  bad_primers (forward_primer, reverse_primer) ->
  encode_file_to_dna rnd binary_data (Some forward_primer)
    (Some reverse_primer) check_file_size max_file_size block_size_bytes
  = Raise ValueError.
Proof.
  intros Hbad. unfold encode_file_to_dna. cbn [default]. unfold id.
  destruct (bool_decide (forward_primer <> [])
            && negb (length forward_primer =? 22)) eqn:HF; [done|].
  destruct (bool_decide (reverse_primer <> [])
            && negb (length reverse_primer =? 22)) eqn:HR; [done|].
  exfalso. destruct Hbad as [[Hne Hlen]|[Hne Hlen]]; cbn [fst snd] in *.
  - apply andb_false_iff in HF as [HF|HF].
    + by apply bool_decide_eq_false in HF.
    + by apply negb_false_iff, Nat.eqb_eq in HF.
  - apply andb_false_iff in HR as [HR|HR].
    + by apply bool_decide_eq_false in HR.
    + by apply negb_false_iff, Nat.eqb_eq in HR.
Qed.

(** [encode_block] with such a primer: the exception is caught and nothing
    is written. *)
Lemma encode_block_bad_primers (rnd : nat -> bool) (self : MolFSDev)
    (in_file : list Z) (block_index : Z) (start_offset : nat)
    (block_length : option nat) :
  bad_primers (get_primers self (Pool self) block_index) ->
  (encode_block rnd self in_file block_index start_offset block_length).1.2
  = (false, None)
  /\ (encode_block rnd self in_file block_index start_offset block_length).2
     = None.
Proof.
  intros Hbad. unfold encode_block. cbv zeta. cbn [Pool Block].
  change (get_primers _ (Pool self) block_index)
    with (get_primers self (Pool self) block_index).
  destruct (get_primers self (Pool self) block_index) as [F R].
  by rewrite encode_file_to_dna_bad_primers.
Qed.

Section Skipped.
Variables (rnds : nat -> nat -> bool) (dev : MolFSDev) (in_file : list Z).
Variables (p b : Z).
Hypothesis Hbad : bad_primers (get_primers dev p b).

Lemma encode_pools_skips (k start_offset block_length : nat) (pools : list Z)
    (self : MolFSDev) (call : nat)
    (block_distribution : gmap (Z * Z) (list csv_row * block_result)) :
  primer_registry self = primer_registry dev ->
  block_distribution !! (p, b) = None ->
  let r :=
    encode_pools rnds in_file self call k start_offset block_length pools
      block_distribution in
  primer_registry r.1.1 = primer_registry dev /\ r.2 !! (p, b) = None.
Proof.
  revert self call block_distribution.
  induction pools as [|q pools IH]; intros self call dist Hreg Hnone; [done|].
  cbn [encode_pools].
  set (self1 := Dev q (Block self) (ValidDecode self)
                  (dev_block_size_bytes self) (primer_registry self)
                  (temp_dir self)).
  pose proof (encode_block_object (rnds call) self1 in_file (Z.of_nat k)
                start_offset (Some block_length)) as Hobject.
  pose proof (encode_block_bad_primers (rnds call) self1 in_file (Z.of_nat k)
                start_offset (Some block_length)) as Hfails.
  destruct (encode_block _ _ _ _ _ _) as [[self2 [success info]] out_file].
  cbn [fst snd] in Hobject, Hfails. subst self2.
  assert (match success, info, out_file with
          | true, Some block_info, Some rows =>
              <[(q, Z.of_nat k) := (rows, block_info)]> dist
          | _, _, _ => dist
          end !! (p, b) = None) as Hnone'.
  { destruct (decide ((q, Z.of_nat k) = (p, b))) as [Heq|Hneq].
    - injection Heq as -> <-. destruct Hfails as [Hfails _].
      + cbn [Pool self1]. by rewrite (get_primers_registry _ dev).
      + by injection Hfails as -> ->.
    - destruct success, info, out_file; try done.
      by rewrite lookup_insert_ne. }
  by apply IH.
Qed.

Lemma encode_blocks_skips (block_size_bytes total : nat)
    (distribution_strategy : Z -> Z -> list Z) (block_idxs : list nat)
    (self : MolFSDev) (call : nat)
    (block_distribution : gmap (Z * Z) (list csv_row * block_result)) :
  primer_registry self = primer_registry dev ->
  block_distribution !! (p, b) = None ->
  (encode_blocks rnds in_file self call block_size_bytes total
     distribution_strategy block_idxs block_distribution).2 !! (p, b)
  = None.
Proof.
  revert self call block_distribution.
  induction block_idxs as [|k ks IH]; intros self call dist Hreg Hnone;
    [done|].
  cbn [encode_blocks].
  destruct (encode_pools_skips k (k * block_size_bytes)
              (block_size_bytes `min` (length in_file - k * block_size_bytes))
              (distribution_strategy (Z.of_nat k) (Z.of_nat total)) self call
              dist Hreg Hnone) as [Hreg' Hnone'].
  destruct (encode_pools _ _ _ _ _ _ _ _ _) as [[self1 call1] dist1].
  by apply IH.
Qed.

End Skipped.

(** X18. [encode_file] passes over a block whose primers
    [encode_file_to_dna] refuses: when a primer registered for a pool and a
    block is neither empty nor 22 symbols long, [encode_file] still returns
    normally, and what it returns has no file for that block in that pool,
    whatever the strategy. *)
Theorem encode_file_skips_bad_primers (rnds : nat -> nat -> bool)
    (self : MolFSDev) (in_file : list Z)
    (distribution_strategy : option (Z -> Z -> list Z)) (pool block : Z) :
  (0 < dev_block_size_bytes self)%Z ->
  bad_primers (get_primers self pool block) ->
  exists self' block_distribution,
    encode_file rnds in_file self distribution_strategy
    = Ok (self', block_distribution)
    /\ block_distribution !! (pool, block) = None.
Proof.
  intros Hsize Hbad. unfold encode_file.
  rewrite (proj2 (Nat.eqb_neq _ 0)) by lia.
  pose proof (encode_blocks_skips rnds self in_file pool block Hbad
                (Z.to_nat (dev_block_size_bytes self))
                ((length in_file + Z.to_nat (dev_block_size_bytes self) - 1)
                 / Z.to_nat (dev_block_size_bytes self))
                (target_pools distribution_strategy)
                (seq 0
                   ((length in_file + Z.to_nat (dev_block_size_bytes self) - 1)
                    / Z.to_nat (dev_block_size_bytes self)))
                self 0 ∅ eq_refl (lookup_empty _)) as Hnone.
  change (default _ distribution_strategy)
    with (target_pools distribution_strategy).
  destruct (encode_blocks _ _ _ _ _ _ _ _ _) as [self' block_distribution].
  by exists self', block_distribution.
Qed.

Lemma encode_file_skips_bad_primers_witness :
  exists self' block_distribution,
    encode_file (fun _ _ => false) [7; 8; 9]%Z
      (register_primers (set_block_size Samples.fresh_dev 2) 1 0
         [ascii_of_nat 65; ascii_of_nat 67] [])
      None
    = Ok (self', block_distribution)
    /\ block_distribution !! (1, 0)%Z = None.
Proof.
  apply (encode_file_skips_bad_primers (fun _ _ => false)
           (register_primers (set_block_size Samples.fresh_dev 2) 1 0
              [ascii_of_nat 65; ascii_of_nat 67] [])
           [7; 8; 9]%Z None 1 0).
  - cbn. lia.
  - left. vm_compute. split; [discriminate|lia].
Defined.

(** X19. An empty file: [encode] reports success and one block, having
    written a CSV file with no record, and [decode] of that file, by the
    same object, fails and writes nothing; [encode_file] writes no file at
    all, and [reconstruct_file] with no file to read fails, reporting no
    block. *)
Theorem empty_file_is_not_stored (rnd : nat -> bool)
    (rnds : nat -> nat -> bool) (self : MolFSDev)
    (distribution_strategy : option (Z -> Z -> list Z)) (out_file : Z) :
  (0 < dev_block_size_bytes self)%Z ->
  good_primers (get_primers self (Pool self) 0) ->
  (exists self',
     encode rnd self [] = (self', (true, 1%Z), Some [])
     /\ (decode self' [] out_file).2 = (false, None)
     /\ temp_dir (decode self' [] out_file).1 = temp_dir self)
  /\ encode_file rnds [] self distribution_strategy = Ok (self, ∅)
  /\ (reconstruct_file self []).2 = MissingBlocks (FileInfo 0 0 ∅) [] (-1).
Proof.
  intros Hsize (HF & HR & _). split; [|split].
  - destruct (encode_file_to_dna_layout rnd [] (Some
                (get_primers self (Pool self) 0).1)
                (Some (get_primers self (Pool self) 0).2) false (100 * 1024)
                (Z.to_nat (dev_block_size_bytes self)) HF HR ltac:(by left)
                ltac:(lia)) as (e & Hencode & Hblocks & Holigos & _ & Hrows).
    change (length (bytes_to_bits []) / 8) with 0 in Hblocks.
    rewrite Nat.div_small in Hblocks by lia.
    rewrite Hblocks in Hrows. cbn in Hrows. apply Forall2_nil_inv_l in Hrows.
    unfold encode, encode_block. cbn [default Pool Block]. unfold id.
    rewrite drop_nil, take_nil.
    change (get_primers _ (Pool self) 0%Z)
      with (get_primers self (Pool self) 0%Z).
    destruct (get_primers self (Pool self) 0) as [F R] eqn:Hprimers.
    cbn [fst snd] in Hencode. rewrite Hencode, Hrows.
    eexists. split; [reflexivity|].
    unfold decode. cbn [Pool Block].
    change (get_primers _ (Pool self) 0%Z)
      with (get_primers self (Pool self) 0%Z).
    rewrite Hprimers. by cbn.
  - unfold encode_file. rewrite (proj2 (Nat.eqb_neq _ 0)) by lia.
    cbn [length Nat.add]. by rewrite Nat.div_small by lia.
  - reflexivity.
Qed.

Lemma empty_file_is_not_stored_witness :
  (exists self',
     encode (fun _ => false) Samples.fresh_dev [] = (self', (true, 1%Z), Some [])
     /\ (decode self' [] 0).2 = (false, None))
  /\ encode_file (fun _ _ => false) [] Samples.fresh_dev None
     = Ok (Samples.fresh_dev, ∅).
Proof.
  destruct (empty_file_is_not_stored (fun _ => false) (fun _ _ => false)
              Samples.fresh_dev None 0)
    as ((self' & Hencode & Hdecode & _) & Hfile & _).
  - cbn. lia.
  - split; [by right|]. split; [by right|].
    split; intros c Hc; injection Hc as <-; reflexivity.
  - split; [|exact Hfile]. exists self'. split; [exact Hencode|exact Hdecode].
Defined.

(** X20. A block size of zero: [encode] catches the division by zero of
    [encode_file_to_dna], reports failure and no block and writes no file,
    whereas [encode_file], which divides by the block size itself, lets the
    [ZeroDivisionError] escape. *)
Theorem zero_block_size (rnd : nat -> bool) (rnds : nat -> nat -> bool)
    (self : MolFSDev) (in_file : list Z)
    (distribution_strategy : option (Z -> Z -> list Z)) :
  dev_block_size_bytes self = 0%Z ->
  (encode rnd self in_file).1.2 = (false, 0%Z)
  /\ (encode rnd self in_file).2 = None
  /\ encode_file rnds in_file self distribution_strategy
     = Raise ZeroDivisionError.
Proof.
  intros Hzero. unfold encode_file. rewrite Hzero. split; [|split; [|done]].
  - unfold encode, encode_block. cbn [default]. unfold id. rewrite Hzero.
    cbv zeta. destruct (get_primers _ _ _) as [F R].
    unfold encode_file_to_dna. cbn [default]. unfold id.
    destruct (_ && _); [done|]. by destruct (_ && _).
  - unfold encode, encode_block. cbn [default]. unfold id. rewrite Hzero.
    cbv zeta. destruct (get_primers _ _ _) as [F R].
    unfold encode_file_to_dna. cbn [default]. unfold id.
    destruct (_ && _); [done|]. by destruct (_ && _).
Qed.

Lemma zero_block_size_witness :
  (encode (fun _ => false) (set_block_size Samples.fresh_dev 0) [7; 8; 9]%Z).1.2
  = (false, 0%Z)
  /\ encode_file (fun _ _ => false) [7; 8; 9]%Z
       (set_block_size Samples.fresh_dev 0) None
     = Raise ZeroDivisionError.
Proof.
  destruct (zero_block_size (fun _ => false) (fun _ _ => false)
              (set_block_size Samples.fresh_dev 0) [7; 8; 9]%Z None eq_refl)
    as (Hencode & _ & Hfile).
  split; [exact Hencode|exact Hfile].
Defined.

End FileFacts.
